(** * colls: column selection over [ls -l] listings

    A shallow embedding of [colls.py] (the text-column engine: escape
    sequences, quote unwrapping, line tokenizer, width calculator and table
    renderer) together with the properties stated about it.

    Conventions of the embedding.
    - A Python [str] is a list of characters, [str := list ascii]; characters
      are the code points below 256.
    - A Python [int] is a [Z]; [len] is [Z.of_nat (length _)].
    - A Python exception is a value of [exn]; a function that can raise
      returns [result A := exn + A], threaded with [x <- e ;; k].
    - [print] appends a line to an explicit output list. *)

From Stdlib Require Import Ascii String ZArith Lia DecimalString.
From stdpp Require Import base decidable list strings.

Local Open Scope char_scope.
Local Open Scope Z_scope.

(** ** Strings *)

Definition str : Type := list ascii.

(** A string literal of the source. *)
Definition lit (s : string) : str := list_ascii_of_string s.

Definition ESC : ascii := "027".
Definition DQUOTE : ascii := "034".

(** Truth value of a Python string: non-empty. *)
Definition truthy (s : str) : bool :=
  match s with [] => false | _ :: _ => true end.

(** [len(s)] *)
Definition len (s : str) : Z := Z.of_nat (length s).

(** [' ' * n]: the empty string when [n <= 0]. *)
Definition spaces (n : Z) : str := replicate (Z.to_nat n) " ".

(** ** Escape-sequence model *)

(** The character class [[0-9;]]. *)
Definition is_param (c : ascii) : bool :=
  let n := nat_of_ascii c in
  ((48 <=? n)%nat && (n <=? 57)%nat) || Ascii.eqb c ";".

(** The character classes [[mK]] and [m] that end a sequence. *)
Definition final_mK (c : ascii) : bool := Ascii.eqb c "m" || Ascii.eqb c "K".
Definition final_m (c : ascii) : bool := Ascii.eqb c "m".

(** The greedy [[0-9;]*]: the longest run of parameter characters and what
    follows it. *)
Fixpoint span_params (s : str) : str * str :=
  match s with
  | c :: t =>
      if is_param c then let (p, r) := span_params t in (c :: p, r)
      else ([], s)
  | [] => ([], [])
  end.

(** One attempt of [\x1b\[[0-9;]*F] at the head of [s], for [F] the class
    [final].  The star is greedy and a shorter run would leave a parameter
    character where [F] is expected, so backtracking never finds a match the
    longest run misses.  The result is the parameter run (group 1), the final
    character and the text after the match. *)
Definition match_csi (final : ascii -> bool) (s : str)
  : option (str * ascii * str) :=
  match s with
  | e :: b :: t =>
      if Ascii.eqb e ESC && Ascii.eqb b "[" then
        let (p, r) := span_params t in
        match r with
        | f :: r' => if final f then Some (p, f, r') else None
        | [] => None
        end
      else None
  | _ => None
  end.

(** What a left-to-right scan of [re.sub] / [re.finditer] sees: characters
    outside matches, and the matches. *)
Inductive token : Type :=
  | Lit (c : ascii)
  | Csi (params : str) (final : ascii).

(** The scan: at each position try a match; on success emit it and resume
    after it ([skip] counts the characters of the match still to pass), else
    keep the character and move one position on. *)
Fixpoint scan_from (final : ascii -> bool) (skip : nat) (s : str)
  : list token :=
  match s with
  | [] => []
  | c :: t =>
      match skip with
      | S k => scan_from final k t
      | O =>
          match match_csi final s with
          | Some (p, f, _) => Csi p f :: scan_from final (2 + length p) t
          | None => Lit c :: scan_from final 0 t
          end
      end
  end.

Definition scan (final : ascii -> bool) (s : str) : list token :=
  scan_from final 0 s.

Definition literals (ts : list token) : str :=
  omap (fun t => match t with Lit c => Some c | Csi _ _ => None end) ts.

Definition groups (ts : list token) : list str :=
  omap (fun t => match t with Lit _ => None | Csi p _ => Some p end) ts.

(** [f"\x1b[{code}m"] and its like. *)
Definition csi (code : str) (final : ascii) : str :=
  ESC :: "[" :: code ++ [final].

(** [strip_ansi_codes]: [re.sub(r'\x1b\[[0-9;]*[mK]', '', text)]. *)
Definition strip_ansi_codes (text : str) : str :=
  literals (scan final_mK text).

(** [get_color_code]: the last match of ESC, bracket, a captured run of
    [[0-9;]], [m] whose captured run is not ['0'], rebuilt as an escape, or
    the empty string. *)
Definition last_non_reset (matches : list str) : str :=
  match List.find (fun code => negb (bool_decide (code = lit "0")))
                  (rev matches) with
  | Some code => csi code "m"
  | None => []
  end.

Definition get_color_code (text : str) : str :=
  let matches := groups (scan final_m text) in
  last_non_reset matches.

Definition visible_len (text : str) : Z := len (strip_ansi_codes text).

(** ** Exceptions *)

Inductive exn : Type := ValueError | IndexError.

Definition result (A : Type) : Type := (exn + A)%type.
Definition ok {A} (a : A) : result A := inr a.
Definition raise {A} (e : exn) : result A := inl e.
Definition bind {A B} (m : result A) (k : A -> result B) : result B :=
  match m with inl e => inl e | inr a => k a end.

Notation "x <- e ;; k" := (bind e (fun x => k))
  (at level 100, e at next level, k at level 200, right associativity).

(** [l[i]] for an index that is not negative. *)
Definition index {A} (l : list A) (i : nat) : result A :=
  match l !! i with Some x => ok x | None => raise IndexError end.

(** [l[i] = x] *)
Definition setitem {A} (l : list A) (i : nat) (x : A) : result (list A) :=
  if (i <? length l)%nat then ok (<[i:=x]> l) else raise IndexError.

(** [for x in l: s = f(s, x)] *)
Fixpoint for_each {A St} (f : St -> A -> result St) (l : list A) (s : St)
  : result St :=
  match l with
  | [] => ok s
  | x :: l' => s' <- f s x ;; for_each f l' s'
  end.

(** [for i, x in enumerate(l, start): s = f(s, i, x)] *)
Fixpoint for_enumerate {A St} (f : St -> nat -> A -> result St)
  (start : nat) (l : list A) (s : St) : result St :=
  match l with
  | [] => ok s
  | x :: l' => s' <- f s start x ;; for_enumerate f (S start) l' s'
  end.

(** ** String methods *)

(** [str.isspace] on one character below 256. *)
Definition is_space (c : ascii) : bool :=
  let n := nat_of_ascii c in
  ((9 <=? n)%nat && (n <=? 13)%nat) || ((28 <=? n)%nat && (n <=? 32)%nat)
  || (n =? 133)%nat || (n =? 160)%nat.

Fixpoint lstrip (s : str) : str :=
  match s with
  | c :: t => if is_space c then lstrip t else s
  | [] => []
  end.

(** [s.strip()] *)
Definition py_strip (s : str) : str := rev (lstrip (rev (lstrip s))).

(** The longest run without whitespace, and what follows it. *)
Fixpoint span_word (s : str) : str * str :=
  match s with
  | c :: t =>
      if is_space c then ([], s)
      else let (w, r) := span_word t in (c :: w, r)
  | [] => ([], [])
  end.

(** [s.split(maxsplit=n)]: split on runs of whitespace; after [n] splits the
    remainder, leading whitespace dropped, is the last element. *)
Fixpoint split_ws (maxsplit : nat) (s : str) : list str :=
  match lstrip s with
  | [] => []
  | c :: t =>
      match maxsplit with
      | O => [c :: t]
      | S k => let (w, r) := span_word (c :: t) in w :: split_ws k r
      end
  end.

(** [s.startswith(pat)] *)
Fixpoint starts_with (pat s : str) : bool :=
  match pat, s with
  | [], _ => true
  | p :: pat', c :: s' => Ascii.eqb p c && starts_with pat' s'
  | _ :: _, [] => false
  end.

(** Index of the first occurrence of [pat] in [s]. *)
Fixpoint find_sub (pat s : str) : option nat :=
  if starts_with pat s then Some O
  else match s with
       | [] => None
       | _ :: t => S <$> find_sub pat t
       end.

(** [pat in s] *)
Definition contains (pat s : str) : bool :=
  match find_sub pat s with Some _ => true | None => false end.

(** [s.split(pat, 1)] *)
Definition split_once (pat s : str) : list str :=
  match find_sub pat s with
  | Some i => [take i s; drop (i + length pat) s]
  | None => [s]
  end.

(** [c in s] for one character [c]. *)
Definition char_in (c : ascii) (s : str) : bool := existsb (Ascii.eqb c) s.

(** [s.find(c)] and [s.rfind(c)]: -1 when [c] does not occur. *)
Definition py_find (c : ascii) (s : str) : Z :=
  match find_sub [c] s with Some i => Z.of_nat i | None => -1 end.

Definition py_rfind (c : ascii) (s : str) : Z :=
  match find_sub [c] (rev s) with
  | Some j => len s - 1 - Z.of_nat j
  | None => -1
  end.

(** A slice bound as Python reads it: a negative bound counts from the end,
    and the bound is then clamped to the string. *)
Definition slice_bound (s : str) (i : Z) : nat :=
  Z.to_nat (if i <? 0 then Z.max 0 (i + len s) else Z.min i (len s)).

(** [s[lo:hi]], [s[:hi]] and [s[lo:]] *)
Definition slice (s : str) (lo hi : Z) : str :=
  take (slice_bound s hi - slice_bound s lo) (drop (slice_bound s lo) s).
Definition slice_to (s : str) (hi : Z) : str := take (slice_bound s hi) s.
Definition slice_from (s : str) (lo : Z) : str := drop (slice_bound s lo) s.

(** [s.ljust(w)] *)
Definition ljust (s : str) (w : Z) : str := s ++ spaces (w - len s).

(** [str(n)] for a count. *)
Definition str_of_nat (n : nat) : str :=
  lit (NilEmpty.string_of_uint (Nat.to_uint n)).

(** ** Quote unwrapper *)

Definition strip_quotes_python (col : str) (keep_indicator : bool) : str :=
  if negb (truthy col) then col else
  let clean := strip_ansi_codes col in
  if negb (starts_with [DQUOTE] clean
           && contains [DQUOTE] (slice_from clean 1)) then col else
  let indicators := lit "*/@|=" in
  let start := py_find DQUOTE col in
  let end_ := py_rfind DQUOTE col + 1 in
  let content := slice col (start + 1) (end_ - 1) in
  let indicator : str :=
    if end_ <? len col then
      match col !! Z.to_nat end_ with
      | Some ch => if char_in ch indicators then [ch] else []
      | None => []
      end
    else [] in
  let result := slice_to col start ++ content in
  let result :=
    if keep_indicator && truthy indicator then result ++ indicator
    else result in
  let ansi_tail :=
    if end_ + len indicator <? len col
    then slice_from col (end_ + len indicator) else [] in
  if truthy ansi_tail && negb (starts_with [DQUOTE] ansi_tail)
  then result ++ ansi_tail
  else result.

(** ** Line tokenizer *)

Definition split_line_into_columns (line : str) : result (list str) :=
  let parts := split_ws 8 (py_strip line) in
  let parts :=
    if (length parts <? 9)%nat
    then parts ++ replicate (9 - length parts) [] else parts in
  filename_part <- index parts 8 ;;
  fat <-
    (if contains (lit " -> ") (strip_ansi_codes filename_part) then
       match split_once (lit " -> ") filename_part with
       | [filename; rest] => ok (filename, lit "->", rest)
       | _ => raise ValueError
       end
     else ok (filename_part, lit " ", lit " ")) ;;
  let '(filename, arrow, target) := fat in
  p0 <- index parts 0 ;; p1 <- index parts 1 ;; p2 <- index parts 2 ;;
  p3 <- index parts 3 ;; p4 <- index parts 4 ;; p5 <- index parts 5 ;;
  p6 <- index parts 6 ;; p7 <- index parts 7 ;;
  ok [p0; p1; p2; p3; p4; p5; p6; p7; filename; arrow; target].

(** ** Width calculator *)

(** The dictionary [extra_widths], with its two keys ['0'] and ['*']. *)
Record extra_widths : Type := ExtraWidths { ew_arrow : Z; ew_target : Z }.

(** The body of [for i, col in enumerate(columns)]. *)
Definition measure_column (filename arrow target : str)
  (st : list Z * extra_widths) (i : nat) (col : str)
  : result (list Z * extra_widths) :=
  let (widths, ew) := st in
  let '(display_col, ew) :=
    if (i =? 8)%nat then (strip_ansi_codes filename, ew)
    else if (i =? 9)%nat then
      (arrow, ExtraWidths (Z.max (ew_arrow ew) (len arrow)) (ew_target ew))
    else if (i =? 10)%nat then
      let display_col := strip_ansi_codes target in
      (display_col,
       ExtraWidths (ew_arrow ew) (Z.max (ew_target ew) (len display_col)))
    else (strip_ansi_codes col, ew) in
  w <- index widths i ;;
  widths <- setitem widths i (Z.max w (len display_col)) ;;
  ok (widths, ew).

(** The body of [for line in lines]. *)
Definition measure_line (strip_quotes : bool) (st : list Z * extra_widths)
  (line : str) : result (list Z * extra_widths) :=
  columns <- split_line_into_columns line ;;
  if (length columns =? 11)%nat then
    c8 <- index columns 8 ;;
    let filename :=
      if strip_quotes then strip_quotes_python c8 true else c8 in
    c9 <- index columns 9 ;;
    let arrow := strip_ansi_codes c9 in
    c10 <- index columns 10 ;;
    let target :=
      if strip_quotes then strip_quotes_python c10 true else c10 in
    for_enumerate (measure_column filename arrow target) 0 columns st
  else ok st.

Definition calculate_column_widths (lines : list str) (strip_quotes : bool)
  : result (list Z * extra_widths) :=
  for_each (measure_line strip_quotes) lines
           (replicate 11 0, ExtraWidths 4 0).

(** ** Table renderer *)

Definition digits19 : str := lit "123456789".
Definition identifiers : str := lit "1234567890*".

(** [int(c)] for a digit. *)
Definition int_of_digit (c : ascii) : nat := (nat_of_ascii c - 48)%nat.

(** [separators[i-1] if i-1 < len(separators) else " "] *)
Definition separator_at (separators : list str) (i : nat) : str :=
  match separators !! (i - 1)%nat with Some sep => sep | None => lit " " end.

(** [output = parts[0]], then [output += sep + part] over
    [enumerate(parts[1:], 1)]. *)
Definition join_parts (separators : list str) (parts : list str)
  : result str :=
  first <- index parts 0 ;;
  for_enumerate
    (fun output i part => ok (output ++ separator_at separators i ++ part))
    1 (drop 1 parts) first.

(** [print_header], returning the line it prints. *)
Definition print_header (widths : list Z) (ew : extra_widths)
  (columns_to_show : list ascii) (separators : list str) : result str :=
  header_parts <-
    for_each
      (fun header_parts i =>
         if char_in i digits19 then
           w <- index widths (int_of_digit i - 1) ;;
           ok (header_parts ++ [ljust [i] w])
         else if Ascii.eqb i "0" then
           ok (header_parts ++ [ljust (lit "0") (ew_arrow ew)])
         else if Ascii.eqb i "*" then
           ok (header_parts ++ [ljust (lit "*") (ew_target ew)])
         else ok header_parts)
      columns_to_show [] ;;
  join_parts separators header_parts.

(** The body of the first inner loop of [main],
    [for col in columns_to_show]. *)
Definition select_column (ew : extra_widths) (display_cols : list str)
  (output_cols : list str) (col : ascii) : result (list str) :=
  if char_in col digits19 then
    d <- index display_cols (int_of_digit col - 1) ;;
    ok (output_cols ++ [d])
  else if Ascii.eqb col "0" then
    d10 <- index display_cols 10 ;;
    let arrow_clean := py_strip (strip_ansi_codes d10) in
    ok (output_cols
          ++ [if truthy arrow_clean then lit " -> " else lit "    "])
  else if Ascii.eqb col "*" then
    d10 <- index display_cols 10 ;;
    let target_clean := py_strip (strip_ansi_codes d10) in
    ok (output_cols
          ++ [if truthy target_clean then d10 else spaces (ew_target ew)])
  else ok output_cols.

(** The first inner loop of [main]: the display value of each selected
    column. *)
Definition select_columns (ew : extra_widths) (display_cols : list str)
  (columns_to_show : list ascii) : result (list str) :=
  for_each (select_column ew display_cols) columns_to_show [].

(** [has_following], as a truth value. *)
Definition has_following (columns_to_show : list ascii)
  (output_cols : list str) (i : nat) : result bool :=
  if Z.of_nat i <? Z.of_nat (length columns_to_show) - 1 then
    next <- index columns_to_show (i + 1) ;;
    if char_in next identifiers then
      o <- index output_cols (i + 1) ;;
      ok (truthy (py_strip (strip_ansi_codes o)))
    else ok false
  else ok false.

(** [selected_padded[-1] = selected_padded[-1] + color] *)
Definition append_to_last (selected_padded : list str) (color : str)
  : result (list str) :=
  match rev selected_padded with
  | [] => raise IndexError
  | last :: before => ok (rev before ++ [last ++ color])
  end.

(** The reverse-video run: [f"{color}\x1b[7m{' ' * n}\x1b[27m\x1b[0m"]. *)
Definition reverse_padding (color : str) (padding_len : Z) : str :=
  color ++ csi (lit "7") "m" ++ spaces padding_len
        ++ csi (lit "27") "m" ++ csi (lit "0") "m".

(** The body of the second inner loop of [main],
    [for i, c in enumerate(columns_to_show)]. *)
Definition pad_column (widths : list Z) (ew : extra_widths) (max_pad : Z)
  (columns_to_show : list ascii) (output_cols : list str)
  (selected_padded : list str) (i : nat) (c : ascii) : result (list str) :=
  if char_in c digits19 || Ascii.eqb c "*" then
    col <- index output_cols i ;;
    let visible_len := len (strip_ansi_codes col) in
    width <-
      (if char_in c digits19 then index widths (int_of_digit c - 1)
       else ok (ew_target ew)) ;;
    let padding_len := width - visible_len in
    following <- has_following columns_to_show output_cols i ;;
    if (Ascii.eqb c "9" || Ascii.eqb c "*") && (max_pad >? 0)
       && (padding_len >=? max_pad) && following then
      let color := get_color_code col in
      let padding := reverse_padding color padding_len in
      selected_padded <-
        (if (i <? length selected_padded)%nat && truthy color
         then append_to_last selected_padded color
         else ok selected_padded) ;;
      ok (selected_padded ++ [col ++ padding])
    else
      let padding := spaces padding_len in
      ok (selected_padded ++ [col ++ padding])
  else if Ascii.eqb c "0" then
    col <- index output_cols i ;;
    ok (selected_padded ++ [ljust col (ew_arrow ew)])
  else ok selected_padded.

(** What [main] is given once the command line is parsed. *)
Record config : Type := Config {
  columns_to_show : list ascii;
  separators : list str;
  use_quotes : bool;
  show_header : bool;
  max_pad : Z
}.

(** The columns of one line as shown: quotes stripped from the filename and
    from a visible target unless [-Q] was given. *)
Definition display_columns (cfg : config) (columns : list str)
  : result (list str) :=
  if negb (use_quotes cfg) then
    c8 <- index columns 8 ;;
    display_cols <- setitem columns 8 (strip_quotes_python c8 true) ;;
    c10 <- index columns 10 ;;
    setitem display_cols 10
      (if truthy (py_strip (strip_ansi_codes c10))
       then strip_quotes_python c10 true else c10)
  else ok columns.

(** The padded columns of one line, before they are joined. *)
Definition pad_columns (widths : list Z) (ew : extra_widths) (cfg : config)
  (output_cols : list str) : result (list str) :=
  for_enumerate
    (pad_column widths ew (max_pad cfg) (columns_to_show cfg) output_cols)
    0 (columns_to_show cfg) [].

(** The line printed for a tokenized row. *)
Definition render_columns (widths : list Z) (ew : extra_widths)
  (cfg : config) (columns : list str) : result str :=
  display_cols <- display_columns cfg columns ;;
  output_cols <- select_columns ew display_cols (columns_to_show cfg) ;;
  selected_padded <- pad_columns widths ew cfg output_cols ;;
  join_parts (separators cfg) selected_padded.

(** The body of [for line in lines] in [main]: the lines printed so far and
    [file_count]. *)
Definition render_line (widths : list Z) (ew : extra_widths) (cfg : config)
  (st : list str * nat) (line : str) : result (list str * nat) :=
  let (out, file_count) := st in
  columns <- split_line_into_columns line ;;
  if (length columns =? 11)%nat then
    let file_count := (file_count + 1)%nat in
    output <- render_columns widths ew cfg columns ;;
    ok (out ++ [output], file_count)
  else ok (out ++ [line], file_count).

(** [main] from the captured lines of the listing on: the lines it prints. *)
Definition main_lines (cfg : config) (lines : list str)
  : result (list str) :=
  let '(out, lines) :=
    match lines with
    | first :: rest =>
        if starts_with (lit "total") first then ([first], rest)
        else ([], lines)
    | [] => ([], lines)
    end in
  we <- calculate_column_widths lines true ;;
  let (widths, ew) := we : list Z * extra_widths in
  out <-
    (if show_header cfg then
       header <- print_header widths ew (columns_to_show cfg)
                              (separators cfg) ;;
       ok (out ++ [header])
     else ok out) ;;
  st <- for_each (render_line widths ew cfg) lines (out, O) ;;
  let (out, file_count) := st : list str * nat in
  ok (out ++ [str_of_nat file_count ++ lit " found"]).

(** The selection and separators of [-951] and the like. *)
Definition short_selection (cols : string) (quotes : bool) (pad : Z)
  : config :=
  Config (lit cols) (replicate (length (lit cols) - 1) (lit " "))
         quotes false pad.

(** ** Predicates of the statements *)

(** Some position of [s] starts an escape span that [strip_ansi_codes]
    recognizes. *)
Fixpoint has_span (s : str) : bool :=
  match s with
  | [] => false
  | _ :: t =>
      match match_csi final_mK s with
      | Some _ => true
      | None => has_span t
      end
  end.

(** Where the attempt to match at an ESC comes to decide, for the text [t]
    behind that ESC: behind the bracket and the run of parameter characters,
    or at [t] itself when no bracket follows. *)
Definition attempt_stop (t : str) : str :=
  match t with
  | b :: t' => if Ascii.eqb b "[" then (span_params t').2 else t
  | [] => []
  end.

(** No escape span starts right where an incomplete sequence breaks off:
    for every ESC of [s] that starts no span, no span starts at the place
    where the attempt at that ESC stopped.  Texts in which every ESC starts
    a span, and texts whose incomplete sequences are cut by the end or by an
    ordinary character, are of this kind. *)
Fixpoint spans_apart (s : str) : bool :=
  match s with
  | [] => true
  | c :: t =>
      (if Ascii.eqb c ESC then
         match match_csi final_mK s with
         | Some _ => true
         | None =>
             match match_csi final_mK (attempt_stop t) with
             | Some _ => false
             | None => true
             end
         end
       else true)
      && spans_apart t
  end.

(** The line [main] prints for the [i]-th line of its output. *)
Definition output_line (cfg : config) (lines : list str) (i : nat)
  : result str :=
  out <- main_lines cfg lines ;; index out i.

(** The value of [selected_padded] once the second inner loop of [main] has
    run for [line], with the widths of the batch [lines]. *)
Definition selected_padded_of (cfg : config) (lines : list str) (line : str)
  : result (list str) :=
  we <- calculate_column_widths lines true ;;
  let (widths, ew) := we : list Z * extra_widths in
  columns <- split_line_into_columns line ;;
  display_cols <- display_columns cfg columns ;;
  output_cols <- select_columns ew display_cols (columns_to_show cfg) ;;
  pad_columns widths ew cfg output_cols.

(** The value of [output_cols] once the first inner loop of [main] has run
    for [line], with the widths of the batch [lines]. *)
Definition output_cols_of (cfg : config) (lines : list str) (line : str)
  : result (list str) :=
  we <- calculate_column_widths lines true ;;
  let (widths, ew) := we : list Z * extra_widths in
  columns <- split_line_into_columns line ;;
  display_cols <- display_columns cfg columns ;;
  select_columns ew display_cols (columns_to_show cfg).

(** The line the loop of [main] prints for [line], with the widths of the
    batch [lines]. *)
Definition rendered_line_of (cfg : config) (lines : list str) (line : str)
  : result str :=
  we <- calculate_column_widths lines true ;;
  let (widths, ew) := we : list Z * extra_widths in
  columns <- split_line_into_columns line ;;
  render_columns widths ew cfg columns.

(** The visible lengths [calculate_column_widths] takes of the fields of a
    tokenized line. *)
Definition measured (strip_quotes : bool) (columns : list str) : list Z :=
  match columns with
  | [p0; p1; p2; p3; p4; p5; p6; p7; c8; c9; c10] =>
      let unquote c :=
        if strip_quotes then strip_quotes_python c true else c in
      [visible_len p0; visible_len p1; visible_len p2; visible_len p3;
       visible_len p4; visible_len p5; visible_len p6; visible_len p7;
       visible_len (unquote c8); visible_len c9; visible_len (unquote c10)]
  | _ => []
  end.

(** A width table grown by the lengths of one more line. *)
Definition grow (st : list Z * extra_widths) (m : list Z)
  : list Z * extra_widths :=
  (zip_with Z.max st.1 m,
   ExtraWidths (Z.max (ew_arrow st.2) (nth 9 m 0))
               (Z.max (ew_target st.2) (nth 10 m 0))).

(** Entry by entry, one width table is at most another. *)
Definition widths_le (st st' : list Z * extra_widths) : Prop :=
  Forall2 Z.le st.1 st'.1 /\
  ew_arrow st.2 <= ew_arrow st'.2 /\ ew_target st.2 <= ew_target st'.2.

(** Every identifier of a selection is one of [1234567890*]. *)
Definition valid_selection (sel : list ascii) : bool :=
  forallb (fun c => char_in c identifiers) sel.

(** The width the column of identifier [c] is padded to. *)
Definition column_width (widths : list Z) (ew : extra_widths) (c : ascii)
  : Z :=
  if char_in c digits19 then nth (int_of_digit c - 1) widths 0
  else if Ascii.eqb c "*" then ew_target ew
  else ew_arrow ew.

(** A column has visible content: outside its escape spans there is a
    character that is not whitespace. *)
Definition shows_content (col : str) : bool :=
  existsb (fun ch => negb (is_space ch)) (strip_ansi_codes col).

(** The column selected after position [i] exists and has visible
    content. *)
Definition next_shows_content (output_cols : list str) (i : nat) : bool :=
  match output_cols !! (i + 1)%nat with
  | Some o => shows_content o
  | None => false
  end.

(** The rule of the reverse highlight for the column [col] of identifier
    [c] at position [i]. *)
Definition highlight_rule (widths : list Z) (ew : extra_widths) (max_pad : Z)
  (output_cols : list str) (i : nat) (c : ascii) (col : str) : Prop :=
  (c = "9" \/ c = "*") /\ 0 < max_pad /\
  max_pad <= column_width widths ew c - visible_len col /\
  next_shows_content output_cols i = true.

(** The rule, as a truth value. *)
Definition fires (widths : list Z) (ew : extra_widths) (max_pad : Z)
  (output_cols : list str) (i : nat) (c : ascii) (col : str) : bool :=
  (Ascii.eqb c "9" || Ascii.eqb c "*") && (max_pad >? 0)
  && (column_width widths ew c - visible_len col >=? max_pad)
  && next_shows_content output_cols i.

(** [selected_padded] with [color] put behind its last entry. *)
Definition recolor_last (selected_padded : list str) (color : str)
  : list str :=
  match rev selected_padded with
  | [] => selected_padded
  | last :: before => rev before ++ [last ++ color]
  end.

(** ** Sample listings *)

(** [name] between the quotes that [ls -Q] adds. *)
Definition quoted (name : str) : str := DQUOTE :: name ++ [DQUOTE].

Definition symlink_line : str :=
  lit "lrwxrwxrwx 1 alice staff 7 Mar 3 10:00 "
  ++ quoted (lit "link") ++ lit " -> " ++ quoted (lit "target").

(** A line whose arrow shows only once an escape is stripped. *)
Definition split_arrow_line : str :=
  lit "-rw-r--r-- 1 alice staff 7 Mar 3 10:00 a -" ++ csi [] "m" ++ lit "> b".

(** The heading [ls] prints before the entries of a directory when it lists
    several. *)
Definition heading_line : str := lit "dir1:".

(** A coloured directory name, as [ls --color=always -Q -F] prints it. *)
Definition blue_dir : str :=
  csi (lit "01;34") "m" ++ DQUOTE :: lit "d" ++ DQUOTE :: csi (lit "0") "m"
  ++ lit "/".

Definition dir_line : str :=
  lit "drwxr-xr-x 2 alice staff 4.0K Mar 3 10:00 " ++ blue_dir.

Definition file_line : str :=
  lit "-rw-r--r-- 1 alice staff 12 Mar 3 10:00 "
  ++ quoted (lit "longer_name.txt").

(** The configuration [main] starts from: every column, single spaces, quotes
    stripped, no header, threshold 5. *)
Definition default_config : config := short_selection "1234567890*" false 5.

(** ** Further notions of the statements *)

(** What follows the closing quote once the quotes are gone: a leading type
    indicator is kept or dropped as asked, the rest stays. *)
Definition after_quote (keep_indicator : bool) (tail : str) : str :=
  match tail with
  | ind :: rest =>
      if char_in ind (lit "*/@|=")
      then (if keep_indicator then tail else rest)
      else tail
  | [] => []
  end.

(** How often the character [c] occurs in [s]. *)
Definition count_char (c : ascii) (s : str) : nat :=
  length (List.filter (Ascii.eqb c) s).

(** A listing line put together from eight words, each followed by its gap
    of whitespace, and the filename unit. *)
Definition listing_line (fields : list (str * str)) (unit : str) : str :=
  concat (map (fun f => f.1 ++ f.2) fields) ++ unit.

(** A word: not empty, no whitespace.  A gap: not empty, whitespace only. *)
Definition is_word (w : str) : bool := truthy w && negb (existsb is_space w).
Definition is_gap (g : str) : bool := truthy g && forallb is_space g.

(** A text that neither starts nor ends with whitespace, and is not
    empty. *)
Definition trimmed (s : str) : bool :=
  match s with c :: _ => negb (is_space c) | [] => false end
  && match rev s with c :: _ => negb (is_space c) | [] => false end.

(** The eight words of a row before its filename, with their gaps as [ls]
    pads them. *)
Definition sample_fields : list (str * str) :=
  [(lit "-rw-r--r--", lit " "); (lit "1", lit " "); (lit "alice", lit " ");
   (lit "staff", lit "  "); (lit "12", lit " "); (lit "Mar", lit "  ");
   (lit "3", lit " "); (lit "10:00", lit " ")].

(** What the loop over the lines keeps true of the table. *)
Definition table_invariant (st : list Z * extra_widths) : Prop :=
  length st.1 = 11%nat /\ ew_arrow st.2 = 4 /\
  ew_target st.2 = nth 10 st.1 0 /\ nth 9 st.1 0 <= 2 /\
  Forall (Z.le 0) st.1.

(** What the padding loop appends for the column [col] of identifier [c] at
    position [i]. *)
Definition padded_column (widths : list Z) (ew : extra_widths) (max_pad : Z)
  (output_cols : list str) (i : nat) (c : ascii) (col : str) : str :=
  if Ascii.eqb c "0" then ljust col (ew_arrow ew)
  else if fires widths ew max_pad output_cols i c col then
    col ++ reverse_padding (get_color_code col)
             (column_width widths ew c - visible_len col)
  else col ++ spaces (column_width widths ew c - visible_len col).

(** The display value of the column of identifier [c]. *)
Definition column_value (ew : extra_widths) (display_cols : list str)
  (c : ascii) : str :=
  if char_in c digits19 then nth (int_of_digit c - 1) display_cols []
  else
    let d10 := nth 10 display_cols [] in
    if Ascii.eqb c "0" then
      (if truthy (py_strip (strip_ansi_codes d10))
       then lit " -> " else lit "    ")
    else
      (if truthy (py_strip (strip_ansi_codes d10))
       then d10 else spaces (ew_target ew)).

(** ** Command line *)

(** [x in l] for a list of strings. *)
Definition str_in (x : str) (l : list str) : bool :=
  existsb (fun y => bool_decide (x = y)) l.

(** [all(c in "1234567890*" for c in s)] and [any(...)]. *)
Definition all_identifiers (s : str) : bool :=
  forallb (fun c => char_in c identifiers) s.
Definition any_identifier (s : str) : bool :=
  existsb (fun c => char_in c identifiers) s.

(** The first test of the loop that sorts the arguments: [-] and then
    identifiers only. *)
Definition is_short_format (arg : str) : bool :=
  starts_with (lit "-") arg && all_identifiers (slice_from arg 1).

(** The second test: [--] and then an identifier somewhere. *)
Definition is_long_format (arg : str) : bool :=
  starts_with (lit "--") arg && any_identifier (slice_from arg 2).

(** The loop that sorts the arguments into [ls_args] and [format_args]. *)
Definition sort_arguments (args : list str) : list str * list str :=
  fold_left
    (fun st arg =>
       let '(ls_args, format_args) := st in
       if is_short_format arg then (ls_args, format_args ++ [arg])
       else if is_long_format arg then (ls_args, format_args ++ [arg])
       else if negb (str_in arg [lit "-Q"; lit "--header"])
       then (ls_args ++ [arg], format_args)
       else (ls_args, format_args))
    args ([], []).

(** [re.split(r'([1234567890*])', raw)]: the texts between identifiers and,
    the pattern being a group, the identifiers between the texts; [text] is
    the text read since the last identifier. *)
Fixpoint split_identifiers (text : str) (raw : str) : list str :=
  match raw with
  | [] => [text]
  | c :: rest =>
      if char_in c identifiers
      then text :: [c] :: split_identifiers [] rest
      else split_identifiers (text ++ [c]) rest
  end.

(** The loop over [enumerate(parts[1:], 1)] that collects the separators of
    the extended syntax. *)
Definition collect_separators (parts : list str) : list str :=
  fold_left
    (fun separators ip =>
       let '(i, part) := (ip : nat * str) in
       if contains part identifiers
          && (Z.of_nat i <? Z.of_nat (length parts) - 1) then
         let sep :=
           match parts !! (i + 1)%nat with
           | Some sep => sep
           | None => lit " "
           end in
         let sep := if contains sep identifiers then lit " " else sep in
         separators ++ [sep]
       else separators)
    (zip (seq 1 (length parts - 1)) (drop 1 parts)) [].

(** The body of [for arg in format_args]: the selection and the separators
    the argument sets. *)
Definition read_format (st : list ascii * list str) (arg : str)
  : list ascii * list str :=
  if starts_with (lit "--") arg then
    let raw_arg := slice_from arg 2 in
    let columns_to_show :=
      List.filter (fun c => char_in c identifiers) raw_arg in
    let parts := split_identifiers [] raw_arg in
    (columns_to_show, collect_separators parts)
  else if starts_with (lit "-") arg then
    let columns_to_show := slice_from arg 1 in
    (columns_to_show, replicate (length columns_to_show - 1) (lit " "))
  else st.

(** How [main] can go on once it has read its arguments. *)
Inductive startup : Type :=
  | ShowVersion
  | ShowHelp
  | BadMaxPad
  | Run (cfg : config) (ls_args : list str).

Section CommandLine.
(** [int(s)], [None] when it raises [ValueError]. *)
Variable py_int : str -> option Z.

(** The loop that looks for [--max-pad]: at the first one that has an
    argument behind it, that argument is read as the threshold and both are
    taken out of [args]; [None] when it is no integer. *)
Fixpoint read_max_pad (args : list str) : option (Z * list str) :=
  match args with
  | [] => Some (5, [])
  | arg :: rest =>
      match rest with
      | value :: rest' =>
          if bool_decide (arg = lit "--max-pad") then
            match py_int value with
            | Some n => Some (n, rest')
            | None => None
            end
          else
            match read_max_pad rest with
            | Some (n, args') => Some (n, arg :: args')
            | None => None
            end
      | [] => Some (5, [arg])
      end
  end.

(** [main] up to the call of [ls]. *)
Definition parse_args (args : list str) : startup :=
  if str_in (lit "--version") args then ShowVersion
  else if str_in (lit "--help") args then ShowHelp
  else
    let use_quotes := str_in (lit "-Q") args in
    let show_header := str_in (lit "--header") args in
    match read_max_pad args with
    | None => BadMaxPad
    | Some (max_pad, args) =>
        let '(ls_args, format_args) := sort_arguments args in
        let columns_to_show := identifiers in
        let separators :=
          replicate (length columns_to_show - 1) (lit " ") in
        let '(columns_to_show, separators) :=
          fold_left read_format format_args (columns_to_show, separators) in
        Run (Config columns_to_show separators use_quotes show_header max_pad)
            ls_args
    end.
End CommandLine.

(** A reading of decimal numbers, for the examples: digits only. *)
Definition digits_only (s : str) : option Z :=
  if truthy s && forallb (fun c => char_in c (lit "0123456789")) s
  then Some (fold_left (fun n c => 10 * n + Z.of_nat (int_of_digit c)) s 0)
  else None.

(** The raw text of an extended selection: identifiers, each followed by
    the text up to the next one, and the last identifier. *)
Definition long_form (items : list (ascii * str)) (last : ascii) : str :=
  concat (map (fun it => it.1 :: it.2) items) ++ [last].

(** The separators the extended syntax gives for such a text. *)
Definition gap_separators (items : list (ascii * str)) : list str :=
  concat (map (fun it => if truthy it.2 then [it.2]
                         else [lit " "; lit " "]) items)
  ++ [lit " "].

(** The separators collected along the parts after the first: a part that
    is a piece of the identifiers and has a next part contributes that next
    part, or a space when the next part too is such a piece. *)
Fixpoint following_separators (l : list str) : list str :=
  match l with
  | part :: ((next :: _) as l') =>
      (if contains part identifiers
       then [if contains next identifiers then lit " " else next]
       else [])
      ++ following_separators l'
  | _ => []
  end.

(** The lines [main] measures and renders: all but a leading [total]
    line. *)
Definition body_lines (lines : list str) : list str :=
  match lines with
  | first :: rest => if starts_with (lit "total") first then rest else lines
  | [] => []
  end.

(** The tokenizer returns on [line]. *)
Definition tokenizes (line : str) : bool :=
  match split_line_into_columns line with inr _ => true | inl _ => false end.

(** * Properties *)

#[local] Arguments Ascii.eqb : simpl never.
#[global] Arguments is_param : simpl never.
#[global] Arguments is_space : simpl never.
#[global] Arguments match_csi : simpl never.
#[global] Arguments strip_ansi_codes : simpl never.
#[global] Arguments get_color_code : simpl never.
#[global] Arguments strip_quotes_python : simpl never.

(** ** The scan *)

Section Scan.
Variable final : ascii -> bool.

Lemma span_params_split s p r :
  span_params s = (p, r) ->
  s = p ++ r /\ forallb is_param p = true /\
  match r with c :: _ => is_param c = false | [] => True end.
Proof.
  revert p r. induction s as [|c t IH]; intros p r H; simpl in H.
  - by inversion H.
  - destruct (is_param c) eqn:Hc.
    + destruct (span_params t) as [p' r'] eqn:Ht. inversion H; subst.
      destruct (IH p' r eq_refl) as (-> & Hp & Hr).
      split; [done|]. split; [simpl; by rewrite Hc, Hp | done].
    + inversion H; subst. by rewrite Hc.
Qed.

Lemma span_params_run p r :
  forallb is_param p = true ->
  match r with c :: _ => is_param c = false | [] => True end ->
  span_params (p ++ r) = (p, r).
Proof.
  intros Hp Hr. induction p as [|c p IH]; simpl in *.
  - destruct r as [|c r]; simpl; [done | by rewrite Hr].
  - apply andb_prop in Hp as [Hc Hp]. by rewrite Hc, IH.
Qed.

Lemma match_csi_split s p f r :
  match_csi final s = Some (p, f, r) ->
  s = csi p f ++ r /\ forallb is_param p = true /\ final f = true /\
  is_param f = false.
Proof.
  unfold match_csi, csi. intros H.
  destruct s as [|e [|b t]]; try done.
  destruct (Ascii.eqb e ESC) eqn:He; [|done].
  destruct (Ascii.eqb b "[") eqn:Hb; [|done]. simpl in H.
  apply Ascii.eqb_eq in He, Hb. subst e b.
  destruct (span_params t) as [p' r'] eqn:Ht.
  destruct r' as [|f' r'']; [done|].
  destruct (final f') eqn:Hf; [|done]. inversion H; subst.
  apply span_params_split in Ht as (-> & Hp & Hnp).
  repeat split; [|done..]. simpl. by rewrite <- app_assoc.
Qed.

Lemma match_csi_head c t :
  c <> ESC -> match_csi final (c :: t) = None.
Proof.
  intros Hc. unfold match_csi. destruct t as [|b t]; [done|].
  apply Ascii.eqb_neq in Hc. by rewrite Hc.
Qed.

Lemma scan_from_drop k s : scan_from final k s = scan final (drop k s).
Proof.
  revert k. induction s as [|c t IH]; intros [|k]; try done.
  simpl. apply IH.
Qed.

Lemma scan_nil : scan final [] = [].
Proof. done. Qed.

Lemma scan_keep c t :
  match_csi final (c :: t) = None ->
  scan final (c :: t) = Lit c :: scan final t.
Proof. unfold scan. simpl scan_from. by intros ->. Qed.

Lemma scan_match s p f r :
  match_csi final s = Some (p, f, r) ->
  scan final s = Csi p f :: scan final r.
Proof.
  intros H. destruct (match_csi_split _ _ _ _ H) as (Hs & _).
  destruct s as [|c t]; [done|].
  unfold scan at 1. simpl scan_from. rewrite H. f_equal.
  rewrite scan_from_drop. f_equal.
  unfold csi in Hs. simpl in Hs. inversion Hs; subst.
  change ("[" :: (p ++ [f]) ++ r) with (("[" :: p ++ [f]) ++ r).
  rewrite drop_app_length'; [done|].
  simpl. rewrite length_app. simpl. lia.
Qed.

(** Induction along the scan: a kept character, or a match and the text
    after it. *)
Lemma scan_ind (P : list ascii -> Prop) :
  P [] ->
  (forall c t, match_csi final (c :: t) = None -> P t -> P (c :: t)) ->
  (forall p f r, match_csi final (csi p f ++ r) = Some (p, f, r) ->
                 P r -> P (csi p f ++ r)) ->
  forall s : list ascii, P s.
Proof.
  intros Hnil Hkeep Hmatch s.
  induction s as [s IH] using (induction_ltof1 _ (@length ascii)).
  unfold ltof in IH. destruct s as [|c t]; [done|].
  destruct (match_csi final (c :: t)) as [[[p f] r]|] eqn:Hm.
  - destruct (match_csi_split _ _ _ _ Hm) as (Hs & _).
    rewrite Hs in *. apply Hmatch; [done|]. apply IH.
    unfold csi. simpl. rewrite !length_app. simpl. lia.
  - apply Hkeep; [done|]. apply IH. simpl. lia.
Qed.

Lemma match_csi_intro p f r :
  forallb is_param p = true -> is_param f = false -> final f = true ->
  match_csi final (csi p f ++ r) = Some (p, f, r).
Proof.
  intros Hp Hnp Hf. unfold match_csi, csi. simpl.
  rewrite <- app_assoc. simpl. rewrite span_params_run by done.
  by rewrite Hf.
Qed.

Lemma match_csi_reject p f r :
  forallb is_param p = true -> is_param f = false -> final f = false ->
  match_csi final (csi p f ++ r) = None.
Proof.
  intros Hp Hnp Hf. unfold match_csi, csi. simpl.
  rewrite <- app_assoc. simpl. rewrite span_params_run by done.
  by rewrite Hf.
Qed.

Lemma scan_no_esc s : char_in ESC s = false -> scan final s = Lit <$> s.
Proof.
  induction s as [|c t IH]; [done|]. simpl. intros H.
  apply orb_false_elim in H as [Hc Ht].
  rewrite scan_keep, IH; [done..|].
  apply match_csi_head. intros ->. by rewrite Ascii.eqb_refl in Hc.
Qed.

(** Characters without ESC in front of a text are kept one by one. *)
Lemma scan_plain_prefix a b :
  char_in ESC a = false -> scan final (a ++ b) = (Lit <$> a) ++ scan final b.
Proof.
  induction a as [|c a IH]; [done|]. intros H.
  change (char_in ESC (c :: a)) with (Ascii.eqb ESC c || char_in ESC a) in H.
  apply orb_false_elim in H as [Hc Ha].
  change ((c :: a) ++ b) with (c :: (a ++ b)).
  rewrite scan_keep, IH; [done..|].
  apply match_csi_head. intros ->. by rewrite Ascii.eqb_refl in Hc.
Qed.

Hypothesis final_ESC : final ESC = false.

Lemma match_csi_app_some s p f r x :
  match_csi final s = Some (p, f, r) ->
  match_csi final (s ++ x) = Some (p, f, r ++ x).
Proof.
  intros H. apply match_csi_split in H as (-> & Hp & Hf & Hnp).
  rewrite <- app_assoc. by apply match_csi_intro.
Qed.

Lemma match_csi_app_none c t rest :
  match_csi final (c :: t) = None ->
  match_csi final ((c :: t) ++ ESC :: rest) = None.
Proof.
  unfold match_csi. destruct t as [|b t]; simpl.
  - intros _. destruct (Ascii.eqb c ESC); [|done]. done.
  - destruct (Ascii.eqb c ESC && Ascii.eqb b "["); [|done].
    destruct (span_params t) as [p r] eqn:Ht.
    apply span_params_split in Ht as (-> & Hp & Hr).
    rewrite <- app_assoc. destruct r as [|f r]; simpl.
    + intros _. rewrite span_params_run by done. by rewrite final_ESC.
    + rewrite span_params_run by done. by destruct (final f).
Qed.

(** A match never runs over a later ESC: the scan of a text cut before an
    ESC is the scan of its two parts. *)
Lemma scan_app_esc pre rest :
  scan final (pre ++ ESC :: rest)
  = scan final pre ++ scan final (ESC :: rest).
Proof.
  induction pre as [|c t Hm IH|p f r Hm IH] using scan_ind; [done|..].
  - rewrite (scan_keep _ _ Hm).
    change ((c :: t) ++ ESC :: rest) with (c :: (t ++ ESC :: rest)).
    rewrite scan_keep; [by rewrite IH|]. by apply match_csi_app_none.
  - rewrite (scan_match _ _ _ _ Hm).
    rewrite (scan_match _ _ _ _ (match_csi_app_some _ _ _ _ _ Hm)).
    by rewrite IH.
Qed.
End Scan.

(** ** Escape stripping *)

Lemma literals_Lit s : literals (Lit <$> s) = s.
Proof. induction s as [|c s IH]; [done|]. simpl. f_equal. exact IH. Qed.

Lemma groups_Lit s : groups (Lit <$> s) = [].
Proof. induction s as [|c s IH]; [done|]. done. Qed.

(** Text without ESC is left as it is. *)
Lemma strip_no_esc s : char_in ESC s = false -> strip_ansi_codes s = s.
Proof.
  intros H. unfold strip_ansi_codes. rewrite scan_no_esc by done.
  apply literals_Lit.
Qed.

Lemma literals_app a b : literals (a ++ b) = literals a ++ literals b.
Proof. apply omap_app. Qed.

Lemma char_in_app c a b : char_in c (a ++ b) = char_in c a || char_in c b.
Proof. apply existsb_app. Qed.

Lemma params_no_esc code :
  forallb is_param code = true -> char_in ESC code = false.
Proof.
  induction code as [|c code IH]; [done|]. simpl.
  intros H. apply andb_prop in H as [Hc H]. rewrite (IH H).
  destruct (Ascii.eqb ESC c) eqn:E; [|done].
  apply Ascii.eqb_eq in E. by subst c.
Qed.

(** The two steps of the pass: a character where no span starts is kept, a
    span is dropped. *)
Lemma strip_keep c t :
  match_csi final_mK (c :: t) = None ->
  strip_ansi_codes (c :: t) = c :: strip_ansi_codes t.
Proof.
  intros Hm. unfold strip_ansi_codes. by rewrite (scan_keep _ _ _ Hm).
Qed.

Lemma strip_match s p f r :
  match_csi final_mK s = Some (p, f, r) ->
  strip_ansi_codes s = strip_ansi_codes r.
Proof.
  intros Hm. unfold strip_ansi_codes. by rewrite (scan_match _ _ _ _ _ Hm).
Qed.

(** A text that holds no span is left as it is. *)
Lemma strip_without_span t : has_span t = false -> strip_ansi_codes t = t.
Proof.
  induction t as [|c t IH]; [done|]. cbn [has_span].
  destruct (match_csi final_mK (c :: t)) as [m|] eqn:Hm; [done|].
  intros Ht. by rewrite (strip_keep _ _ Hm), (IH Ht).
Qed.

(** A text that holds a span gets shorter. *)
Lemma strip_with_span t :
  (length (strip_ansi_codes t) <= length t)%nat /\
  (has_span t = true -> (length (strip_ansi_codes t) < length t)%nat).
Proof.
  induction t as [|c t Hm [IHle IHlt]|p f r Hm [IHle IHlt]]
    using (scan_ind final_mK).
  - split; [done|]. done.
  - rewrite (strip_keep _ _ Hm). cbn [has_span length]. rewrite Hm.
    split; [lia|]. intros Ht. specialize (IHlt Ht). lia.
  - rewrite (strip_match _ _ _ _ Hm). unfold csi.
    cbn [app length]. rewrite !length_app. cbn [length].
    split; [lia|]. intros _. lia.
Qed.

Lemma spans_apart_app a b :
  spans_apart (a ++ b) = true -> spans_apart b = true.
Proof.
  induction a as [|c a IH]; [done|]. cbn [app spans_apart].
  intros H. apply andb_prop in H as [_ H]. auto.
Qed.

(** An attempt that an ordinary character or the end of the text has cut is
    still cut once the text behind the ESC is stripped. *)
Lemma attempt_stays_cut t :
  match_csi final_mK (ESC :: t) = None ->
  match_csi final_mK (attempt_stop t) = None ->
  match_csi final_mK (ESC :: strip_ansi_codes t) = None.
Proof.
  destruct t as [|b t]; [done|]. unfold attempt_stop.
  destruct (Ascii.eqb b "[") eqn:Hb.
  - apply Ascii.eqb_eq in Hb. subst b.
    destruct (span_params t) as [p r] eqn:Hsp. cbn [snd].
    apply span_params_split in Hsp as (-> & Hp & Hr).
    intros Hcut Hstop.
    assert (Hstrip : strip_ansi_codes ("[" :: p ++ r)
                     = "[" :: p ++ strip_ansi_codes r).
    { unfold strip_ansi_codes.
      change ("[" :: p ++ r) with (("[" :: p) ++ r).
      rewrite scan_plain_prefix, literals_app, literals_Lit; [done|].
      change (char_in ESC ("[" :: p)) with (false || char_in ESC p).
      by rewrite params_no_esc. }
    rewrite Hstrip. destruct r as [|f r].
    + unfold match_csi. change (strip_ansi_codes []) with (@nil ascii).
      rewrite Ascii.eqb_refl. cbn [andb].
      change (Ascii.eqb "[" "[") with true. cbv iota.
      by rewrite span_params_run.
    + assert (Hf : final_mK f = false).
      { destruct (final_mK f) eqn:Hf; [|done].
        pose proof (match_csi_intro final_mK p f r Hp Hr Hf) as Hm.
        unfold csi in Hm. cbn [app] in Hm. rewrite <- app_assoc in Hm.
        cbn [app] in Hm. congruence. }
      rewrite (strip_keep _ _ Hstop).
      pose proof (match_csi_reject final_mK p f (strip_ansi_codes r)
                    Hp Hr Hf) as Hm.
      unfold csi in Hm. cbn [app] in Hm. rewrite <- app_assoc in Hm.
      exact Hm.
  - intros _ Hstop. rewrite (strip_keep _ _ Hstop).
    unfold match_csi. rewrite Hb. by rewrite andb_false_r.
Qed.

(** Where no span starts at the place an incomplete sequence breaks off,
    the removals join nothing into a span. *)
Lemma spans_apart_strip s :
  spans_apart s = true -> has_span (strip_ansi_codes s) = false.
Proof.
  induction s as [|c t Hm IH|p f r Hm IH] using (scan_ind final_mK);
    intros H; [done|..].
  - rewrite (strip_keep _ _ Hm). cbn [spans_apart] in H. rewrite Hm in H.
    apply andb_prop in H as [Hc Ht]. cbn [has_span]. rewrite (IH Ht).
    destruct (Ascii.eqb c ESC) eqn:He.
    + apply Ascii.eqb_eq in He. subst c.
      rewrite attempt_stays_cut; [done | done |].
      by destruct (match_csi final_mK (attempt_stop t)).
    + rewrite match_csi_head; [done|]. intros ->.
      by rewrite Ascii.eqb_refl in He.
  - rewrite (strip_match _ _ _ _ Hm). apply IH.
    by apply spans_apart_app in H.
Qed.

(** C3, as stated, fails: removing the span of [ESC ESC[m [m] joins the ESC
    before it and the [[m] after it into a new span, which a second pass
    removes. *)
Lemma strip_ansi_codes_not_idempotent :
  strip_ansi_codes (strip_ansi_codes (ESC :: ESC :: lit "[m[m"))
  <> strip_ansi_codes (ESC :: ESC :: lit "[m[m").
Proof. vm_compute. discriminate. Qed.

(** C3, amended: stripping twice is stripping once exactly when the
    stripped text holds no escape span, that is, when the removals have
    joined nothing into a new span.  This is so whenever no span of the text
    starts right where an incomplete sequence breaks off: in a text whose
    every ESC starts a span, and as well in a text with a lone ESC or with
    sequences cut short by the end of the text or by an ordinary
    character. *)
Theorem strip_ansi_codes_idempotent s :
  (strip_ansi_codes (strip_ansi_codes s) = strip_ansi_codes s
   <-> has_span (strip_ansi_codes s) = false) /\
  (spans_apart s = true ->
   strip_ansi_codes (strip_ansi_codes s) = strip_ansi_codes s).
Proof.
  split; [split|].
  - intros Hfix. destruct (has_span (strip_ansi_codes s)) eqn:Hs; [|done].
    destruct (strip_with_span (strip_ansi_codes s)) as [_ Hlt].
    specialize (Hlt Hs). rewrite Hfix in Hlt. lia.
  - apply strip_without_span.
  - intros H. by apply strip_without_span, spans_apart_strip.
Qed.

(** A coloured name behind a sequence that ordinary text cuts short, and
    with a lone ESC at its end. *)
Lemma strip_ansi_codes_idempotent_witness :
  spans_apart (ESC :: lit "[31xyz" ++ blue_dir ++ [ESC]) = true /\
  strip_ansi_codes
    (strip_ansi_codes (ESC :: lit "[31xyz" ++ blue_dir ++ [ESC]))
  = strip_ansi_codes (ESC :: lit "[31xyz" ++ blue_dir ++ [ESC]).
Proof.
  split; [reflexivity|].
  apply (proj2 (strip_ansi_codes_idempotent
                  (ESC :: lit "[31xyz" ++ blue_dir ++ [ESC]))).
  reflexivity.
Defined.

(** ** Last active colour *)

Lemma groups_app a b : groups (a ++ b) = groups a ++ groups b.
Proof. apply omap_app. Qed.

Lemma groups_scan_m_terminated code suf :
  forallb is_param code = true -> char_in ESC suf = false ->
  groups (scan final_m (csi code "m" ++ suf)) = [code].
Proof.
  intros Hp Hs.
  rewrite (scan_match _ _ code "m" suf) by (by apply match_csi_intro).
  rewrite scan_no_esc by done. simpl. f_equal. apply groups_Lit.
Qed.

Lemma groups_scan_K_terminated code suf :
  forallb is_param code = true -> char_in ESC suf = false ->
  groups (scan final_m (csi code "K" ++ suf)) = [].
Proof.
  intros Hp Hs.
  pose proof (match_csi_reject final_m code "K" suf Hp eq_refl eq_refl) as Hm.
  unfold csi in *. simpl in *. rewrite (scan_keep _ _ _ Hm).
  rewrite scan_no_esc; [apply (groups_Lit (_ :: _))|].
  change ("[" :: (code ++ ["K"]) ++ suf) with (("[" :: code ++ ["K"]) ++ suf).
  rewrite char_in_app, Hs.
  change ("[" :: code ++ ["K"]) with (["["] ++ code ++ ["K"]).
  rewrite !char_in_app, (params_no_esc code) by done. reflexivity.
Qed.

Lemma last_non_reset_snoc matches code :
  last_non_reset (matches ++ [code])
  = if bool_decide (code = lit "0") then last_non_reset matches
    else csi code "m".
Proof.
  unfold last_non_reset. rewrite rev_unit. simpl.
  by destruct (bool_decide (code = _)).
Qed.

(** C10: behind any text, an [m]-terminated sequence is the last active
    colour unless its parameter is exactly [0]: the empty parameter and [00]
    are returned, [0] is passed over, and a [K]-terminated sequence is not
    looked at. *)
Theorem get_color_code_reset_is_exactly_0 pre code suf :
  forallb is_param code = true ->
  char_in ESC suf = false ->
  get_color_code (pre ++ csi code "m" ++ suf)
  = (if bool_decide (code = lit "0") then get_color_code pre
     else csi code "m")
  /\ get_color_code (pre ++ csi [] "m" ++ suf) = csi [] "m"
  /\ get_color_code (pre ++ csi (lit "00") "m" ++ suf) = csi (lit "00") "m"
  /\ get_color_code (pre ++ csi (lit "0") "m" ++ suf) = get_color_code pre
  /\ get_color_code (pre ++ csi code "K" ++ suf) = get_color_code pre.
Proof.
  intros Hp Hs.
  assert (Hm : forall c, forallb is_param c = true ->
    get_color_code (pre ++ csi c "m" ++ suf)
    = if bool_decide (c = lit "0") then get_color_code pre else csi c "m").
  { intros c Hc. unfold get_color_code.
    change (csi c "m" ++ suf) with (ESC :: ("[" :: c ++ ["m"]) ++ suf).
    rewrite scan_app_esc by done. rewrite groups_app.
    change (ESC :: ("[" :: c ++ ["m"]) ++ suf) with (csi c "m" ++ suf).
    rewrite groups_scan_m_terminated by done.
    apply last_non_reset_snoc. }
  split; [by apply Hm|].
  split; [by rewrite Hm|]. split; [by rewrite Hm|]. split; [by rewrite Hm|].
  unfold get_color_code.
  change (csi code "K" ++ suf) with (ESC :: ("[" :: code ++ ["K"]) ++ suf).
  rewrite scan_app_esc by done. rewrite groups_app.
  change (ESC :: ("[" :: code ++ ["K"]) ++ suf) with (csi code "K" ++ suf).
  rewrite groups_scan_K_terminated by done. by rewrite app_nil_r.
Qed.

Lemma get_color_code_reset_is_exactly_0_witness :
  forallb is_param (lit "01;34") = true /\
  char_in ESC (lit "name") = false /\
  get_color_code (blue_dir ++ csi (lit "00") "m" ++ lit "name")
  = csi (lit "00") "m" /\
  get_color_code (blue_dir ++ csi (lit "0") "m" ++ lit "name")
  = csi (lit "01;34") "m" /\
  get_color_code (blue_dir ++ csi (lit "01;34") "K" ++ lit "name")
  = csi (lit "01;34") "m".
Proof.
  split; [reflexivity|]. split; [reflexivity|].
  destruct (get_color_code_reset_is_exactly_0
              blue_dir (lit "01;34") (lit "name") eq_refl eq_refl)
    as (_ & _ & H00 & H0 & HK).
  split; [exact H00|]. split; [rewrite H0 | rewrite HK]; reflexivity.
Defined.

(** ** Quote unwrapper *)

(** C6: of the quoted value [dq a dq b dq] followed by [/], only the outer
    pair of quotes goes; the inner quote stays and the indicator follows the
    content. *)
Theorem strip_quotes_python_embedded_quote :
  strip_quotes_python (quoted (lit "a" ++ DQUOTE :: lit "b") ++ lit "/") true
  = lit "a" ++ DQUOTE :: lit "b/".
Proof. reflexivity. Qed.

(** ** Line tokenizer *)

(** Whatever the tokenizer returns has eleven fields. *)
Lemma split_line_into_columns_shape line columns :
  split_line_into_columns line = ok columns ->
  exists p0 p1 p2 p3 p4 p5 p6 p7 filename arrow target,
    columns = [p0; p1; p2; p3; p4; p5; p6; p7; filename; arrow; target].
Proof.
  unfold split_line_into_columns.
  repeat match goal with
         | |- context [bind ?m _] => destruct m as [?|?]; simpl; [done|]
         | |- context [let '(_, _) := ?x in _] => destruct x
         end.
  intros [= <-]. eauto 12.
Qed.

Lemma split_line_into_columns_length line columns :
  split_line_into_columns line = ok columns -> length columns = 11%nat.
Proof.
  intros H. apply split_line_into_columns_shape in H.
  by destruct H as (?&?&?&?&?&?&?&?&?&?&?&->).
Qed.

(** The only exception of the tokenizer is the failed unpacking, and it
    takes a filename unit whose arrow shows in the stripped view and not in
    the raw text. *)
Lemma split_line_into_columns_raises line e :
  split_line_into_columns line = raise e ->
  e = ValueError /\
  exists filename_part,
    contains (lit " -> ") (strip_ansi_codes filename_part) = true /\
    contains (lit " -> ") filename_part = false.
Proof.
  unfold split_line_into_columns.
  set (parts := split_ws 8 (py_strip line)).
  set (parts' := if (length parts <? 9)%nat then _ else _).
  assert (Hlen : (9 <= length parts')%nat).
  { subst parts'. destruct (length parts <? 9)%nat eqn:E.
    - apply Nat.ltb_lt in E. rewrite length_app, length_replicate. lia.
    - apply Nat.ltb_ge in E. lia. }
  destruct parts' as [|q0 [|q1 [|q2 [|q3 [|q4 [|q5 [|q6 [|q7 [|q8 ?]]]]]]]]];
    simpl in Hlen; try lia.
  unfold index, raise, ok. simpl.
  destruct (contains _ (strip_ansi_codes q8)) eqn:Hc; simpl; [|done].
  unfold split_once, contains in *.
  match goal with
  | |- context [find_sub ?p q8] => destruct (find_sub p q8) eqn:Hf
  end; simpl; [done|].
  intros [= <-]. split; [done|]. exists q8. by rewrite Hf.
Qed.

(** C1: on a line whose [ -> ] shows only in the escape-stripped filename
    unit, the test finds the arrow, the split of the raw text does not, and
    the unpacking of its single piece raises. *)
Theorem split_line_into_columns_raises_on_split_arrow :
  split_line_into_columns split_arrow_line = raise ValueError.
Proof. reflexivity. Qed.

(** ** Width calculator *)

Lemma for_each_app {A St} (f : St -> A -> result St) a b st :
  for_each f (a ++ b) st = (st' <- for_each f a st ;; for_each f b st').
Proof.
  revert st. induction a as [|x a IH]; intros st; [done|].
  simpl. destruct (f st x); simpl; [done | apply IH].
Qed.

(** One line of the batch: the table grows by the lengths measured on it. *)
Lemma measure_line_ok sq widths ew line columns :
  split_line_into_columns line = ok columns ->
  length widths = 11%nat ->
  measure_line sq (widths, ew) line
  = ok (grow (widths, ew) (measured sq columns)).
Proof.
  intros Hs Hw. unfold measure_line. rewrite Hs.
  apply split_line_into_columns_shape in Hs
    as (p0&p1&p2&p3&p4&p5&p6&p7&c8&c9&c10&->).
  do 11 (destruct widths as [|? widths]; [done|]).
  destruct widths; [|done]. destruct ew. reflexivity.
Qed.

Lemma measure_line_raises sq st line e :
  split_line_into_columns line = raise e ->
  measure_line sq st line = raise e.
Proof. intros Hs. unfold measure_line. by rewrite Hs. Qed.

Lemma measured_length sq line columns :
  split_line_into_columns line = ok columns ->
  length (measured sq columns) = 11%nat.
Proof.
  intros Hs. apply split_line_into_columns_shape in Hs
    as (?&?&?&?&?&?&?&?&?&?&?&->). done.
Qed.

Lemma grow_length st m :
  length st.1 = 11%nat -> length m = 11%nat -> length (grow st m).1 = 11%nat.
Proof. intros Hw Hm. simpl. rewrite length_zip_with. lia. Qed.

Lemma zip_with_max_le (w m : list Z) :
  length w = length m -> Forall2 Z.le w (zip_with Z.max w m).
Proof.
  revert m. induction w as [|a w IH]; intros [|b m] Hl; try done.
  simpl. constructor; [lia|]. apply IH. by inversion Hl.
Qed.

Lemma grow_le st m : length st.1 = length m -> widths_le st (grow st m).
Proof.
  intros Hl. split; [by apply zip_with_max_le|]. simpl. lia.
Qed.

Lemma zip_with_max_comm (w m1 m2 : list Z) :
  zip_with Z.max (zip_with Z.max w m1) m2
  = zip_with Z.max (zip_with Z.max w m2) m1.
Proof.
  revert m1 m2. induction w as [|a w IH]; intros [|b m1] [|c m2]; try done.
  simpl. f_equal; [lia | apply IH].
Qed.

Lemma grow_comm st m1 m2 : grow (grow st m1) m2 = grow (grow st m2) m1.
Proof.
  unfold grow. simpl. f_equal; [apply zip_with_max_comm|]. f_equal; lia.
Qed.

(** The loop over the lines keeps the table at eleven entries. *)
Lemma measure_lines_length sq lines st st' :
  length st.1 = 11%nat ->
  for_each (measure_line sq) lines st = ok st' ->
  length st'.1 = 11%nat.
Proof.
  revert st. induction lines as [|x lines IH]; intros [w e] Hw H.
  - by inversion H.
  - simpl in H. destruct (split_line_into_columns x) as [ex|cols] eqn:Hs.
    + by rewrite (measure_line_raises _ _ _ _ Hs) in H.
    + rewrite (measure_line_ok _ _ _ _ _ Hs Hw) in H. simpl in H.
      eapply IH; [|exact H]. apply grow_length; [done|].
      by eapply measured_length.
Qed.

Lemma calculate_column_widths_length sq lines widths ew :
  calculate_column_widths lines sq = ok (widths, ew) ->
  length widths = 11%nat.
Proof.
  intros H.
  by apply (measure_lines_length sq lines
              (replicate 11 0, ExtraWidths 4 0) (widths, ew)).
Qed.

(** The loop does not depend on the order of the lines. *)
Lemma measure_lines_permutation sq lines lines' :
  lines ≡ₚ lines' ->
  forall st, length st.1 = 11%nat ->
    for_each (measure_line sq) lines st
    = for_each (measure_line sq) lines' st.
Proof.
  induction 1 as [|x l l' Hp IH|x y l|l l' l'' Hp1 IH1 Hp2 IH2];
    intros [w e] Hw.
  - done.
  - simpl. destruct (split_line_into_columns x) as [ex|cols] eqn:Hs.
    + by rewrite (measure_line_raises _ _ _ _ Hs).
    + rewrite (measure_line_ok _ _ _ _ _ Hs Hw). simpl.
      apply IH, grow_length; [done | by eapply measured_length].
  - simpl.
    destruct (split_line_into_columns x) as [ex|cx] eqn:Hx;
      destruct (split_line_into_columns y) as [ey|cy] eqn:Hy.
    + rewrite (measure_line_raises _ _ _ _ Hx), (measure_line_raises _ _ _ _ Hy).
      apply split_line_into_columns_raises in Hx as [-> _].
      by apply split_line_into_columns_raises in Hy as [-> _].
    + rewrite (measure_line_raises _ _ _ _ Hx), (measure_line_ok _ _ _ _ _ Hy Hw).
      simpl. by rewrite (measure_line_raises _ _ _ _ Hx).
    + rewrite (measure_line_raises _ _ _ _ Hy), (measure_line_ok _ _ _ _ _ Hx Hw).
      simpl. by rewrite (measure_line_raises _ _ _ _ Hy).
    + rewrite (measure_line_ok _ _ _ _ _ Hx Hw), (measure_line_ok _ _ _ _ _ Hy Hw).
      simpl.
      assert (Hgx : length (grow (w, e) (measured sq cx)).1 = 11%nat)
        by (apply grow_length; [done | by eapply measured_length]).
      assert (Hgy : length (grow (w, e) (measured sq cy)).1 = 11%nat)
        by (apply grow_length; [done | by eapply measured_length]).
      destruct (grow (w, e) (measured sq cx)) as [wx ex] eqn:Ex.
      destruct (grow (w, e) (measured sq cy)) as [wy ey] eqn:Ey.
      rewrite (measure_line_ok _ _ _ _ _ Hx Hgy), (measure_line_ok _ _ _ _ _ Hy Hgx).
      simpl. by rewrite <- Ex, <- Ey, grow_comm.
  - rewrite IH1 by done. by apply IH2.
Qed.

Lemma calculate_column_widths_permutation sq lines lines' :
  lines ≡ₚ lines' ->
  calculate_column_widths lines sq = calculate_column_widths lines' sq.
Proof. intros Hp. by apply measure_lines_permutation. Qed.

(** A table computed from a batch with one more line comes with the table of
    the batch. *)
Lemma calculate_column_widths_prefix sq B x st' :
  calculate_column_widths (B ++ [x]) sq = ok st' ->
  exists st, calculate_column_widths B sq = ok st /\ widths_le st st'.
Proof.
  unfold calculate_column_widths. rewrite for_each_app.
  destruct (for_each _ B _) as [e|[w ew]] eqn:HB; [done|]. simpl.
  assert (Hw : length w = 11%nat)
    by (by apply (calculate_column_widths_length sq B w ew)).
  destruct (split_line_into_columns x) as [ex|cols] eqn:Hs.
  - by rewrite (measure_line_raises _ _ _ _ Hs).
  - rewrite (measure_line_ok _ _ _ _ _ Hs Hw). simpl. intros [= <-].
    eexists; split; [done|]. apply grow_le. simpl.
    by rewrite (measured_length _ _ _ Hs).
Qed.

(** C7: a line added to a batch leaves no width smaller, the two extra
    widths included, and the table of a batch is that of any reordering of
    it. *)
Theorem calculate_column_widths_monotone sq B x columns widths ew :
  calculate_column_widths B sq = ok (widths, ew) ->
  split_line_into_columns x = ok columns ->
  exists widths' ew',
    calculate_column_widths (B ++ [x]) sq = ok (widths', ew') /\
    Forall2 Z.le widths widths' /\
    ew_arrow ew <= ew_arrow ew' /\
    ew_target ew <= ew_target ew' /\
    (forall B', B ++ [x] ≡ₚ B' ->
                calculate_column_widths B' sq = ok (widths', ew')) /\
    (forall lines lines', lines ≡ₚ lines' ->
       calculate_column_widths lines sq = calculate_column_widths lines' sq).
Proof.
  intros HB Hs.
  assert (Hw : length widths = 11%nat)
    by (by apply (calculate_column_widths_length sq B widths ew)).
  assert (Hx : calculate_column_widths (B ++ [x]) sq
               = ok (grow (widths, ew) (measured sq columns))).
  { unfold calculate_column_widths in *. rewrite for_each_app, HB. simpl.
    by rewrite (measure_line_ok _ _ _ _ _ Hs Hw). }
  destruct (grow_le (widths, ew) (measured sq columns)) as (Hle & Ha & Ht).
  { simpl. by rewrite (measured_length _ _ _ Hs). }
  eexists _, _. split; [exact Hx|]. split; [exact Hle|].
  split; [exact Ha|]. split; [exact Ht|]. split.
  - intros B' Hp. by rewrite <- (calculate_column_widths_permutation _ _ _ Hp).
  - intros lines lines'. apply calculate_column_widths_permutation.
Qed.

Lemma calculate_column_widths_monotone_witness :
  calculate_column_widths [symlink_line] true
  = ok ([10; 1; 5; 5; 1; 3; 1; 5; 4; 2; 6], ExtraWidths 4 6) /\
  (exists columns, split_line_into_columns file_line = ok columns) /\
  exists widths' ew',
    calculate_column_widths ([symlink_line] ++ [file_line]) true
    = ok (widths', ew')
    /\ Forall2 Z.le [10; 1; 5; 5; 1; 3; 1; 5; 4; 2; 6] widths'
    /\ 4 <= ew_arrow ew'
    /\ 6 <= ew_target ew'.
Proof.
  split; [reflexivity|]. split; [by eexists|].
  destruct (calculate_column_widths_monotone true [symlink_line] file_line
              _ _ _ eq_refl eq_refl)
    as (widths' & ew' & H & Hle & Ha & Ht & _).
  by exists widths', ew'.
Defined.

(** ** Table renderer *)

Lemma lstrip_nil s : lstrip s = [] <-> forallb is_space s = true.
Proof.
  induction s as [|c s IH]; [done|]. simpl.
  destruct (is_space c); simpl; [done|]. split; done.
Qed.

Lemma lstrip_all_space s :
  forallb is_space (lstrip s) = true -> forallb is_space s = true.
Proof.
  induction s as [|c s IH]; [done|]. simpl.
  destruct (is_space c) eqn:Hc; simpl; [done|]. by rewrite Hc.
Qed.

Lemma forallb_rev {A} (f : A -> bool) l : forallb f (rev l) = forallb f l.
Proof.
  induction l as [|x l IH]; [done|]. simpl.
  rewrite forallb_app, IH. simpl. rewrite andb_true_r. apply andb_comm.
Qed.

(** [s.strip()] is empty exactly when [s] is whitespace throughout. *)
Lemma py_strip_truthy s :
  truthy (py_strip s) = existsb (fun ch => negb (is_space ch)) s.
Proof.
  assert (He : existsb (fun ch => negb (is_space ch)) s
               = negb (forallb is_space s)).
  { induction s as [|c s IH]; [done|]. simpl. rewrite IH.
    by destruct (is_space c). }
  rewrite He. unfold py_strip.
  destruct (forallb is_space s) eqn:Hs.
  - apply lstrip_nil in Hs. rewrite Hs. done.
  - destruct (rev (lstrip (rev (lstrip s)))) as [|c r] eqn:Hr; [|done].
    exfalso. apply (f_equal (@rev ascii)) in Hr. rewrite rev_involutive in Hr.
    simpl in Hr. apply lstrip_nil in Hr. rewrite forallb_rev in Hr.
    apply lstrip_all_space in Hr. congruence.
Qed.

Lemma char_in_spaces c n : c <> " " -> char_in c (spaces n) = false.
Proof.
  intros Hc. unfold spaces. induction (Z.to_nat n) as [|k IH]; [done|].
  simpl. rewrite IH. apply Ascii.eqb_neq in Hc. by rewrite Hc.
Qed.

Lemma spaces_negative n : n <= 0 -> spaces n = [].
Proof. intros Hn. unfold spaces. by replace (Z.to_nat n) with 0%nat by lia. Qed.

Lemma len_spaces n : len (spaces n) = Z.max 0 n.
Proof. unfold len, spaces. rewrite length_replicate. lia. Qed.

Lemma char_in_reverse_padding color n :
  char_in ESC (reverse_padding color n) = true.
Proof.
  unfold reverse_padding. rewrite char_in_app.
  change (csi (lit "7") "m" ++ ?x) with (ESC :: (lit "[7m" ++ x)).
  unfold char_in at 2. cbn [existsb]. rewrite Ascii.eqb_refl.
  apply orb_true_r.
Qed.

(** Stripping escapes never lengthens a text. *)
Lemma visible_len_le s : visible_len s <= len s.
Proof.
  unfold visible_len, len, strip_ansi_codes.
  induction s as [|c t Hm IH|p f r Hm IH] using (scan_ind final_mK);
    [done|..].
  - rewrite (scan_keep _ _ _ Hm). simpl. lia.
  - rewrite (scan_match _ _ _ _ _ Hm). simpl. rewrite length_app. simpl.
    change (omap _ (scan final_mK r)) with (literals (scan final_mK r)). lia.
Qed.

Lemma identifiers_cases c :
  char_in c identifiers = true ->
  (char_in c digits19 = true /\ Ascii.eqb c "0" = false
   /\ Ascii.eqb c "*" = false /\ (int_of_digit c - 1 < 9)%nat)
  \/ c = "0" \/ c = "*".
Proof.
  unfold char_in, identifiers, lit. simpl. intros H.
  repeat match type of H with
         | (Ascii.eqb c ?x || _) = true =>
             destruct (Ascii.eqb c x) eqn:E;
             [apply Ascii.eqb_eq in E; subst c; clear H;
              first [left; repeat split; [reflexivity..|simpl; lia]
                    | right; left; reflexivity
                    | right; right; reflexivity]
             | clear E; simpl in H]
         end.
  discriminate.
Qed.

Section PadColumn.
Variables (widths : list Z) (ew : extra_widths) (max_pad : Z).
Variables (sel : list ascii) (output_cols : list str).
Hypothesis sel_valid : valid_selection sel = true.
Hypothesis widths_length : length widths = 11%nat.
Hypothesis output_cols_length : length output_cols = length sel.

Lemma has_following_ok i :
  has_following sel output_cols i = ok (next_shows_content output_cols i).
Proof.
  unfold has_following, next_shows_content.
  destruct (Z.of_nat i <? Z.of_nat (length sel) - 1) eqn:Hi.
  - apply Z.ltb_lt in Hi.
    destruct (lookup_lt_is_Some_2 sel (i + 1)) as [next Hn]; [lia|].
    destruct (lookup_lt_is_Some_2 output_cols (i + 1)) as [o Ho]; [lia|].
    unfold index. rewrite Hn. cbn [bind ok].
    unfold valid_selection in sel_valid.
    rewrite forallb_forall in sel_valid.
    rewrite (sel_valid next).
    + rewrite Ho. cbn [bind ok].
      unfold shows_content. by rewrite py_strip_truthy.
    + apply list_elem_of_In. by eapply list_elem_of_lookup_2.
  - apply Z.ltb_ge in Hi.
    rewrite (lookup_ge_None_2 output_cols (i + 1)); [done | lia].
Qed.

Lemma fires_rule i c col :
  fires widths ew max_pad output_cols i c col = true <->
  highlight_rule widths ew max_pad output_cols i c col.
Proof.
  unfold fires, highlight_rule.
  rewrite !andb_true_iff, orb_true_iff, !Ascii.eqb_eq.
  rewrite Z.gtb_ltb, Z.ltb_lt, Z.geb_leb, Z.leb_le. tauto.
Qed.

Lemma index_output_col i col :
  output_cols !! i = Some col -> index output_cols i = ok col.
Proof. unfold index. by intros ->. Qed.

Lemma index_width c :
  char_in c digits19 = true -> (int_of_digit c - 1 < 9)%nat ->
  index widths (int_of_digit c - 1) = ok (column_width widths ew c).
Proof.
  intros Hd Hlt. unfold column_width, index. rewrite Hd.
  destruct (lookup_lt_is_Some_2 widths (int_of_digit c - 1)) as [w Hw];
    [lia|].
  rewrite Hw. f_equal. symmetry. by apply nth_lookup_Some.
Qed.

Lemma recolor_last_ok sp i color :
  (if (i <? length sp)%nat && truthy color
   then append_to_last sp color else ok sp)
  = ok (if (i <? length sp)%nat && truthy color
        then recolor_last sp color else sp).
Proof.
  destruct ((i <? length sp)%nat && truthy color) eqn:Hg; [|done].
  apply andb_prop in Hg as [Hlt _]. apply Nat.ltb_lt in Hlt.
  unfold append_to_last, recolor_last.
  destruct (rev sp) as [|last before] eqn:Hr; [|done].
  apply (f_equal (@rev str)) in Hr. rewrite rev_involutive in Hr.
  subst sp. simpl in Hlt. lia.
Qed.

(** What one round of the padding loop appends, for a column of a valid
    selection. *)
Lemma pad_column_eval sp i c col :
  sel !! i = Some c -> output_cols !! i = Some col ->
  pad_column widths ew max_pad sel output_cols sp i c
  = ok (let padding_len := column_width widths ew c - visible_len col in
        let color := get_color_code col in
        if Ascii.eqb c "0" then sp ++ [ljust col (ew_arrow ew)]
        else if fires widths ew max_pad output_cols i c col then
          (if (i <? length sp)%nat && truthy color
           then recolor_last sp color else sp)
          ++ [col ++ reverse_padding color padding_len]
        else sp ++ [col ++ spaces padding_len]).
Proof.
  intros Hc Hcol.
  assert (Hid : char_in c identifiers = true).
  { unfold valid_selection in sel_valid.
    rewrite forallb_forall in sel_valid. apply sel_valid.
    apply list_elem_of_In. by eapply list_elem_of_lookup_2. }
  unfold pad_column, fires. rewrite (index_output_col _ _ Hcol).
  destruct (identifiers_cases c Hid) as [(Hd & H0 & Hs & Hlt)|[->| ->]].
  - rewrite Hd, H0, index_width by done. cbn [orb bind ok].
    rewrite has_following_ok. cbn [bind ok]. unfold visible_len.
    destruct (_ && _ && _ && _); [|done].
    rewrite recolor_last_ok. done.
  - reflexivity.
  - change (column_width widths ew "*") with (ew_target ew).
    change (char_in "*" digits19) with false.
    change (Ascii.eqb "*" "0") with false.
    change (Ascii.eqb "*" "*") with true. cbn [orb bind ok].
    rewrite has_following_ok. cbn [bind ok]. unfold visible_len.
    destruct (_ && _ && _ && _); [|done].
    rewrite recolor_last_ok. done.
Qed.
End PadColumn.

(** At round [i] of the padding loop [selected_padded] has at most [i]
    entries, so the round only appends: what the loop returns extends what it
    was started with. *)
Lemma pad_columns_keep_previous widths ew max_pad sel output_cols :
  valid_selection sel = true ->
  length widths = 11%nat ->
  length output_cols = length sel ->
  forall rest done_ sp sp',
    sel = done_ ++ rest ->
    (length sp <= length done_)%nat ->
    for_enumerate (pad_column widths ew max_pad sel output_cols)
                  (length done_) rest sp = ok sp' ->
    exists appended, sp' = sp ++ appended.
Proof.
  intros Hv Hw Hl. induction rest as [|c rest IH]; intros done_ sp sp' Hs Hle.
  - intros [= <-]. exists []. by rewrite app_nil_r.
  - simpl.
    assert (Hc : sel !! length done_ = Some c)
      by (by rewrite Hs, list_lookup_middle).
    destruct (lookup_lt_is_Some_2 output_cols (length done_)) as [col Hcol].
    { rewrite Hl, Hs, length_app. simpl. lia. }
    rewrite (pad_column_eval _ _ _ _ _ Hv Hw Hl _ _ _ _ Hc Hcol).
    cbv zeta. replace (length done_ <? length sp)%nat with false
      by (symmetry; apply Nat.ltb_ge; lia).
    cbn [andb bind ok].
    set (x := if Ascii.eqb c "0" then _ else _).
    assert (Hx : exists y, x = sp ++ [y]).
    { subst x. destruct (Ascii.eqb c "0"); [eauto|].
      destruct (fires _ _ _ _ _ _ _); eauto. }
    destruct Hx as [y ->]. intros Hrun.
    destruct (IH (done_ ++ [c]) (sp ++ [y]) sp') as [appended ->].
    + by rewrite <- app_assoc.
    + rewrite !length_app. simpl. lia.
    + rewrite length_app. simpl.
      by replace (length done_ + 1)%nat with (S (length done_)) by lia.
    + exists (y :: appended). by rewrite <- app_assoc.
Qed.

(** C8: in the listing of [dir_line] and [file_line] with the columns
    [195], the highlight fires for the filename, which is coloured and not
    the first column; the permissions column before it is left as it was. *)
Theorem highlight_leaves_previous_column :
  get_color_code (csi (lit "01;34") "m" ++ lit "d" ++ csi (lit "0") "m"
                  ++ lit "/")
  = csi (lit "01;34") "m" /\
  selected_padded_of (short_selection "195" false 5) [dir_line; file_line]
                     dir_line
  = ok [lit "drwxr-xr-x";
        (csi (lit "01;34") "m" ++ lit "d" ++ csi (lit "0") "m" ++ lit "/")
        ++ reverse_padding (csi (lit "01;34") "m") 13;
        lit "4.0K"].
Proof. split; reflexivity. Qed.

(** ** The renderer returns *)

Lemma display_columns_ok cfg columns :
  length columns = 11%nat ->
  exists display_cols,
    display_columns cfg columns = ok display_cols /\
    length display_cols = 11%nat.
Proof.
  intros Hl. do 11 (destruct columns as [|? columns]; [done|]).
  destruct columns; [|done].
  unfold display_columns. destruct (use_quotes cfg); simpl; eauto.
Qed.

Lemma select_columns_from ew display_cols sel :
  length display_cols = 11%nat ->
  valid_selection sel = true ->
  forall acc, exists output_cols,
    for_each (select_column ew display_cols) sel acc = ok output_cols /\
    length output_cols = (length acc + length sel)%nat.
Proof.
  intros Hd. induction sel as [|c sel IH]; intros Hv acc.
  - exists acc. split; [done|]. simpl. lia.
  - simpl in Hv. apply andb_prop in Hv as [Hc Hv].
    destruct (lookup_lt_is_Some_2 display_cols 10) as [d10 H10]; [lia|].
    assert (Hstep : exists x,
      select_column ew display_cols acc c = ok (acc ++ [x])).
    { unfold select_column.
      destruct (identifiers_cases c Hc) as [(Hd9 & H0 & Hs & Hlt)|[->| ->]].
      - rewrite Hd9.
        destruct (lookup_lt_is_Some_2 display_cols (int_of_digit c - 1))
          as [d Hdc]; [lia|].
        unfold index. rewrite Hdc. by eexists.
      - unfold index. rewrite H10. by eexists.
      - unfold index. rewrite H10. by eexists. }
    destruct Hstep as [x Hx]. cbn [for_each]. rewrite Hx. cbn [bind ok].
    destruct (IH Hv (acc ++ [x])) as (out & -> & Hlen).
    exists out. split; [done|]. rewrite Hlen, length_app. simpl. lia.
Qed.

Lemma select_columns_ok ew display_cols sel :
  length display_cols = 11%nat ->
  valid_selection sel = true ->
  exists output_cols,
    select_columns ew display_cols sel = ok output_cols /\
    length output_cols = length sel.
Proof.
  intros Hd Hv. apply (select_columns_from ew display_cols sel Hd Hv []).
Qed.

(** Every round of the padding loop appends one entry. *)
Lemma pad_columns_ok widths ew cfg output_cols :
  valid_selection (columns_to_show cfg) = true ->
  length widths = 11%nat ->
  length output_cols = length (columns_to_show cfg) ->
  exists selected_padded,
    pad_columns widths ew cfg output_cols = ok selected_padded /\
    length selected_padded = length (columns_to_show cfg).
Proof.
  intros Hv Hw Hl. unfold pad_columns.
  set (sel := columns_to_show cfg) in *.
  assert (Hgen : forall rest done_ sp,
    sel = done_ ++ rest -> length sp = length done_ ->
    exists sp',
      for_enumerate (pad_column widths ew (max_pad cfg) sel output_cols)
                    (length done_) rest sp = ok sp'
      /\ length sp' = length sel).
  { induction rest as [|c rest IH]; intros done_ sp Hs Hsp.
    - exists sp. split; [done|]. rewrite Hs, app_nil_r. done.
    - cbn [for_enumerate].
      assert (Hc : sel !! length done_ = Some c)
        by (by rewrite Hs, list_lookup_middle).
      destruct (lookup_lt_is_Some_2 output_cols (length done_))
        as [col Hcol].
      { rewrite Hl, Hs, length_app. simpl. lia. }
      rewrite (pad_column_eval _ _ _ _ _ Hv Hw Hl _ _ _ _ Hc Hcol).
      cbv zeta. replace (length done_ <? length sp)%nat with false
        by (symmetry; apply Nat.ltb_ge; lia).
      cbn [andb bind ok].
      set (x := if Ascii.eqb c "0" then _ else _).
      assert (Hx : exists y, x = sp ++ [y]).
      { subst x. destruct (Ascii.eqb c "0"); [eauto|].
        destruct (fires _ _ _ _ _ _ _); eauto. }
      destruct Hx as [y ->].
      destruct (IH (done_ ++ [c]) (sp ++ [y])) as (sp' & Hrun & Hlen).
      + by rewrite <- app_assoc.
      + rewrite !length_app. simpl. lia.
      + exists sp'. split; [|done]. rewrite length_app in Hrun. simpl in Hrun.
        by replace (S (length done_)) with (length done_ + 1)%nat by lia. }
  apply (Hgen sel [] []); done.
Qed.

Lemma join_parts_ok separators first rest :
  exists output, join_parts separators (first :: rest) = ok output.
Proof.
  unfold join_parts, index. cbn [lookup list_lookup bind ok drop].
  generalize 1%nat. generalize first.
  induction rest as [|part rest IH]; intros output i; [by eexists|].
  cbn [for_enumerate bind ok]. apply IH.
Qed.

(** A tokenized row is rendered, whatever its fields, for every selection
    of one identifier or more. *)
Lemma render_columns_total widths ew cfg columns :
  valid_selection (columns_to_show cfg) = true ->
  columns_to_show cfg <> [] ->
  length widths = 11%nat ->
  length columns = 11%nat ->
  exists output, render_columns widths ew cfg columns = ok output.
Proof.
  intros Hv Hne Hw Hc. unfold render_columns.
  destruct (display_columns_ok cfg columns Hc) as (d & -> & Hd).
  cbn [bind ok].
  destruct (select_columns_ok ew d _ Hd Hv) as (o & -> & Ho).
  cbn [bind ok].
  destruct (pad_columns_ok widths ew cfg o Hv Hw Ho) as (sp & -> & Hsp).
  cbn [bind ok].
  destruct sp as [|first rest]; [|apply join_parts_ok].
  destruct (columns_to_show cfg); [done | simpl in Hsp; lia].
Qed.

(** ** The run *)

(** Every line that tokenizes is rendered and counted: the branch that
    prints a line as it is cannot be taken. *)
Lemma render_line_counts widths ew cfg out n line out' n' :
  render_line widths ew cfg (out, n) line = ok (out', n') ->
  n' = S n /\
  exists columns output,
    split_line_into_columns line = ok columns /\
    render_columns widths ew cfg columns = ok output /\
    out' = out ++ [output].
Proof.
  unfold render_line.
  destruct (split_line_into_columns line) as [e|columns] eqn:Hs; [done|].
  cbn [bind ok]. rewrite (split_line_into_columns_length _ _ Hs).
  change (11 =? 11)%nat with true. cbv iota.
  destruct (render_columns widths ew cfg columns) as [e|output] eqn:Hr;
    [done|].
  cbn [bind ok]. intros [= <- <-]. split; [lia|]. by exists columns, output.
Qed.

(** The loop of [main] counts every line and prints one line for each. *)
Lemma render_lines_count widths ew cfg lines :
  forall out n out' n',
    for_each (render_line widths ew cfg) lines (out, n) = ok (out', n') ->
    n' = (n + length lines)%nat /\
    length out' = (length out + length lines)%nat.
Proof.
  induction lines as [|line lines IH]; intros out n out' n'.
  - intros [= <- <-]. simpl. lia.
  - cbn [for_each].
    destruct (render_line widths ew cfg (out, n) line) as [e|[o m]] eqn:Hr;
      [done|].
    cbn [bind ok]. intros Hrun.
    apply render_line_counts in Hr as (-> & _ & output & _ & _ & ->).
    apply IH in Hrun as [-> ->]. rewrite length_app. simpl. lia.
Qed.

(** C2: the heading [dir1:] is not a listing row, yet it is rendered as a
    row, padded to the widths, and counted. *)
Theorem heading_line_rendered_and_counted :
  main_lines default_config [heading_line]
  = ok [lit "dir1:               "; lit "1 found"].
Proof. reflexivity. Qed.

(** C5, as stated, fails. *)
Lemma symlink_scenario_not_single_spaced :
  output_line (short_selection "90*" false 5) [symlink_line] 0
  <> ok (lit "link -> target").
Proof. vm_compute. discriminate. Qed.

(** C5, amended: the arrow column is the four characters of the marker,
    space arrow space, and a separator stands on each side of it. *)
Theorem symlink_scenario_output :
  output_line (short_selection "90*" false 5) [symlink_line] 0
  = ok (lit "link  ->  target").
Proof. reflexivity. Qed.

(** * Further properties *)

(** ** Escape-sequence model, continued *)

Lemma final_mK_not_param f : final_mK f = true -> is_param f = false.
Proof.
  unfold final_mK. intros H. apply orb_prop in H as [H|H];
    apply Ascii.eqb_eq in H; by subst f.
Qed.

(** X1: stripping only deletes characters: the result is a subsequence of
    the text, so the visible length is at most the length. *)
Theorem strip_ansi_codes_sublist s :
  strip_ansi_codes s `sublist_of` s /\ visible_len s <= len s.
Proof.
  split; [|apply visible_len_le]. unfold strip_ansi_codes.
  induction s as [|c t Hm IH|p f r Hm IH] using (scan_ind final_mK).
  - done.
  - rewrite (scan_keep _ _ _ Hm). by apply sublist_skip.
  - rewrite (scan_match _ _ _ _ _ Hm). by apply sublist_inserts_l.
Qed.

(** X2: a text without ESC is returned as it is. *)
Theorem strip_ansi_codes_plain s :
  char_in ESC s = false -> strip_ansi_codes s = s.
Proof. apply strip_no_esc. Qed.

Lemma strip_ansi_codes_plain_witness :
  char_in ESC (lit "drwxr-xr-x 2 alice") = false /\
  strip_ansi_codes (lit "drwxr-xr-x 2 alice") = lit "drwxr-xr-x 2 alice".
Proof.
  split; [reflexivity | apply strip_ansi_codes_plain; reflexivity].
Defined.

(** X3: a complete escape span, [m]- or [K]-terminated, leaves nothing
    wherever it stands: the text before it and the text after it are
    stripped on their own. *)
Theorem strip_ansi_codes_span pre p f rest :
  forallb is_param p = true ->
  final_mK f = true ->
  strip_ansi_codes (pre ++ csi p f ++ rest)
  = strip_ansi_codes pre ++ strip_ansi_codes rest.
Proof.
  intros Hp Hf. unfold strip_ansi_codes.
  change (csi p f ++ rest) with (ESC :: ("[" :: p ++ [f]) ++ rest).
  rewrite scan_app_esc by done. rewrite literals_app.
  change (ESC :: ("[" :: p ++ [f]) ++ rest) with (csi p f ++ rest).
  rewrite (scan_match final_mK (csi p f ++ rest) p f rest); [reflexivity|].
  apply match_csi_intro; [done | by apply final_mK_not_param | done].
Qed.

Lemma strip_ansi_codes_span_witness :
  forallb is_param (lit "01;34") = true /\ final_mK "K" = true /\
  strip_ansi_codes (lit "ab" ++ csi (lit "01;34") "K" ++ lit "cd")
  = lit "abcd".
Proof.
  split; [reflexivity|]. split; [reflexivity|].
  rewrite (strip_ansi_codes_span (lit "ab") (lit "01;34") "K" (lit "cd")
             eq_refl eq_refl).
  reflexivity.
Defined.

(** X4: an escape sequence that is cut short, by the end of the text or by
    a character that is neither a parameter nor [m] or [K], stays in the
    text as visible characters. *)
Theorem strip_ansi_codes_unterminated pre p rest :
  forallb is_param p = true ->
  match rest with
  | c :: _ => is_param c = false /\ final_mK c = false
  | [] => True
  end ->
  strip_ansi_codes (pre ++ ESC :: "[" :: p ++ rest)
  = strip_ansi_codes pre ++ ESC :: "[" :: p ++ strip_ansi_codes rest.
Proof.
  intros Hp Hr. unfold strip_ansi_codes.
  rewrite scan_app_esc by done. rewrite literals_app. f_equal.
  assert (Hm : match_csi final_mK (ESC :: "[" :: p ++ rest) = None).
  { unfold match_csi. change (Ascii.eqb ESC ESC && Ascii.eqb "[" "[") with true.
    cbv iota. rewrite span_params_run; [|done|].
    - destruct rest as [|c rest]; [done|]. destruct Hr as [_ Hf]. by rewrite Hf.
    - destruct rest as [|c rest]; [done|]. by destruct Hr. }
  rewrite (scan_keep _ _ _ Hm).
  change ("[" :: p ++ rest) with (("[" :: p) ++ rest).
  rewrite scan_plain_prefix.
  - change (literals (Lit ESC :: ?x)) with (ESC :: literals x).
    rewrite literals_app, literals_Lit. done.
  - change ("[" :: p) with (["["] ++ p).
    rewrite char_in_app, (params_no_esc p) by done. reflexivity.
Qed.

Lemma strip_ansi_codes_unterminated_witness :
  strip_ansi_codes (lit "ab" ++ ESC :: "[" :: lit "01;3" ++ lit "x")
  = lit "ab" ++ ESC :: "[" :: lit "01;3" ++ lit "x".
Proof.
  apply (strip_ansi_codes_unterminated (lit "ab") (lit "01;3") (lit "x")
           eq_refl (conj eq_refl eq_refl)).
Defined.

(** The captured run of every match is made of parameter characters. *)
Lemma groups_scan_params final s :
  Forall (fun code => forallb is_param code = true) (groups (scan final s)).
Proof.
  induction s as [|c t Hm IH|p f r Hm IH] using (scan_ind final).
  - constructor.
  - by rewrite (scan_keep _ _ _ Hm).
  - rewrite (scan_match _ _ _ _ _ Hm).
    apply match_csi_split in Hm as (_ & Hp & _).
    by constructor.
Qed.

Lemma last_non_reset_cases matches :
  last_non_reset matches = [] \/
  exists code, code ∈ matches /\ code <> lit "0" /\
               last_non_reset matches = csi code "m".
Proof.
  unfold last_non_reset.
  destruct (find _ (rev matches)) as [code|] eqn:Hf; [|by left].
  right. apply find_some in Hf as [Hin Hne]. exists code.
  split; [|split; [|done]].
  - apply list_elem_of_In. by apply in_rev.
  - apply negb_true_iff in Hne. by apply bool_decide_eq_false in Hne.
Qed.

(** X5: what [get_color_code] returns is empty or one [m]-terminated
    sequence whose parameter is a run of digits and semicolons other than
    [0]; in both cases it has no visible character. *)
Theorem get_color_code_shape text :
  (get_color_code text = [] \/
   exists code, forallb is_param code = true /\ code <> lit "0" /\
                get_color_code text = csi code "m") /\
  strip_ansi_codes (get_color_code text) = [].
Proof.
  unfold get_color_code. cbv zeta.
  destruct (last_non_reset_cases (groups (scan final_m text)))
    as [->|(code & Hin & Hne & ->)].
  - split; [by left | reflexivity].
  - assert (Hp : forallb is_param code = true).
    { pose proof (groups_scan_params final_m text) as Hall.
      rewrite Forall_forall in Hall. by apply Hall. }
    split; [right; by exists code|].
    unfold strip_ansi_codes. rewrite <- (app_nil_r (csi code "m")).
    rewrite (scan_match final_mK (csi code "m" ++ []) code "m" []);
      [reflexivity|].
    by apply match_csi_intro.
Qed.

(** X6: a text without ESC has no colour. *)
Theorem get_color_code_plain text :
  char_in ESC text = false -> get_color_code text = [].
Proof.
  intros H. unfold get_color_code. rewrite scan_no_esc by done.
  by rewrite groups_Lit.
Qed.

Lemma get_color_code_plain_witness :
  char_in ESC (lit "notes.txt") = false /\
  get_color_code (lit "notes.txt") = [].
Proof.
  split; [reflexivity | apply get_color_code_plain; reflexivity].
Defined.

(** ** Quote unwrapper, continued *)

(** A character that no escape span can hold is in the stripped text exactly
    when it is in the text. *)
Lemma strip_keeps_char c s :
  c <> ESC -> c <> "[" -> is_param c = false -> final_mK c = false ->
  char_in c (strip_ansi_codes s) = char_in c s.
Proof.
  intros He Hb Hp Hf. unfold strip_ansi_codes.
  induction s as [|x t Hm IH|p f r Hm IH] using (scan_ind final_mK).
  - done.
  - rewrite (scan_keep _ _ _ Hm).
    change (char_in c (x :: literals (scan final_mK t))
            = char_in c (x :: t)).
    unfold char_in in *. cbn [existsb]. by rewrite IH.
  - rewrite (scan_match _ _ _ _ _ Hm).
    change (literals (Csi p f :: ?x)) with (literals x). rewrite IH.
    apply match_csi_split in Hm as (_ & Hps & Hfin & _).
    rewrite char_in_app.
    assert (Hc : char_in c (csi p f) = false); [|by rewrite Hc].
    unfold csi. change (ESC :: "[" :: p ++ [f]) with ([ESC; "["] ++ p ++ [f]).
    rewrite !char_in_app.
    assert (Hcp : char_in c p = false).
    { clear -Hp Hps. induction p as [|y p IH]; [done|].
      cbn [forallb] in Hps. apply andb_prop in Hps as [Hy Hps].
      unfold char_in. cbn [existsb]. fold (char_in c p). rewrite (IH Hps).
      destruct (Ascii.eqb c y) eqn:E; [|done].
      apply Ascii.eqb_eq in E. subst y. congruence. }
    rewrite Hcp. unfold char_in. cbn [existsb].
    apply Ascii.eqb_neq in He, Hb. rewrite He, Hb.
    destruct (Ascii.eqb c f) eqn:E; [|done].
    apply Ascii.eqb_eq in E. subst f. congruence.
Qed.

(** Escape spans alone in front of a text do not show in its stripped
    view. *)
Lemma strip_invisible_prefix pre s :
  strip_ansi_codes pre = [] ->
  strip_ansi_codes (pre ++ s) = strip_ansi_codes s.
Proof.
  unfold strip_ansi_codes.
  induction pre as [|c t Hm IH|p f r Hm IH] using (scan_ind final_mK).
  - done.
  - by rewrite (scan_keep _ _ _ Hm).
  - rewrite (scan_match _ _ _ _ _ Hm). intros Hr.
    rewrite (scan_match _ _ _ _ _ (match_csi_app_some _ _ _ _ _ s Hm)).
    by apply IH.
Qed.

Lemma find_sub_char_app c a b :
  char_in c a = false -> find_sub [c] (a ++ c :: b) = Some (length a).
Proof.
  induction a as [|x a IH]; intros H.
  - cbn. by rewrite Ascii.eqb_refl.
  - unfold char_in in H. cbn [existsb] in H.
    apply orb_false_elim in H as [Hx Ha].
    cbn [app find_sub starts_with]. rewrite Hx. cbn [andb].
    rewrite (IH Ha). done.
Qed.

Lemma contains_char c s : contains [c] s = char_in c s.
Proof.
  unfold contains. induction s as [|x s IH]; [done|].
  cbn [find_sub starts_with]. unfold char_in. cbn [existsb].
  destruct (Ascii.eqb c x); [done|]. cbn [andb orb].
  fold (char_in c s). rewrite <- IH. by destruct (find_sub [c] s).
Qed.

Lemma char_in_rev c s : char_in c (rev s) = char_in c s.
Proof.
  induction s as [|x s IH]; [done|]. cbn [rev]. rewrite char_in_app, IH.
  unfold char_in. cbn [existsb]. rewrite orb_false_r. apply orb_comm.
Qed.

Lemma slice_bound_inside s i :
  0 <= i <= len s -> slice_bound s i = Z.to_nat i.
Proof.
  intros H. unfold slice_bound.
  destruct (i <? 0) eqn:E; [apply Z.ltb_lt in E; lia|].
  f_equal. lia.
Qed.

Lemma slice_from_1 c s : slice_from (c :: s) 1 = s.
Proof.
  unfold slice_from. rewrite slice_bound_inside; [done|].
  unfold len. cbn [length]. lia.
Qed.

(** X7: a name between quotes, with nothing but escape spans before the
    opening quote and no quote after the closing one, loses exactly that pair
    of quotes: what stood before, inside (quotes included) and after stays in
    place, and a type indicator right after the closing quote is kept or
    dropped as asked. *)
Theorem strip_quotes_python_unwrap pre name tail keep_indicator :
  strip_ansi_codes pre = [] ->
  char_in DQUOTE tail = false ->
  strip_quotes_python (pre ++ DQUOTE :: name ++ DQUOTE :: tail) keep_indicator
  = pre ++ name ++ after_quote keep_indicator tail.
Proof.
  intros Hpre Htail.
  assert (Hq : forall s, char_in DQUOTE (strip_ansi_codes s)
                         = char_in DQUOTE s)
    by (intros s; by apply strip_keeps_char).
  assert (Hpq : char_in DQUOTE pre = false)
    by (by rewrite <- Hq, Hpre).
  set (col := pre ++ DQUOTE :: name ++ DQUOTE :: tail).
  assert (Hlen : len col
                 = Z.of_nat (length pre) + 1 + Z.of_nat (length name) + 1
                   + Z.of_nat (length tail)).
  { unfold len, col. rewrite length_app. cbn [length].
    rewrite length_app. cbn [length]. lia. }
  assert (Hclean : strip_ansi_codes col
                   = DQUOTE :: strip_ansi_codes (name ++ DQUOTE :: tail)).
  { unfold col. rewrite strip_invisible_prefix by done.
    unfold strip_ansi_codes. by rewrite scan_keep by (by apply match_csi_head). }
  assert (Hfind : py_find DQUOTE col = Z.of_nat (length pre)).
  { unfold py_find, col. by rewrite find_sub_char_app. }
  assert (Hrfind : py_rfind DQUOTE col
                   = Z.of_nat (length pre) + 1 + Z.of_nat (length name)).
  { unfold py_rfind. rewrite Hlen.
    replace (rev col) with (rev tail ++ DQUOTE :: rev (pre ++ DQUOTE :: name)).
    - rewrite find_sub_char_app by (by rewrite char_in_rev).
      rewrite length_rev. lia.
    - unfold col. rewrite !rev_app_distr. cbn [rev].
      rewrite !rev_app_distr. cbn [rev]. rewrite <- !app_assoc.
      reflexivity. }
  set (e := Z.of_nat (length pre) + 1 + Z.of_nat (length name) + 1).
  set (front := pre ++ DQUOTE :: name ++ [DQUOTE]).
  assert (Hcol : col = front ++ tail).
  { unfold col, front. rewrite <- !app_assoc. cbn [app].
    by rewrite <- app_assoc. }
  assert (Hfront : length front = Z.to_nat e).
  { unfold front, e. rewrite length_app. cbn [length].
    rewrite length_app. cbn [length]. lia. }
  assert (Hto : slice_to col (Z.of_nat (length pre)) = pre).
  { unfold slice_to. rewrite slice_bound_inside by lia.
    rewrite Nat2Z.id. unfold col. by rewrite take_app_length. }
  assert (Hmid : slice col (Z.of_nat (length pre) + 1) (e - 1) = name).
  { unfold slice. rewrite !slice_bound_inside by (unfold e; lia).
    unfold col, e.
    replace (Z.to_nat (Z.of_nat (length pre) + 1))
      with (length (pre ++ [DQUOTE])) by (rewrite length_app; cbn; lia).
    replace (pre ++ DQUOTE :: name ++ DQUOTE :: tail)
      with ((pre ++ [DQUOTE]) ++ name ++ DQUOTE :: tail)
      by (by rewrite <- app_assoc).
    rewrite drop_app_length.
    rewrite take_app_length'; [done|]. rewrite length_app. cbn. lia. }
  assert (Hfrom : forall k, (k <= length tail)%nat ->
            slice_from col (e + Z.of_nat k) = drop k tail).
  { intros k Hk. unfold slice_from.
    rewrite slice_bound_inside by (unfold e in *; lia).
    rewrite Hcol.
    replace (Z.to_nat (e + Z.of_nat k)) with (length front + k)%nat by lia.
    by rewrite drop_app_add. }
  assert (Hlook : (col : str) !! Z.to_nat e = tail !! 0%nat).
  { change ((col : list ascii) !! Z.to_nat e = tail !! 0%nat).
    rewrite Hcol, <- Hfront. rewrite lookup_app_r by lia.
    by rewrite Nat.sub_diag. }
  unfold strip_quotes_python. fold col.
  replace (truthy col) with true by (unfold col; by destruct pre).
  cbn [negb]. rewrite Hclean.
  change (starts_with [DQUOTE] (DQUOTE :: ?x)) with true.
  rewrite slice_from_1, contains_char, Hq, char_in_app.
  replace (char_in DQUOTE (DQUOTE :: tail)) with true
    by (unfold char_in; cbn [existsb]; by rewrite Ascii.eqb_refl).
  rewrite orb_true_r. cbn [andb negb]. rewrite Hfind, Hrfind.
  fold e. rewrite Hto, Hmid.
  destruct tail as [|ind rest].
  - replace (e <? len col) with false
      by (symmetry; apply Z.ltb_ge; unfold e; cbn [length] in Hlen; lia).
    change (len []) with 0. rewrite Z.add_0_r.
    replace (e <? len col) with false
      by (symmetry; apply Z.ltb_ge; unfold e; cbn [length] in Hlen; lia).
    cbn [truthy andb]. rewrite andb_false_r. cbn [after_quote].
    by rewrite app_nil_r.
  - replace (e <? len col) with true
      by (symmetry; apply Z.ltb_lt; unfold e; cbn [length] in Hlen; lia).
    rewrite Hlook. cbn [lookup list_lookup after_quote].
    assert (Hind : Ascii.eqb DQUOTE ind = false).
    { unfold char_in in Htail. cbn [existsb] in Htail.
      by apply orb_false_elim in Htail as [? _]. }
    destruct (char_in ind (lit "*/@|=")) eqn:Hi.
    + change (len [ind]) with (Z.of_nat 1).
      rewrite (Hfrom 1%nat) by (cbn; lia).
      change (drop 1 (ind :: rest)) with rest. cbn [truthy].
      rewrite andb_true_r.
      destruct (e + Z.of_nat 1 <? len col) eqn:Hlt.
      * destruct rest as [|r rest'].
        { apply Z.ltb_lt in Hlt. unfold e in Hlt. cbn [length] in Hlen. lia. }
        assert (Hr : Ascii.eqb DQUOTE r = false).
        { unfold char_in in Htail. cbn [existsb] in Htail.
          apply orb_false_elim in Htail as [_ Htail].
          by apply orb_false_elim in Htail as [? _]. }
        cbn [truthy starts_with]. rewrite Hr. cbn [andb negb].
        destruct keep_indicator; cbn [andb];
          rewrite <- !app_assoc; reflexivity.
      * destruct rest as [|r rest'].
        2:{ apply Z.ltb_ge in Hlt. unfold e in Hlt. cbn [length] in Hlen.
            lia. }
        cbn [truthy andb].
        destruct keep_indicator; cbn [andb];
          rewrite <- ?app_assoc, ?app_nil_r; reflexivity.
    + change (len []) with 0. rewrite Z.add_0_r.
      replace (e <? len col) with true
        by (symmetry; apply Z.ltb_lt; unfold e; cbn [length] in Hlen; lia).
      assert (Hfrom0 : slice_from col e = ind :: rest).
      { replace e with (e + Z.of_nat 0) by lia. by rewrite (Hfrom 0%nat) by lia. }
      rewrite !Hfrom0. cbn [truthy starts_with].
      rewrite Hind. cbn [andb negb]. rewrite andb_false_r.
      by rewrite <- app_assoc.
Qed.

Lemma strip_quotes_python_unwrap_witness :
  strip_ansi_codes (csi (lit "01;34") "m") = [] /\
  char_in DQUOTE (csi (lit "0") "m" ++ lit "/") = false /\
  strip_quotes_python blue_dir true
  = csi (lit "01;34") "m" ++ lit "d" ++ csi (lit "0") "m" ++ lit "/".
Proof.
  split; [reflexivity|]. split; [reflexivity|].
  apply (strip_quotes_python_unwrap
           (csi (lit "01;34") "m") (lit "d") (csi (lit "0") "m" ++ lit "/")
           true eq_refl eq_refl).
Defined.

Lemma count_char_app c a b :
  count_char c (a ++ b) = (count_char c a + count_char c b)%nat.
Proof. unfold count_char. by rewrite List.filter_app, length_app. Qed.

Lemma count_char_absent c s : char_in c s = false -> count_char c s = 0%nat.
Proof.
  unfold count_char, char_in. induction s as [|x s IH]; [done|].
  cbn [existsb List.filter]. intros H.
  apply orb_false_elim in H as [-> H]. by apply IH.
Qed.

Lemma count_char_present c s :
  char_in c s = true -> (1 <= count_char c s)%nat.
Proof.
  unfold count_char, char_in. induction s as [|x s IH]; [done|].
  cbn [existsb List.filter].
  destruct (Ascii.eqb c x); cbn [orb length]; [lia | done].
Qed.

(** A character that no escape span can hold occurs as often in the
    stripped text as in the text. *)
Lemma strip_keeps_count c s :
  c <> ESC -> c <> "[" -> is_param c = false -> final_mK c = false ->
  count_char c (strip_ansi_codes s) = count_char c s.
Proof.
  intros He Hb Hp Hf. unfold strip_ansi_codes.
  induction s as [|x t Hm IH|p f r Hm IH] using (scan_ind final_mK).
  - done.
  - rewrite (scan_keep _ _ _ Hm).
    change (count_char c (x :: literals (scan final_mK t))
            = count_char c (x :: t)).
    unfold count_char in *. cbn [List.filter].
    destruct (Ascii.eqb c x); cbn [length]; by rewrite IH.
  - rewrite (scan_match _ _ _ _ _ Hm).
    change (literals (Csi p f :: ?x)) with (literals x). rewrite IH.
    rewrite count_char_app, (count_char_absent c (csi p f)); [done|].
    rewrite <- (strip_keeps_char c (csi p f)) by done.
    unfold strip_ansi_codes. rewrite <- (app_nil_r (csi p f)).
    apply match_csi_split in Hm as (_ & Hps & Hfin & Hnp).
    by rewrite (scan_match final_mK (csi p f ++ []) p f [])
      by (by apply match_csi_intro).
Qed.

(** X8: a value with fewer than two quote characters is returned as it
    is. *)
Theorem strip_quotes_python_unquoted col keep_indicator :
  (count_char DQUOTE col < 2)%nat ->
  strip_quotes_python col keep_indicator = col.
Proof.
  intros Hc. unfold strip_quotes_python.
  destruct (truthy col); [|done]. cbn [negb].
  rewrite <- (strip_keeps_count DQUOTE col) in Hc by done.
  destruct (strip_ansi_codes col) as [|c clean]; [done|].
  cbn [starts_with]. rewrite slice_from_1, contains_char.
  destruct (Ascii.eqb DQUOTE c) eqn:Hq; [|done].
  destruct (char_in DQUOTE clean) eqn:Hin; [|done].
  apply count_char_present in Hin.
  unfold count_char in Hc. cbn [List.filter] in Hc. rewrite Hq in Hc.
  cbn [length] in Hc. unfold count_char in Hin. lia.
Qed.

Lemma strip_quotes_python_unquoted_witness :
  (count_char DQUOTE (DQUOTE :: lit "half") < 2)%nat /\
  strip_quotes_python (DQUOTE :: lit "half") true = DQUOTE :: lit "half".
Proof.
  split; [vm_compute; lia|].
  apply strip_quotes_python_unquoted. vm_compute. lia.
Defined.

(** ** Line tokenizer, continued *)

Lemma span_word_split s w r :
  span_word s = (w, r) ->
  s = w ++ r /\ existsb is_space w = false /\
  match r with c :: _ => is_space c = true | [] => True end.
Proof.
  revert w r. induction s as [|c s IH]; intros w r H; cbn [span_word] in H.
  - by inversion H.
  - destruct (is_space c) eqn:Hc.
    + inversion H; subst. by rewrite Hc.
    + destruct (span_word s) as [w' r'] eqn:Hs. inversion H; subst.
      destruct (IH w' r eq_refl) as (-> & Hw & Hr).
      split; [done|]. split; [|done]. cbn [existsb]. by rewrite Hc, Hw.
Qed.

Lemma lstrip_split s :
  exists a, s = a ++ lstrip s /\ forallb is_space a = true /\
            match lstrip s with c :: _ => is_space c = false | [] => True end.
Proof.
  induction s as [|c s (a & Hs & Ha & Hh)]; [by exists []|].
  cbn [lstrip]. destruct (is_space c) eqn:Hc.
  - exists (c :: a). split; [by rewrite Hs at 1|].
    split; [|done]. cbn [forallb]. by rewrite Hc, Ha.
  - exists []. split; [done|]. split; [done|]. done.
Qed.

(** The pieces of [s.split(maxsplit=n)] before the last possible one are
    words: they hold no whitespace. *)
Lemma split_ws_words n : forall s i w,
  (i < n)%nat -> split_ws n s !! i = Some w -> existsb is_space w = false.
Proof.
  induction n as [|n IH]; intros s i w Hi Hw; [lia|].
  cbn [split_ws] in Hw. destruct (lstrip s) as [|c t] eqn:Hl; [done|].
  destruct (span_word (c :: t)) as [w' r] eqn:Hs.
  apply span_word_split in Hs as (_ & Hw' & _).
  destruct i as [|i]; cbn in Hw.
  - by inversion Hw; subst.
  - apply (IH r i w); [lia | done].
Qed.

(** Pieces of a text hold only characters of the text. *)
Lemma lstrip_absent c s : char_in c s = false -> char_in c (lstrip s) = false.
Proof.
  destruct (lstrip_split s) as (a & Hs & _). intros H. rewrite Hs in H.
  rewrite char_in_app in H. by apply orb_false_elim in H as [_ ?].
Qed.

Lemma py_strip_absent c s :
  char_in c s = false -> char_in c (py_strip s) = false.
Proof.
  intros H. unfold py_strip. rewrite char_in_rev. apply lstrip_absent.
  rewrite char_in_rev. by apply lstrip_absent.
Qed.

Lemma split_ws_absent c n : forall s,
  char_in c s = false ->
  Forall (fun w => char_in c w = false) (split_ws n s).
Proof.
  induction n as [|n IH]; intros s H; cbn [split_ws];
    pose proof (lstrip_absent c s H) as Hl;
    destruct (lstrip s) as [|x t]; try by repeat constructor.
  destruct (span_word (x :: t)) as [w r] eqn:Hs.
  apply span_word_split in Hs as (Hxt & _ & _). rewrite Hxt in Hl.
  rewrite char_in_app in Hl. apply orb_false_elim in Hl as [Hw Hr].
  constructor; [done | by apply IH].
Qed.

(** The nine units the tokenizer works on: the pieces of the split, with
    empty strings for the missing ones. *)
Lemma tokenizer_units line :
  let parts := split_ws 8 (py_strip line) in
  let units :=
    if (length parts <? 9)%nat
    then parts ++ replicate (9 - length parts) [] else parts in
  exists q0 q1 q2 q3 q4 q5 q6 q7 q8 more,
    units = q0 :: q1 :: q2 :: q3 :: q4 :: q5 :: q6 :: q7 :: q8 :: more /\
    Forall (fun w => existsb is_space w = false)
           [q0; q1; q2; q3; q4; q5; q6; q7] /\
    forall c, char_in c line = false -> char_in c q8 = false.
Proof.
  intros parts units.
  assert (Hlen : (9 <= length units)%nat).
  { subst units. destruct (length parts <? 9)%nat eqn:E.
    - apply Nat.ltb_lt in E. rewrite length_app, length_replicate. lia.
    - apply Nat.ltb_ge in E. lia. }
  assert (Hword : forall i w, (i < 8)%nat -> units !! i = Some w ->
                              existsb is_space w = false).
  { intros i w Hi Hw. subst units.
    assert (Hcase : parts !! i = Some w \/ w = []).
    { destruct (length parts <? 9)%nat; [|by left].
      apply lookup_app_Some in Hw as [Hw|[_ Hw]]; [by left|].
      right. by apply lookup_replicate in Hw as [-> _]. }
    destruct Hcase as [Hw'| ->]; [|done].
    by apply (split_ws_words 8 (py_strip line) i w). }
  assert (Habs : forall c w, char_in c line = false -> w ∈ units ->
                             char_in c w = false).
  { intros c w Hc Hin.
    pose proof (split_ws_absent c 8 (py_strip line)
                  (py_strip_absent c line Hc)) as Hall.
    fold parts in Hall. rewrite Forall_forall in Hall. subst units.
    destruct (length parts <? 9)%nat; [|by apply Hall].
    apply elem_of_app in Hin as [Hin|Hin]; [by apply Hall|].
    by apply elem_of_replicate in Hin as [-> _]. }
  destruct units as [|q0 [|q1 [|q2 [|q3 [|q4 [|q5 [|q6 [|q7 [|q8 more]]]]]]]]];
    cbn [length] in Hlen; try lia.
  exists q0, q1, q2, q3, q4, q5, q6, q7, q8, more. split; [done|]. split.
  - repeat constructor;
      [apply (Hword 0%nat)|apply (Hword 1%nat)|apply (Hword 2%nat)
      |apply (Hword 3%nat)|apply (Hword 4%nat)|apply (Hword 5%nat)
      |apply (Hword 6%nat)|apply (Hword 7%nat)]; (lia || done).
  - intros c Hc. apply (Habs c q8 Hc).
    do 8 apply list_elem_of_further. apply list_elem_of_here.
Qed.

(** X9: whatever the tokenizer returns is eleven fields of which the first
    eight hold no whitespace, and the arrow field is [->], or a single space
    beside a single-space target. *)
Theorem split_line_into_columns_fields line columns :
  split_line_into_columns line = ok columns ->
  exists p0 p1 p2 p3 p4 p5 p6 p7 filename arrow target,
    columns = [p0; p1; p2; p3; p4; p5; p6; p7; filename; arrow; target] /\
    Forall (fun w => existsb is_space w = false)
           [p0; p1; p2; p3; p4; p5; p6; p7] /\
    (arrow = lit "->" \/ (arrow = lit " " /\ target = lit " ")).
Proof.
  unfold split_line_into_columns.
  destruct (tokenizer_units line)
    as (q0&q1&q2&q3&q4&q5&q6&q7&q8&more&Hu&Hw&_).
  cbv zeta in Hu. rewrite Hu. unfold index. cbn [lookup list_lookup bind ok].
  destruct (contains _ (strip_ansi_codes q8)).
  - destruct (split_once _ q8) as [|a [|b [|? ?]]]; cbn [bind]; try done.
    intros [= <-]. exists q0, q1, q2, q3, q4, q5, q6, q7, a, (lit "->"), b.
    split; [done|]. split; [done|]. by left.
  - cbn [bind ok]. intros [= <-].
    exists q0, q1, q2, q3, q4, q5, q6, q7, q8, (lit " "), (lit " ").
    split; [done|]. split; [done|]. by right.
Qed.

Lemma split_line_into_columns_fields_witness :
  exists p0 p1 p2 p3 p4 p5 p6 p7 filename arrow target,
    split_line_into_columns symlink_line
    = ok [p0; p1; p2; p3; p4; p5; p6; p7; filename; arrow; target] /\
    Forall (fun w => existsb is_space w = false)
           [p0; p1; p2; p3; p4; p5; p6; p7] /\
    (arrow = lit "->" \/ (arrow = lit " " /\ target = lit " ")).
Proof.
  destruct (split_line_into_columns_fields symlink_line _ eq_refl)
    as (p0&p1&p2&p3&p4&p5&p6&p7&f&a&t&H&Hw&Ha).
  exists p0, p1, p2, p3, p4, p5, p6, p7, f, a, t.
  split; [by rewrite <- H|]. by split.
Defined.

(** X10: on a line without ESC the tokenizer returns. *)
Theorem split_line_into_columns_plain line :
  char_in ESC line = false ->
  exists columns,
    split_line_into_columns line = ok columns /\ length columns = 11%nat.
Proof.
  intros He. unfold split_line_into_columns.
  destruct (tokenizer_units line)
    as (q0&q1&q2&q3&q4&q5&q6&q7&q8&more&Hu&_&Habs).
  cbv zeta in Hu. rewrite Hu. unfold index. cbn [lookup list_lookup bind ok].
  rewrite (strip_no_esc q8) by (by apply Habs).
  unfold contains, split_once.
  destruct (find_sub (lit " -> ") q8); cbn [bind ok]; by eexists.
Qed.

Lemma split_line_into_columns_plain_witness :
  char_in ESC heading_line = false /\
  exists columns,
    split_line_into_columns heading_line = ok columns /\
    length columns = 11%nat.
Proof.
  split; [reflexivity|].
  apply split_line_into_columns_plain. reflexivity.
Defined.

Section ScanNeutral.
Variable final : ascii -> bool.
Variable c : ascii.
Hypothesis c_not_bracket : c <> "[".
Hypothesis c_not_param : is_param c = false.
Hypothesis c_not_final : final c = false.

Lemma match_csi_app_neutral x t rest :
  match_csi final (x :: t) = None ->
  match_csi final ((x :: t) ++ c :: rest) = None.
Proof.
  unfold match_csi. destruct t as [|b t]; cbn [app].
  - intros _. pose proof c_not_bracket as Hb. apply Ascii.eqb_neq in Hb.
    rewrite Hb. by rewrite andb_false_r.
  - destruct (Ascii.eqb x ESC && Ascii.eqb b "["); [|done].
    destruct (span_params t) as [p r] eqn:Ht.
    apply span_params_split in Ht as (-> & Hp & Hr).
    rewrite <- app_assoc. destruct r as [|f r]; cbn [app].
    + intros _. rewrite span_params_run by done. by rewrite c_not_final.
    + rewrite span_params_run by done. by destruct (final f).
Qed.

(** A match never runs over a character that is no bracket, parameter or
    final character: the scan of a text cut before one is the scan of its
    two parts. *)
Lemma scan_app_neutral pre rest :
  scan final (pre ++ c :: rest) = scan final pre ++ scan final (c :: rest).
Proof.
  induction pre as [|x t Hm IH|p f r Hm IH] using (scan_ind final); [done|..].
  - rewrite (scan_keep _ _ _ Hm).
    change ((x :: t) ++ c :: rest) with (x :: (t ++ c :: rest)).
    rewrite scan_keep; [by rewrite IH|]. by apply match_csi_app_neutral.
  - rewrite (scan_match _ _ _ _ _ Hm).
    rewrite (scan_match _ _ _ _ _ (match_csi_app_some _ _ _ _ _ _ Hm)).
    by rewrite IH.
Qed.
End ScanNeutral.

(** Stripping goes through a run of plain characters that starts with one
    no escape span can hold. *)
Lemma strip_around_plain a c mid b :
  c <> "[" -> is_param c = false -> final_mK c = false ->
  char_in ESC (c :: mid) = false ->
  strip_ansi_codes (a ++ (c :: mid) ++ b)
  = strip_ansi_codes a ++ (c :: mid) ++ strip_ansi_codes b.
Proof.
  intros Hb Hp Hf He. unfold strip_ansi_codes.
  change (a ++ (c :: mid) ++ b) with (a ++ c :: (mid ++ b)).
  rewrite (scan_app_neutral final_mK c Hb Hp Hf), literals_app. f_equal.
  change (c :: mid ++ b) with ((c :: mid) ++ b).
  by rewrite scan_plain_prefix, literals_app, literals_Lit.
Qed.

Lemma starts_with_app pat s : starts_with pat (pat ++ s) = true.
Proof.
  induction pat as [|p pat IH]; [done|]. cbn [app starts_with].
  by rewrite Ascii.eqb_refl, IH.
Qed.

Lemma find_sub_here pat s :
  starts_with pat s = true -> find_sub pat s = Some 0%nat.
Proof. intros H. destruct s; cbn [find_sub]; by rewrite H. Qed.

Lemma contains_app pat a b : contains pat (a ++ pat ++ b) = true.
Proof.
  unfold contains. induction a as [|x a IH].
  - cbn [app]. by rewrite find_sub_here by apply starts_with_app.
  - cbn [app find_sub]. destruct (starts_with pat (x :: a ++ pat ++ b)); [done|].
    by destruct (find_sub pat (a ++ pat ++ b)).
Qed.

Lemma find_sub_split pat s i :
  find_sub pat s = Some i ->
  s = take i s ++ pat ++ drop (i + length pat) s.
Proof.
  revert i. induction s as [|x s IH]; intros i; cbn [find_sub].
  - destruct (starts_with pat []) eqn:Hs; [|done]. intros [= <-].
    destruct pat; [done|]. done.
  - destruct (starts_with pat (x :: s)) eqn:Hs.
    + intros [= <-]. cbn [take Nat.add]. clear IH. revert Hs.
      generalize (x :: s). clear x s.
      induction pat as [|p pat IH]; intros s Hs; [done|].
      destruct s as [|y s]; [done|]. cbn [starts_with] in Hs.
      apply andb_prop in Hs as [Hp Hs]. apply Ascii.eqb_eq in Hp. subst y.
      cbn [app length drop]. f_equal. by apply IH.
    + destruct (find_sub pat s) as [j|] eqn:Hj; [|done].
      cbn [fmap option_fmap option_map]. intros [= <-].
      cbn [take Nat.add drop app]. f_equal. by apply IH.
Qed.

(** An arrow of the raw text shows in the stripped view. *)
Lemma arrow_shows_stripped unit :
  contains (lit " -> ") unit = true ->
  contains (lit " -> ") (strip_ansi_codes unit) = true.
Proof.
  unfold contains at 1.
  destruct (find_sub (lit " -> ") unit) as [i|] eqn:Hf; [|done]. intros _.
  rewrite (find_sub_split _ _ _ Hf).
  change (lit " -> ") with (" " :: lit "-> ").
  rewrite strip_around_plain by done.
  apply (contains_app (" " :: lit "-> ")).
Qed.

Lemma lstrip_gap g s : forallb is_space g = true -> lstrip (g ++ s) = lstrip s.
Proof.
  induction g as [|c g IH]; [done|]. cbn [forallb app lstrip].
  intros H. apply andb_prop in H as [-> H]. by apply IH.
Qed.

Lemma lstrip_head c s : is_space c = false -> lstrip (c :: s) = c :: s.
Proof. intros H. cbn [lstrip]. by rewrite H. Qed.

Lemma span_word_app w r :
  existsb is_space w = false ->
  match r with c :: _ => is_space c = true | [] => True end ->
  span_word (w ++ r) = (w, r).
Proof.
  intros Hw Hr. induction w as [|c w IH]; cbn [app span_word].
  - destruct r as [|c r]; [done|]. cbn [span_word]. by rewrite Hr.
  - cbn [existsb] in Hw. apply orb_false_elim in Hw as [Hc Hw].
    by rewrite Hc, IH.
Qed.

Lemma py_strip_trimmed s : trimmed s = true -> py_strip s = s.
Proof.
  unfold trimmed, py_strip. intros H. apply andb_prop in H as [Hh Hl].
  destruct s as [|c s]; [done|]. apply negb_true_iff in Hh.
  rewrite (lstrip_head c s Hh).
  destruct (rev (c :: s)) as [|d r] eqn:Hr; [done|].
  apply negb_true_iff in Hl. rewrite (lstrip_head d r Hl), <- Hr.
  apply rev_involutive.
Qed.

Lemma is_word_inv w :
  is_word w = true ->
  existsb is_space w = false /\
  exists c t, w = c :: t /\ is_space c = false.
Proof.
  unfold is_word. intros H. apply andb_prop in H as [Ht Hs].
  apply negb_true_iff in Hs. split; [done|].
  destruct w as [|c t]; [done|]. exists c, t. split; [done|].
  cbn [existsb] in Hs. by apply orb_false_elim in Hs as [? _].
Qed.

Lemma is_gap_inv g :
  is_gap g = true ->
  forallb is_space g = true /\
  exists c t, g = c :: t /\ is_space c = true.
Proof.
  unfold is_gap. intros H. apply andb_prop in H as [Ht Hs].
  split; [done|]. destruct g as [|c t]; [done|]. exists c, t.
  split; [done|]. cbn [forallb] in Hs. by apply andb_prop in Hs as [? _].
Qed.

(** Split at most as often as there are words before it, a listing line
    gives its words and the filename unit whole. *)
Lemma split_ws_listing_line unit :
  match unit with c :: _ => is_space c = false | [] => False end ->
  forall fields,
    forallb (fun f => is_word f.1 && is_gap f.2) fields = true ->
    split_ws (length fields) (listing_line fields unit)
    = map fst fields ++ [unit]
    /\ lstrip (listing_line fields unit) = listing_line fields unit.
Proof.
  intros Hu. induction fields as [|[w g] fields IH]; intros Hf.
  - unfold listing_line. cbn [map concat app length split_ws].
    destruct unit as [|c unit]; [done|]. by rewrite (lstrip_head c unit Hu).
  - cbn [forallb fst snd] in Hf. apply andb_prop in Hf as [Hwg Hf].
    apply andb_prop in Hwg as [Hw Hg].
    assert (Hline : listing_line ((w, g) :: fields) unit
                    = w ++ g ++ listing_line fields unit).
    { unfold listing_line. cbn [map concat fst snd].
      by rewrite <- !app_assoc. }
    rewrite Hline.
    destruct (is_word_inv w Hw) as (Hws & c & t & -> & Hc).
    destruct (is_gap_inv g Hg) as (Hgs & d & u & -> & Hd).
    destruct (IH Hf) as [IHs IHl].
    split; [|by apply lstrip_head].
    cbn [length split_ws].
    change ((c :: t) ++ (d :: u) ++ listing_line fields unit)
      with (c :: (t ++ (d :: u) ++ listing_line fields unit)).
    rewrite lstrip_head by done.
    change (c :: (t ++ (d :: u) ++ listing_line fields unit))
      with ((c :: t) ++ (d :: u) ++ listing_line fields unit).
    rewrite span_word_app by done.
    cbn [map fst app]. f_equal.
    assert (Hrest : forall n, split_ws n ((d :: u) ++ listing_line fields unit)
                              = split_ws n (listing_line fields unit)).
    { intros n. destruct n; cbn [split_ws]; by rewrite lstrip_gap. }
    by rewrite Hrest.
Qed.

Lemma trimmed_listing_line fields unit :
  fields <> [] ->
  forallb (fun f => is_word f.1 && is_gap f.2) fields = true ->
  trimmed unit = true ->
  trimmed (listing_line fields unit) = true.
Proof.
  intros Hne Hf Hu. unfold trimmed in *. apply andb_prop in Hu as [Hh Hl].
  apply andb_true_intro. split.
  - destruct fields as [|[w g] fields]; [done|].
    cbn [forallb fst snd] in Hf. apply andb_prop in Hf as [Hwg _].
    apply andb_prop in Hwg as [Hw _].
    destruct (is_word_inv w Hw) as (_ & c & t & -> & Hc).
    unfold listing_line. cbn [map concat fst snd app]. by rewrite Hc.
  - unfold listing_line. rewrite rev_app_distr.
    destruct (rev unit) as [|c r]; [done|]. done.
Qed.

(** On a listing line the tokenizer sees the eight words and the filename
    unit; what is left to it is the search for the arrow. *)
Lemma split_line_into_columns_listing_line fields unit :
  length fields = 8%nat ->
  forallb (fun f => is_word f.1 && is_gap f.2) fields = true ->
  trimmed unit = true ->
  split_line_into_columns (listing_line fields unit)
  = (fat <-
       (if contains (lit " -> ") (strip_ansi_codes unit) then
          match split_once (lit " -> ") unit with
          | [filename; rest] => ok (filename, lit "->", rest)
          | _ => raise ValueError
          end
        else ok (unit, lit " ", lit " ")) ;;
     let '(filename, arrow, target) := fat in
     ok (map fst fields ++ [filename; arrow; target])).
Proof.
  intros Hlen Hf Hu. unfold split_line_into_columns.
  rewrite py_strip_trimmed
    by (apply trimmed_listing_line; [by destruct fields|done..]).
  assert (Hhead : match unit with c :: _ => is_space c = false
                             | [] => False end).
  { unfold trimmed in Hu. apply andb_prop in Hu as [Hh _].
    destruct unit; [done|]. by apply negb_true_iff. }
  destruct (split_ws_listing_line unit Hhead fields Hf) as [Hs _].
  rewrite Hlen in Hs. rewrite Hs.
  do 8 (destruct fields as [|[? ?] fields]; [done|]).
  destruct fields; [|done]. reflexivity.
Qed.

(** X11: a line made of eight words, each followed by whitespace, and a
    filename unit that shows no arrow tokenizes into the eight words, the
    unit whole (inner whitespace included), and single spaces for arrow and
    target. *)
Theorem split_line_into_columns_row fields unit :
  length fields = 8%nat ->
  forallb (fun f => is_word f.1 && is_gap f.2) fields = true ->
  trimmed unit = true ->
  contains (lit " -> ") (strip_ansi_codes unit) = false ->
  split_line_into_columns (listing_line fields unit)
  = ok (map fst fields ++ [unit; lit " "; lit " "]).
Proof.
  intros Hlen Hf Hu Hc.
  rewrite split_line_into_columns_listing_line by done. by rewrite Hc.
Qed.

(** X12: when the filename unit is a name, the arrow and a target, and
    that arrow is the first of the unit, the line tokenizes into the eight
    words, the name, [->] and the target, whatever escape spans and
    whitespace name and target hold. *)
Theorem split_line_into_columns_symlink_row fields name target :
  length fields = 8%nat ->
  forallb (fun f => is_word f.1 && is_gap f.2) fields = true ->
  trimmed (name ++ lit " -> " ++ target) = true ->
  find_sub (lit " -> ") (name ++ lit " -> " ++ target)
  = Some (length name) ->
  split_line_into_columns (listing_line fields (name ++ lit " -> " ++ target))
  = ok (map fst fields ++ [name; lit "->"; target]).
Proof.
  intros Hlen Hf Hu Hfind.
  rewrite split_line_into_columns_listing_line by done.
  rewrite arrow_shows_stripped by apply contains_app.
  unfold split_once. rewrite Hfind. cbn [bind ok].
  rewrite take_app_length.
  change (name ++ lit " -> " ++ target)
    with (name ++ (lit " -> ") ++ target).
  rewrite app_assoc, drop_app_length'; [done|].
  by rewrite length_app.
Qed.

Lemma split_line_into_columns_row_witness :
  trimmed (quoted (lit "my notes.txt")) = true /\
  split_line_into_columns
    (listing_line sample_fields (quoted (lit "my notes.txt")))
  = ok (map fst sample_fields
          ++ [quoted (lit "my notes.txt"); lit " "; lit " "]).
Proof.
  split; [reflexivity|].
  apply (split_line_into_columns_row sample_fields
           (quoted (lit "my notes.txt")) eq_refl eq_refl eq_refl eq_refl).
Defined.

Lemma split_line_into_columns_symlink_row_witness :
  find_sub (lit " -> ") (blue_dir ++ lit " -> " ++ quoted (lit "a b"))
  = Some (length blue_dir) /\
  split_line_into_columns
    (listing_line sample_fields
       (blue_dir ++ lit " -> " ++ quoted (lit "a b")))
  = ok (map fst sample_fields ++ [blue_dir; lit "->"; quoted (lit "a b")]).
Proof.
  split; [reflexivity|].
  apply (split_line_into_columns_symlink_row sample_fields
           blue_dir (quoted (lit "a b")) eq_refl eq_refl eq_refl eq_refl).
Defined.

(** ** Width calculator, continued *)

Lemma split_line_into_columns_arrow_field line columns :
  split_line_into_columns line = ok columns ->
  columns !! 9%nat = Some (lit "->") \/ columns !! 9%nat = Some (lit " ").
Proof.
  unfold split_line_into_columns.
  destruct (tokenizer_units line)
    as (q0&q1&q2&q3&q4&q5&q6&q7&q8&more&Hu&_&_).
  cbv zeta in Hu. rewrite Hu. unfold index. cbn [lookup list_lookup bind ok].
  destruct (contains _ (strip_ansi_codes q8)).
  - destruct (split_once _ q8) as [|a [|b [|? ?]]]; cbn [bind]; try done.
    intros [= <-]. by left.
  - cbn [bind ok]. intros [= <-]. by right.
Qed.

Lemma nth_zip_with_max (w m : list Z) i :
  (i < length w)%nat -> (i < length m)%nat ->
  nth i (zip_with Z.max w m) 0 = Z.max (nth i w 0) (nth i m 0).
Proof.
  revert m i. induction w as [|a w IH]; intros [|b m] [|i] Hw Hm;
    cbn [length] in *; try lia; [done|].
  cbn [zip_with nth]. apply IH; lia.
Qed.

Lemma measured_arrow sq line columns :
  split_line_into_columns line = ok columns ->
  1 <= nth 9 (measured sq columns) 0 <= 2.
Proof.
  intros Hs. pose proof (split_line_into_columns_arrow_field _ _ Hs) as Ha.
  apply split_line_into_columns_shape in Hs
    as (p0&p1&p2&p3&p4&p5&p6&p7&f&a&t&->).
  cbn in Ha. destruct Ha as [[= ->]|[= ->]]; vm_compute; split; discriminate.
Qed.

Lemma visible_len_nonneg s : 0 <= visible_len s.
Proof. unfold visible_len, len. lia. Qed.

Lemma table_invariant_grow sq st line columns :
  split_line_into_columns line = ok columns ->
  table_invariant st -> table_invariant (grow st (measured sq columns)).
Proof.
  intros Hs (Hl & Ha & Ht & H9 & Hpos).
  pose proof (measured_length sq _ _ Hs) as Hm.
  pose proof (measured_arrow sq _ _ Hs) as Hm9.
  unfold table_invariant, grow. cbn [fst snd ew_arrow ew_target].
  split; [rewrite length_zip_with; lia|].
  split; [lia|].
  split; [rewrite nth_zip_with_max by lia; lia|].
  split; [rewrite nth_zip_with_max by lia; lia|].
  clear -Hpos. revert Hpos. generalize (measured sq columns).
  induction st.1 as [|a w IH]; intros [|b m] Hpos; cbn [zip_with];
    try constructor.
  - inversion Hpos; subst. lia.
  - inversion Hpos; subst. by apply IH.
Qed.

Lemma measure_lines_invariant sq lines : forall st st',
  table_invariant st ->
  for_each (measure_line sq) lines st = ok st' -> table_invariant st'.
Proof.
  induction lines as [|x lines IH]; intros [w e] st' Hinv H.
  - by inversion H; subst.
  - cbn [for_each] in H.
    destruct (split_line_into_columns x) as [ex|cols] eqn:Hs.
    + by rewrite (measure_line_raises _ _ _ _ Hs) in H.
    + destruct Hinv as (Hl & Hrest).
      rewrite (measure_line_ok _ _ _ _ _ Hs Hl) in H. cbn [bind ok] in H.
      eapply IH; [|exact H]. by apply (table_invariant_grow sq _ x cols).
Qed.

(** X13: in every table the arrow width is its floor, 4; the target width
    is the width of field 10; the width of field 9 is at most 2; no width is
    negative and there are eleven of them. *)
Theorem calculate_column_widths_invariant lines sq widths ew :
  calculate_column_widths lines sq = ok (widths, ew) ->
  length widths = 11%nat /\ ew_arrow ew = 4 /\
  ew_target ew = nth 10 widths 0 /\ nth 9 widths 0 <= 2 /\
  Forall (Z.le 0) widths.
Proof.
  intros H.
  apply (measure_lines_invariant sq lines
           (replicate 11 0, ExtraWidths 4 0) (widths, ew)); [|done].
  unfold table_invariant. cbn.
  repeat split; try done; try lia. repeat constructor; lia.
Qed.

Lemma calculate_column_widths_invariant_witness :
  exists widths ew,
    calculate_column_widths [symlink_line; dir_line] true = ok (widths, ew)
    /\ ew_arrow ew = 4 /\ ew_target ew = nth 10 widths 0.
Proof.
  exists [10; 1; 5; 5; 4; 3; 1; 5; 4; 2; 6], (ExtraWidths 4 6).
  split; [reflexivity|].
  destruct (calculate_column_widths_invariant [symlink_line; dir_line] true
              [10; 1; 5; 5; 4; 3; 1; 5; 4; 2; 6] (ExtraWidths 4 6) eq_refl)
    as (_ & Ha & Ht & _).
  by split.
Defined.

Lemma zip_with_max_ge (w m : list Z) :
  length w = length m -> Forall2 Z.le m (zip_with Z.max w m).
Proof.
  revert m. induction w as [|a w IH]; intros [|b m] Hl; try done.
  cbn [zip_with]. constructor; [lia|]. apply IH. by inversion Hl.
Qed.

Lemma Forall2_le_trans (a b c : list Z) :
  Forall2 Z.le a b -> Forall2 Z.le b c -> Forall2 Z.le a c.
Proof.
  intros Hab. revert c. induction Hab as [|x y a b Hxy Hab IH]; intros c Hbc.
  - by inversion Hbc.
  - inversion Hbc; subst. constructor; [lia | by apply IH].
Qed.

(** The loop leaves no width smaller than it found it, and none smaller
    than what any of its lines measures. *)
Lemma measure_lines_cover sq lines : forall st st',
  length st.1 = 11%nat ->
  for_each (measure_line sq) lines st = ok st' ->
  Forall2 Z.le st.1 st'.1 /\
  forall line columns,
    line ∈ lines -> split_line_into_columns line = ok columns ->
    Forall2 Z.le (measured sq columns) st'.1.
Proof.
  induction lines as [|x lines IH]; intros [w e] st' Hw H.
  - inversion H; subst. split; [|intros ? ? Hin; by inversion Hin].
    clear. cbn. induction w; constructor; [lia|done].
  - cbn [for_each] in H.
    destruct (split_line_into_columns x) as [ex|cols] eqn:Hs.
    { by rewrite (measure_line_raises _ _ _ _ Hs) in H. }
    rewrite (measure_line_ok _ _ _ _ _ Hs Hw) in H. cbn [bind ok] in H.
    pose proof (measured_length sq _ _ Hs) as Hm.
    destruct (IH _ _ (grow_length (w, e) _ Hw Hm) H) as [Hle Hall].
    cbn [fst] in Hw. split.
    + eapply Forall2_le_trans; [|exact Hle]. cbn [grow fst].
      apply zip_with_max_le. lia.
    + intros line columns Hin Hl.
      apply elem_of_cons in Hin as [->|Hin]; [|by eapply Hall].
      rewrite Hs in Hl. inversion Hl; subst.
      eapply Forall2_le_trans; [|exact Hle]. cbn [grow fst].
      apply zip_with_max_ge. lia.
Qed.

(** X14: every line of the batch fits the table: none of its eleven
    measured lengths is above the width of its column. *)
Theorem calculate_column_widths_covers lines sq widths ew line columns :
  calculate_column_widths lines sq = ok (widths, ew) ->
  line ∈ lines ->
  split_line_into_columns line = ok columns ->
  Forall2 Z.le (measured sq columns) widths.
Proof.
  intros H Hin Hs.
  destruct (measure_lines_cover sq lines
              (replicate 11 0, ExtraWidths 4 0) (widths, ew) eq_refl H)
    as [_ Hall].
  by apply (Hall line columns).
Qed.

Lemma calculate_column_widths_covers_witness :
  calculate_column_widths [dir_line; file_line] true
  = ok ([10; 1; 5; 5; 4; 3; 1; 5; 15; 1; 1], ExtraWidths 4 1) /\
  dir_line ∈ [dir_line; file_line] /\
  Forall2 Z.le [10; 1; 5; 5; 4; 3; 1; 5; 2; 1; 1]
               [10; 1; 5; 5; 4; 3; 1; 5; 15; 1; 1].
Proof.
  split; [reflexivity|]. split; [apply list_elem_of_here|].
  apply (calculate_column_widths_covers [dir_line; file_line] true
           [10; 1; 5; 5; 4; 3; 1; 5; 15; 1; 1] (ExtraWidths 4 1) dir_line
           (lit "drwxr-xr-x" :: lit "2" :: lit "alice" :: lit "staff"
            :: lit "4.0K" :: lit "Mar" :: lit "3" :: lit "10:00"
            :: blue_dir :: lit " " :: lit " " :: [])
           eq_refl (list_elem_of_here _ _) eq_refl).
Defined.

Lemma measure_lines_attained sq lines : forall st st',
  length st.1 = 11%nat ->
  for_each (measure_line sq) lines st = ok st' ->
  forall i, (i < 11)%nat ->
    nth i st'.1 0 = nth i st.1 0 \/
    exists line columns,
      line ∈ lines /\ split_line_into_columns line = ok columns /\
      nth i st'.1 0 = nth i (measured sq columns) 0.
Proof.
  induction lines as [|x lines IH]; intros [w e] st' Hw H i Hi.
  - inversion H; subst. by left.
  - cbn [for_each] in H.
    destruct (split_line_into_columns x) as [ex|cols] eqn:Hs.
    { by rewrite (measure_line_raises _ _ _ _ Hs) in H. }
    rewrite (measure_line_ok _ _ _ _ _ Hs Hw) in H. cbn [bind ok] in H.
    pose proof (measured_length sq _ _ Hs) as Hm.
    destruct (IH _ _ (grow_length (w, e) _ Hw Hm) H i Hi)
      as [Heq|(line & columns & Hin & Hl & Heq)].
    + cbn [fst] in Hw. cbn [grow fst] in Heq.
      rewrite nth_zip_with_max in Heq by lia.
      destruct (Z.max_spec (nth i w 0) (nth i (measured sq cols) 0))
        as [[_ Hmax]|[_ Hmax]]; rewrite Hmax in Heq.
      * right. exists x, cols. split; [apply list_elem_of_here|]. by split.
      * by left.
    + right. exists line, columns.
      split; [by apply list_elem_of_further|]. by split.
Qed.

(** X15: every width of the table is reached: it is 0, or the length some
    line of the batch measures in that column. *)
Theorem calculate_column_widths_attained lines sq widths ew i :
  calculate_column_widths lines sq = ok (widths, ew) ->
  (i < 11)%nat ->
  nth i widths 0 = 0 \/
  exists line columns,
    line ∈ lines /\ split_line_into_columns line = ok columns /\
    nth i widths 0 = nth i (measured sq columns) 0.
Proof.
  intros H Hi.
  destruct (measure_lines_attained sq lines
              (replicate 11 0, ExtraWidths 4 0) (widths, ew) eq_refl H i Hi)
    as [Heq|Hex]; [left|by right].
  cbn [fst] in Heq. rewrite Heq.
  do 11 (destruct i as [|i]; [done|]). lia.
Qed.

Lemma calculate_column_widths_attained_witness :
  nth 8 [10; 1; 5; 5; 4; 3; 1; 5; 15; 1; 1] 0 = 0 \/
  exists line columns,
    line ∈ [dir_line; file_line] /\
    split_line_into_columns line = ok columns /\
    nth 8 [10; 1; 5; 5; 4; 3; 1; 5; 15; 1; 1] 0
    = nth 8 (measured true columns) 0.
Proof.
  apply (calculate_column_widths_attained [dir_line; file_line] true
           [10; 1; 5; 5; 4; 3; 1; 5; 15; 1; 1] (ExtraWidths 4 1) 8
           eq_refl).
  lia.
Defined.

(** ** Table renderer, continued *)

Lemma visible_len_app_esc a rest :
  visible_len (a ++ ESC :: rest) = visible_len a + visible_len (ESC :: rest).
Proof.
  unfold visible_len, len, strip_ansi_codes.
  rewrite scan_app_esc by done. rewrite literals_app, length_app. lia.
Qed.

Lemma char_in_replicate c x k :
  c <> x -> char_in c (replicate k x) = false.
Proof.
  intros Hc. apply Ascii.eqb_neq in Hc.
  induction k as [|k IH]; [done|]. unfold char_in in *.
  cbn [replicate existsb]. by rewrite Hc, IH.
Qed.

Lemma visible_len_spaces_after a n :
  visible_len (a ++ spaces n) = visible_len a + Z.max 0 n.
Proof.
  rewrite <- len_spaces. unfold spaces.
  destruct (Z.to_nat n) as [|k]; cbn [replicate].
  - rewrite app_nil_r. unfold len. cbn [length]. lia.
  - unfold visible_len.
    rewrite <- (app_nil_r (" " :: replicate k " ")) at 1.
    rewrite strip_around_plain; try done.
    + change (strip_ansi_codes []) with (@nil ascii).
      rewrite app_nil_r. unfold len. rewrite length_app. lia.
    + by apply (char_in_replicate ESC " " (S k)).
Qed.

Lemma strip_color_code col : strip_ansi_codes (get_color_code col) = [].
Proof.
  unfold get_color_code. cbv zeta.
  destruct (last_non_reset_cases (groups (scan final_m col)))
    as [->|(code & Hin & Hne & ->)]; [reflexivity|].
  assert (Hp : forallb is_param code = true).
  { pose proof (groups_scan_params final_m col) as Hall.
    rewrite Forall_forall in Hall. by apply Hall. }
  unfold strip_ansi_codes. rewrite <- (app_nil_r (csi code "m")).
  rewrite (scan_match final_mK (csi code "m" ++ []) code "m" []);
    [reflexivity|].
  by apply match_csi_intro.
Qed.

(** The reverse-video run shows as its spaces. *)
Lemma visible_len_reverse_padding_after a col n :
  visible_len (a ++ reverse_padding (get_color_code col) n)
  = visible_len a + Z.max 0 n.
Proof.
  assert (Hrun : strip_ansi_codes (reverse_padding (get_color_code col) n)
                 = spaces n).
  { unfold reverse_padding.
    rewrite strip_invisible_prefix by apply strip_color_code.
    rewrite (strip_invisible_prefix (csi (lit "7") "m")) by reflexivity.
    unfold strip_ansi_codes.
    rewrite scan_plain_prefix by (by apply char_in_spaces).
    by rewrite literals_app, literals_Lit, app_nil_r. }
  rewrite <- len_spaces, <- Hrun.
  destruct (get_color_code col) as [|x color] eqn:Hc.
  - unfold reverse_padding. cbn [app]. unfold csi at 1 3.
    cbn [app]. apply visible_len_app_esc.
  - assert (Hx : x = ESC).
    { destruct (last_non_reset_cases (groups (scan final_m col)))
        as [Hn|(code & _ & _ & Hcode)]; unfold get_color_code in Hc;
        cbv zeta in Hc; rewrite Hc in *; [done|].
      by inversion Hcode. }
    subst x. unfold reverse_padding. cbn [app]. apply visible_len_app_esc.
Qed.

Lemma visible_len_padded_column widths ew max_pad output_cols i c col :
  Ascii.eqb c "0" = false ->
  visible_len (padded_column widths ew max_pad output_cols i c col)
  = Z.max (visible_len col) (column_width widths ew c).
Proof.
  intros H0. unfold padded_column. rewrite H0.
  destruct (fires _ _ _ _ _ _ _).
  - rewrite visible_len_reverse_padding_after. lia.
  - rewrite visible_len_spaces_after. lia.
Qed.

(** One round of the padding loop, for a column of a valid selection. *)
Lemma pad_column_padded widths ew max_pad sel output_cols sp i c col :
  valid_selection sel = true ->
  length widths = 11%nat ->
  length output_cols = length sel ->
  sel !! i = Some c ->
  output_cols !! i = Some col ->
  exists sp',
    pad_column widths ew max_pad sel output_cols sp i c
    = ok (sp' ++ [padded_column widths ew max_pad output_cols i c col]) /\
    ((length sp <= i)%nat -> sp' = sp).
Proof.
  intros Hv Hw Hl Hc Hcol.
  rewrite (pad_column_eval _ _ _ _ _ Hv Hw Hl _ _ _ _ Hc Hcol).
  cbv zeta. unfold padded_column.
  destruct (Ascii.eqb c "0"); [by exists sp|].
  destruct (fires _ _ _ _ _ _ _); [|by exists sp].
  eexists. split; [done|]. intros Hle.
  by replace (i <? length sp)%nat with false
    by (symmetry; apply Nat.ltb_ge; lia).
Qed.

(** X16: the padded text of a column other than the arrow column has the
    visible width of its column, or its own when it is wider; plain or
    reverse-video, the padding adds exactly the missing width. *)
Theorem pad_column_visible_width
  widths ew max_pad sel output_cols sp i c col :
  valid_selection sel = true ->
  length widths = 11%nat ->
  length output_cols = length sel ->
  sel !! i = Some c ->
  output_cols !! i = Some col ->
  c <> "0" ->
  exists sp' padded,
    pad_column widths ew max_pad sel output_cols sp i c
    = ok (sp' ++ [padded]) /\
    visible_len padded = Z.max (visible_len col) (column_width widths ew c).
Proof.
  intros Hv Hw Hl Hc Hcol H0.
  destruct (pad_column_padded widths ew max_pad sel output_cols sp i c col
              Hv Hw Hl Hc Hcol) as (sp' & Hrun & _).
  exists sp', (padded_column widths ew max_pad output_cols i c col).
  split; [done|]. apply visible_len_padded_column.
  by apply Ascii.eqb_neq.
Qed.

Lemma pad_column_visible_width_witness :
  exists sp' padded,
    pad_column (replicate 11 8) (ExtraWidths 4 0) 5 (lit "95")
               [blue_dir; lit "4.0K"] [] 0 "9"
    = ok (sp' ++ [padded]) /\
    visible_len padded = Z.max (visible_len blue_dir) 8.
Proof.
  apply (pad_column_visible_width (replicate 11 8) (ExtraWidths 4 0) 5
           (lit "95") [blue_dir; lit "4.0K"] [] 0 "9" blue_dir
           eq_refl eq_refl eq_refl eq_refl eq_refl).
  discriminate.
Defined.

Lemma index_nth {A} (l : list A) i d :
  (i < length l)%nat -> index l i = ok (nth i l d).
Proof.
  intros Hi. unfold index.
  destruct (lookup_lt_is_Some_2 l i Hi) as [x Hx]. rewrite Hx.
  f_equal. symmetry. by apply nth_lookup_Some.
Qed.

Lemma select_column_value ew display_cols acc c :
  length display_cols = 11%nat ->
  char_in c identifiers = true ->
  select_column ew display_cols acc c
  = ok (acc ++ [column_value ew display_cols c]).
Proof.
  intros Hd Hc. unfold select_column, column_value.
  destruct (identifiers_cases c Hc) as [(Hd9 & H0 & Hs & Hlt)|[->| ->]].
  - rewrite Hd9. by rewrite (index_nth display_cols _ []) by lia.
  - change (char_in "0" digits19) with false.
    change (Ascii.eqb "0" "0") with true. cbv iota zeta.
    by rewrite (index_nth display_cols 10 []) by lia.
  - change (char_in "*" digits19) with false.
    change (Ascii.eqb "*" "0") with false.
    change (Ascii.eqb "*" "*") with true. cbv iota zeta.
    by rewrite (index_nth display_cols 10 []) by lia.
Qed.

(** The selection loop returns the display value of each identifier. *)
Lemma select_columns_values ew display_cols sel :
  length display_cols = 11%nat ->
  valid_selection sel = true ->
  select_columns ew display_cols sel
  = ok (map (column_value ew display_cols) sel).
Proof.
  intros Hd Hv. unfold select_columns.
  change (map (column_value ew display_cols) sel)
    with ([] ++ map (column_value ew display_cols) sel).
  generalize (@nil str) as acc. revert Hv.
  induction sel as [|c sel IH]; intros Hv acc.
  - by rewrite app_nil_r.
  - cbn [valid_selection forallb] in Hv. apply andb_prop in Hv as [Hc Hv].
    cbn [for_each]. rewrite select_column_value by done. cbn [bind ok].
    rewrite (IH Hv). cbn [map]. by rewrite <- app_assoc.
Qed.

(** The padding loop returns the padded text of each column. *)
Lemma pad_columns_entries widths ew cfg output_cols sp :
  valid_selection (columns_to_show cfg) = true ->
  length widths = 11%nat ->
  length output_cols = length (columns_to_show cfg) ->
  pad_columns widths ew cfg output_cols = ok sp ->
  forall i c col,
    columns_to_show cfg !! i = Some c -> output_cols !! i = Some col ->
    sp !! i
    = Some (padded_column widths ew (max_pad cfg) output_cols i c col).
Proof.
  intros Hv Hw Hl. unfold pad_columns.
  set (sel := columns_to_show cfg) in *.
  assert (Hgen : forall rest done_ sp0 sp1,
    sel = done_ ++ rest -> length sp0 = length done_ ->
    for_enumerate (pad_column widths ew (max_pad cfg) sel output_cols)
                  (length done_) rest sp0 = ok sp1 ->
    forall i c col,
      (length done_ <= i)%nat ->
      sel !! i = Some c -> output_cols !! i = Some col ->
      sp1 !! i
      = Some (padded_column widths ew (max_pad cfg) output_cols i c col)).
  { induction rest as [|x rest IH]; intros done_ sp0 sp1 Hs Hsp Hrun i c col
      Hi Hc Hcol.
    - apply lookup_lt_Some in Hc. rewrite Hs, app_nil_r in Hc. lia.
    - cbn [for_enumerate] in Hrun.
      assert (Hx : sel !! length done_ = Some x)
        by (by rewrite Hs, list_lookup_middle).
      destruct (lookup_lt_is_Some_2 output_cols (length done_))
        as [colx Hcolx].
      { rewrite Hl, Hs, length_app. cbn [length]. lia. }
      destruct (pad_column_padded widths ew (max_pad cfg) sel output_cols
                  sp0 (length done_) x colx Hv Hw Hl Hx Hcolx)
        as (sp' & Hstep & Hsame).
      rewrite (Hsame ltac:(lia)) in Hstep. rewrite Hstep in Hrun.
      cbn [bind ok] in Hrun.
      replace (S (length done_)) with (length (done_ ++ [x])) in Hrun
        by (rewrite length_app; cbn [length]; lia).
      destruct (decide (i = length done_)) as [->|Hne].
      + rewrite Hx in Hc. rewrite Hcolx in Hcol.
        inversion Hc; inversion Hcol; subst.
        destruct (pad_columns_keep_previous widths ew (max_pad cfg) sel
                    output_cols Hv Hw Hl rest (done_ ++ [c])
                    (sp0 ++ [padded_column widths ew (max_pad cfg)
                                           output_cols (length done_) c col])
                    sp1) as [appended ->].
        * by rewrite <- app_assoc.
        * rewrite !length_app. cbn [length]. lia.
        * exact Hrun.
        * rewrite <- app_assoc. cbn [app].
          by rewrite list_lookup_middle.
      + eapply (IH (done_ ++ [x])); [| |exact Hrun| | |]; try done.
        * by rewrite <- app_assoc.
        * rewrite !length_app. cbn [length]. lia.
        * rewrite length_app. cbn [length]. lia. }
  intros Hrun i c col Hc Hcol.
  apply (Hgen sel [] [] sp); try done. cbn [length]. lia.
Qed.

Lemma Forall2_le_nth (a b : list Z) i :
  Forall2 Z.le a b -> nth i a 0 <= nth i b 0.
Proof.
  intros H. revert i. induction H as [|x y a b Hxy H IH]; intros [|i];
    cbn [nth]; try lia. apply IH.
Qed.

Lemma visible_len_spaces n : visible_len (spaces n) = Z.max 0 n.
Proof. apply (visible_len_spaces_after [] n). Qed.

(** Without [-Q] no display value is wider than its column, for a row of
    the batch the widths were taken from. *)
Lemma column_value_fits cfg lines widths ew line columns display_cols c :
  use_quotes cfg = false ->
  calculate_column_widths lines true = ok (widths, ew) ->
  line ∈ lines ->
  split_line_into_columns line = ok columns ->
  display_columns cfg columns = ok display_cols ->
  char_in c identifiers = true ->
  visible_len (column_value ew display_cols c) <= column_width widths ew c.
Proof.
  intros Hq Hcalc Hin Hs Hd Hc.
  pose proof (measure_lines_cover true lines
                (replicate 11 0, ExtraWidths 4 0) (widths, ew) eq_refl Hcalc)
    as [_ Hall].
  pose proof (Hall line columns Hin Hs) as Hfit. cbn [fst] in Hfit.
  pose proof (measure_lines_invariant true lines
                (replicate 11 0, ExtraWidths 4 0) (widths, ew)) as Hinv.
  destruct Hinv as (Hlen & Harrow & Htarget & _ & Hpos); [|exact Hcalc|].
  { unfold table_invariant. cbn. repeat split; try done; try lia.
    repeat constructor; lia. }
  cbn [fst snd] in *.
  apply split_line_into_columns_shape in Hs
    as (p0&p1&p2&p3&p4&p5&p6&p7&c8&c9&c10&->).
  unfold display_columns in Hd. rewrite Hq in Hd. cbn in Hd.
  inversion Hd; subst display_cols; clear Hd.
  unfold column_value, column_width.
  destruct (identifiers_cases c Hc) as [(Hd9 & H0 & Hstar & Hlt)|[->| ->]].
  - rewrite Hd9. pose proof (Forall2_le_nth _ _ (int_of_digit c - 1) Hfit).
    revert H. generalize (int_of_digit c - 1)%nat Hlt. intros k Hk.
    do 9 (destruct k as [|k]; [done|]). lia.
  - change (char_in "0" digits19) with false. cbv iota zeta.
    change (Ascii.eqb "0" "0") with true.
    change (Ascii.eqb "0" "*") with false. cbv iota. rewrite Harrow.
    by destruct (truthy _).
  - change (char_in "*" digits19) with false. cbv iota zeta.
    change (Ascii.eqb "*" "0") with false.
    change (Ascii.eqb "*" "*") with true. cbv iota.
    assert (Hpos10 : 0 <= ew_target ew).
    { rewrite Htarget. rewrite Forall_forall in Hpos. apply Hpos.
      apply list_elem_of_In, nth_In. lia. }
    pose proof (Forall2_le_nth _ _ 10 Hfit) as H10. cbn [nth measured] in H10.
    cbn [nth].
    destruct (truthy (py_strip (strip_ansi_codes c10))) eqn:Hvis.
    + destruct (truthy (py_strip (strip_ansi_codes
                                    (strip_quotes_python c10 true))));
        [lia|]. rewrite visible_len_spaces. lia.
    + rewrite Hvis. rewrite visible_len_spaces. lia.
Qed.

Lemma calculate_table_invariant lines sq widths ew :
  calculate_column_widths lines sq = ok (widths, ew) ->
  table_invariant (widths, ew).
Proof.
  apply (measure_lines_invariant sq lines (replicate 11 0, ExtraWidths 4 0)).
  unfold table_invariant. cbn. repeat split; try done; try lia.
  repeat constructor; lia.
Qed.

(** X17: without [-Q], every padded column of a row of the batch has the
    visible width of its column, whatever the selection, the threshold and
    the colours: the rows of a listing are aligned column by column. *)
Theorem rendered_columns_aligned cfg lines line widths ew sp i c :
  use_quotes cfg = false ->
  valid_selection (columns_to_show cfg) = true ->
  calculate_column_widths lines true = ok (widths, ew) ->
  line ∈ lines ->
  selected_padded_of cfg lines line = ok sp ->
  columns_to_show cfg !! i = Some c ->
  exists padded,
    sp !! i = Some padded /\
    visible_len padded = column_width widths ew c.
Proof.
  intros Hq Hv Hcalc Hin Hrun Hc.
  unfold selected_padded_of in Hrun. rewrite Hcalc in Hrun.
  cbn [bind ok] in Hrun.
  destruct (split_line_into_columns line) as [e|columns] eqn:Hs; [done|].
  cbn [bind ok] in Hrun.
  destruct (display_columns_ok cfg columns
              (split_line_into_columns_length _ _ Hs)) as (d & Hd & Hdl).
  rewrite Hd in Hrun. cbn [bind ok] in Hrun.
  rewrite (select_columns_values ew d _ Hdl Hv) in Hrun.
  cbn [bind ok] in Hrun.
  destruct (calculate_table_invariant _ _ _ _ Hcalc)
    as (Hw & Harrow & _). cbn [fst snd] in Hw, Harrow.
  assert (Hid : char_in c identifiers = true).
  { unfold valid_selection in Hv. rewrite forallb_forall in Hv. apply Hv.
    apply list_elem_of_In. by eapply list_elem_of_lookup_2. }
  pose proof (column_value_fits cfg lines widths ew line columns d c
                Hq Hcalc Hin Hs Hd Hid) as Hfit.
  eexists. split.
  - eapply (pad_columns_entries widths ew cfg _ sp Hv Hw); [|exact Hrun|done|].
    + by rewrite length_map.
    + change (map (column_value ew d) (columns_to_show cfg))
        with (column_value ew d <$> columns_to_show cfg).
      rewrite list_lookup_fmap, Hc. reflexivity.
  - destruct (Ascii.eqb c "0") eqn:H0.
    + apply Ascii.eqb_eq in H0. subst c.
      unfold padded_column, column_value, column_width.
      change (Ascii.eqb "0" "0") with true.
      change (char_in "0" digits19) with false.
      change (Ascii.eqb "0" "*") with false. cbv iota zeta. rewrite Harrow.
      by destruct (truthy _).
    + rewrite visible_len_padded_column by done. lia.
Qed.

Lemma rendered_columns_aligned_witness :
  exists sp padded,
    selected_padded_of (short_selection "195" false 5)
                       [dir_line; file_line] dir_line = ok sp /\
    sp !! 1%nat = Some padded /\ visible_len padded = 15.
Proof.
  destruct (rendered_columns_aligned (short_selection "195" false 5)
              [dir_line; file_line] dir_line
              [10; 1; 5; 5; 4; 3; 1; 5; 15; 1; 1] (ExtraWidths 4 1)
              [lit "drwxr-xr-x";
               (csi (lit "01;34") "m" ++ lit "d" ++ csi (lit "0") "m"
                ++ lit "/")
               ++ reverse_padding (csi (lit "01;34") "m") 13;
               lit "4.0K"]
              1 "9" eq_refl eq_refl eq_refl (list_elem_of_here _ _)
              eq_refl eq_refl)
    as (padded & Hp & Hw).
  eexists _, padded. split; [reflexivity|]. by split.
Defined.

(** ** Command line *)

Lemma slice_from_drop s k : (k <= length s)%nat -> slice_from s (Z.of_nat k) = drop k s.
Proof.
  intros Hk. unfold slice_from. rewrite slice_bound_inside; [|unfold len; lia].
  by rewrite Nat2Z.id.
Qed.

Lemma valid_filter s :
  valid_selection (List.filter (fun c => char_in c identifiers) s) = true.
Proof.
  unfold valid_selection. apply forallb_forall. intros c Hc.
  by apply filter_In in Hc as [_ ?].
Qed.

(** The format arguments are those that pass one of the two tests. *)
Lemma sort_arguments_formats args :
  Forall (fun arg => is_short_format arg = true \/ is_long_format arg = true)
         (sort_arguments args).2.
Proof.
  unfold sort_arguments.
  assert (Hgen : forall st : list str * list str,
    Forall (fun arg => is_short_format arg = true
                       \/ is_long_format arg = true) st.2 ->
    Forall (fun arg => is_short_format arg = true
                       \/ is_long_format arg = true)
      (fold_left
         (fun st arg =>
            let '(ls_args, format_args) := st in
            if is_short_format arg then (ls_args, format_args ++ [arg])
            else if is_long_format arg then (ls_args, format_args ++ [arg])
            else if negb (str_in arg [lit "-Q"; lit "--header"])
            then (ls_args ++ [arg], format_args)
            else (ls_args, format_args))
         args st).2).
  { induction args as [|arg args IH]; intros [l f] Hf; [done|].
    cbn [fold_left]. apply IH. cbn [snd] in *.
    destruct (is_short_format arg) eqn:Hs.
    - cbn [snd]. apply Forall_app. split; [done|].
      constructor; [by left | constructor].
    - destruct (is_long_format arg) eqn:Hl.
      + cbn [snd]. apply Forall_app. split; [done|].
        constructor; [by right | constructor].
      + by destruct (negb _). }
  apply Hgen. constructor.
Qed.

Lemma read_format_valid st arg :
  valid_selection st.1 = true ->
  is_short_format arg = true \/ is_long_format arg = true ->
  valid_selection (read_format st arg).1 = true.
Proof.
  intros Hst Harg. unfold read_format.
  destruct (starts_with (lit "--") arg) eqn:Hdd; [apply valid_filter|].
  destruct (starts_with (lit "-") arg) eqn:Hd; [|done].
  destruct Harg as [Hs|Hl].
  - unfold is_short_format in Hs. by apply andb_prop in Hs as [_ ?].
  - unfold is_long_format in Hl. rewrite Hdd in Hl. done.
Qed.

(** X18: whatever the arguments, the selection [main] renders with holds
    only the identifiers [1234567890*]. *)
Theorem parse_args_valid_selection py_int args cfg ls_args :
  parse_args py_int args = Run cfg ls_args ->
  valid_selection (columns_to_show cfg) = true.
Proof.
  unfold parse_args.
  destruct (str_in (lit "--version") args); [done|].
  destruct (str_in (lit "--help") args); [done|].
  destruct (read_max_pad py_int args) as [[n args']|]; [|done].
  pose proof (sort_arguments_formats args') as Hf.
  destruct (sort_arguments args') as [ls fs]. cbn [snd] in Hf.
  cbv zeta.
  assert (Hgen : forall st,
    valid_selection st.1 = true ->
    valid_selection (fold_left read_format fs st).1 = true).
  { clear -Hf. induction Hf as [|arg fs Harg Hf IH]; intros st Hst; [done|].
    cbn [fold_left]. apply IH. by apply read_format_valid. }
  specialize (Hgen (identifiers,
                    replicate (length identifiers - 1) (lit " ")) eq_refl).
  destruct (fold_left read_format fs _) as [cols seps].
  intros [= <- _]. exact Hgen.
Qed.

Lemma parse_args_valid_selection_witness :
  exists cfg ls_args,
    parse_args digits_only
      [lit "--width=80"; lit "-951"; lit "dir"; lit "--max-pad"; lit "3"]
    = Run cfg ls_args /\
    valid_selection (columns_to_show cfg) = true.
Proof.
  eexists _, _. split; [reflexivity|].
  apply (parse_args_valid_selection digits_only
           [lit "--width=80"; lit "-951"; lit "dir"; lit "--max-pad"; lit "3"]
           _ _ eq_refl).
Defined.

Lemma collect_separators_following parts :
  collect_separators parts = following_separators (drop 1 parts).
Proof.
  unfold collect_separators.
  set (step := fun (separators : list str) (ip : nat * str) =>
       let '(i, part) := ip in
       if contains part identifiers
          && (Z.of_nat i <? Z.of_nat (length parts) - 1) then
         let sep :=
           match parts !! (i + 1)%nat with
           | Some sep => sep
           | None => lit " "
           end in
         let sep := if contains sep identifiers then lit " " else sep in
         separators ++ [sep]
       else separators).
  assert (Hgen : forall l pre acc,
    parts = pre ++ l ->
    fold_left step (zip (seq (length pre) (length l)) l) acc
    = acc ++ following_separators l).
  { induction l as [|part l IH]; intros pre acc Hp.
    - by rewrite app_nil_r.
    - change (zip (seq (length pre) (length (part :: l))) (part :: l))
        with ((length pre, part)
              :: zip (seq (S (length pre)) (length l)) l).
      cbn [fold_left].
      assert (Hrest : fold_left step (zip (seq (S (length pre)) (length l)) l)
                                (step acc (length pre, part))
                      = step acc (length pre, part)
                        ++ following_separators l).
      { replace (S (length pre)) with (length (pre ++ [part]))
          by (rewrite length_app; cbn [length]; lia).
        apply IH. by rewrite <- app_assoc. }
      rewrite Hrest. clear Hrest IH.
      unfold step at 1.
      destruct l as [|next l].
      + replace (Z.of_nat (length pre) <? Z.of_nat (length parts) - 1)
          with false.
        * rewrite andb_false_r. cbn [following_separators].
          by rewrite app_nil_r.
        * symmetry. apply Z.ltb_ge. rewrite Hp, length_app. cbn [length]. lia.
      + replace (Z.of_nat (length pre) <? Z.of_nat (length parts) - 1)
          with true.
        * rewrite andb_true_r.
          replace (parts !! (length pre + 1)%nat) with (Some next).
          -- cbn [following_separators].
             destruct (contains part identifiers); [|done].
             cbv zeta. by rewrite <- app_assoc.
          -- rewrite Hp. rewrite lookup_app_r by lia.
             by replace (length pre + 1 - length pre)%nat with 1%nat by lia.
        * symmetry. apply Z.ltb_lt. rewrite Hp, length_app. cbn [length].
          lia. }
  destruct parts as [|t0 l]; [done|].
  cbn [length drop]. replace (S (length l) - 1)%nat with (length l) by lia.
  apply (Hgen l [t0] []). done.
Qed.

Lemma split_identifiers_gap g : forall text rest,
  any_identifier g = false ->
  split_identifiers text (g ++ rest) = split_identifiers (text ++ g) rest.
Proof.
  induction g as [|c g IH]; intros text rest Hg.
  - by rewrite app_nil_r.
  - unfold any_identifier in Hg. cbn [existsb] in Hg.
    apply orb_false_elim in Hg as [Hc Hg].
    cbn [app split_identifiers]. rewrite Hc, IH by done.
    by rewrite <- app_assoc.
Qed.

Lemma split_identifiers_long_form items last :
  Forall (fun it : ascii * str =>
            char_in it.1 identifiers = true /\ any_identifier it.2 = false)
         items ->
  char_in last identifiers = true ->
  forall text,
    split_identifiers text (long_form items last)
    = text :: concat (map (fun it => [[it.1]; it.2]) items)
        ++ [[last]; []].
Proof.
  intros Hitems Hlast. induction Hitems as [|[c g] items [Hc Hg] _ IH];
    intros text.
  - unfold long_form. cbn [map concat app split_identifiers].
    by rewrite Hlast.
  - cbn [fst snd] in Hc, Hg.
    assert (Hl : long_form ((c, g) :: items) last
                 = c :: g ++ long_form items last).
    { unfold long_form. cbn [map concat fst snd].
      by rewrite <- app_assoc. }
    rewrite Hl. cbn [split_identifiers]. rewrite Hc.
    rewrite split_identifiers_gap by done. rewrite IH. done.
Qed.

Lemma contains_nil s : contains [] s = true.
Proof. unfold contains. by destruct s. Qed.

Lemma contains_gap g :
  truthy g = true -> any_identifier g = false ->
  contains g identifiers = false.
Proof.
  destruct g as [|c g]; [done|]. intros _ Hg.
  unfold any_identifier in Hg. cbn [existsb] in Hg.
  apply orb_false_elim in Hg as [Hc _].
  unfold contains.
  destruct (find_sub (c :: g) identifiers) as [i|] eqn:Hf; [|done].
  apply find_sub_split in Hf.
  assert (Hin : char_in c identifiers = true); [|congruence].
  rewrite Hf, char_in_app. cbn [app]. unfold char_in at 2.
  cbn [existsb]. rewrite Ascii.eqb_refl. apply orb_true_r.
Qed.

Lemma following_separators_cons part next l :
  following_separators (part :: next :: l)
  = (if contains part identifiers
     then [if contains next identifiers then lit " " else next]
     else [])
    ++ following_separators (next :: l).
Proof. reflexivity. Qed.

Lemma following_separators_long_form items last :
  Forall (fun it : ascii * str =>
            char_in it.1 identifiers = true /\ any_identifier it.2 = false)
         items ->
  char_in last identifiers = true ->
  following_separators
    (concat (map (fun it => [[it.1]; it.2]) items) ++ [[last]; []])
  = gap_separators items.
Proof.
  intros Hitems Hlast. unfold gap_separators.
  assert (Hl : contains [last] identifiers = true)
    by (by rewrite contains_char).
  induction Hitems as [|[c g] items [Hc Hg] Hitems IH].
  - cbn [map concat app following_separators].
    by rewrite Hl, contains_nil.
  - cbn [fst snd] in Hc, Hg. cbn [map concat fst snd app].
    set (rest := concat (map (fun it => [[it.1]; it.2]) items)
                 ++ [[last]; []]) in *.
    assert (Hrest : exists x more, rest = [x] :: more).
    { subst rest. destruct items as [|[c' g'] items]; cbn; eauto. }
    destruct Hrest as (x & more & Hrest). rewrite Hrest in *.
    rewrite !following_separators_cons.
    replace (following_separators _)
      with (concat (map (fun it : ascii * str =>
                           if truthy it.2 then [it.2]
                           else [lit " "; lit " "]) items) ++ [lit " "])
      by (symmetry; exact IH).
    rewrite (contains_char c), Hc.
    destruct g as [|y g].
    + rewrite contains_nil, contains_char.
      cbn [truthy app].
      assert (Hx : char_in x identifiers = true).
      { subst rest. destruct items as [|[c' g'] items' ].
        - cbn in Hrest. by inversion Hrest; subst.
        - cbn in Hrest. inversion Hrest; subst.
          apply Forall_cons in Hitems. by destruct Hitems as [[? _] _]. }
      rewrite Hx. done.
    + rewrite (contains_gap (y :: g)) by done. cbn [truthy app]. done.
Qed.

Lemma filter_gap g :
  any_identifier g = false ->
  List.filter (fun c => char_in c identifiers) g = [].
Proof.
  unfold any_identifier. induction g as [|c g IH]; [done|].
  cbn [existsb List.filter]. intros H.
  apply orb_false_elim in H as [-> H]. by apply IH.
Qed.

Lemma filter_long_form items last :
  Forall (fun it : ascii * str =>
            char_in it.1 identifiers = true /\ any_identifier it.2 = false)
         items ->
  char_in last identifiers = true ->
  List.filter (fun c => char_in c identifiers) (long_form items last)
  = map fst items ++ [last].
Proof.
  intros Hitems Hlast. unfold long_form.
  induction Hitems as [|[c g] items [Hc Hg] _ IH].
  - cbn [map concat app List.filter]. by rewrite Hlast.
  - cbn [fst snd] in Hc, Hg. cbn [map concat fst snd].
    rewrite <- app_assoc. cbn [app List.filter]. rewrite Hc.
    rewrite List.filter_app, filter_gap by done. cbn [app]. by rewrite IH.
Qed.

(** X19: the extended syntax [--] followed by identifiers and the texts
    between them selects the identifiers in their order, and gives one
    separator for each text that is not empty, two single spaces for each
    pair of adjacent identifiers, and a single space at the end; so every
    pair of adjacent identifiers moves the separators behind it one place
    on. *)
Theorem read_format_extended st items last :
  Forall (fun it : ascii * str =>
            char_in it.1 identifiers = true /\ any_identifier it.2 = false)
         items ->
  char_in last identifiers = true ->
  read_format st (lit "--" ++ long_form items last)
  = (map fst items ++ [last], gap_separators items).
Proof.
  intros Hitems Hlast. unfold read_format.
  rewrite starts_with_app. cbv zeta.
  change 2 with (Z.of_nat 2).
  rewrite slice_from_drop by (rewrite length_app; cbn; lia).
  change (drop 2 (lit "--" ++ long_form items last))
    with (long_form items last).
  rewrite filter_long_form by done. f_equal.
  rewrite collect_separators_following.
  rewrite (split_identifiers_long_form items last Hitems Hlast []).
  cbn [drop]. by apply following_separators_long_form.
Qed.

Lemma read_format_extended_witness :
  read_format ([], []) (lit "--9_51")
  = (lit "951", [lit "_"; lit " "; lit " "; lit " "]) /\
  read_format ([], []) (lit "--95_1")
  = (lit "951", [lit " "; lit " "; lit "_"; lit " "]).
Proof.
  split.
  - apply (read_format_extended ([], []) [("9", lit "_"); ("5", [])] "1").
    + repeat constructor.
    + reflexivity.
  - apply (read_format_extended ([], []) [("9", []); ("5", lit "_")] "1").
    + repeat constructor.
    + reflexivity.
Defined.

Lemma str_in_cons x y l :
  str_in x (y :: l) = bool_decide (x = y) || str_in x l.
Proof. reflexivity. Qed.

(** X20: the threshold is read from the argument behind the first
    [--max-pad]; when it is an integer, the two arguments are taken out and
    the others stay in their order, and when it is none, [main] gives up. *)
Theorem read_max_pad_first py_int pre value post :
  str_in (lit "--max-pad") pre = false ->
  read_max_pad py_int (pre ++ lit "--max-pad" :: value :: post)
  = match py_int value with
    | Some n => Some (n, pre ++ post)
    | None => None
    end.
Proof.
  induction pre as [|arg pre IH]; intros Hpre.
  - cbn [app read_max_pad].
    by rewrite bool_decide_eq_true_2 by done.
  - rewrite str_in_cons in Hpre. apply orb_false_elim in Hpre as [Harg Hpre].
    apply bool_decide_eq_false in Harg.
    cbn [app read_max_pad].
    destruct (pre ++ lit "--max-pad" :: value :: post) as [|v rest] eqn:Hr.
    { by destruct pre. }
    rewrite bool_decide_eq_false_2 by congruence.
    rewrite (IH Hpre). by destruct (py_int value).
Qed.

Lemma read_max_pad_first_witness :
  str_in (lit "--max-pad") [lit "-Q"; lit "dir"] = false /\
  read_max_pad digits_only
    ([lit "-Q"; lit "dir"] ++ lit "--max-pad" :: lit "12" :: [lit "-95"])
  = Some (12, [lit "-Q"; lit "dir"; lit "-95"]).
Proof.
  split; [reflexivity|].
  apply (read_max_pad_first digits_only [lit "-Q"; lit "dir"] (lit "12")
           [lit "-95"] eq_refl).
Defined.

Lemma read_max_pad_trailing py_int pre tail :
  str_in (lit "--max-pad") pre = false ->
  (length tail <= 1)%nat ->
  read_max_pad py_int (pre ++ tail) = Some (5, pre ++ tail).
Proof.
  intros Hpre Htail. induction pre as [|arg pre IH].
  - destruct tail as [|x [|y tail]]; [done..|]. cbn [length] in Htail. lia.
  - rewrite str_in_cons in Hpre. apply orb_false_elim in Hpre as [Harg Hpre].
    apply bool_decide_eq_false in Harg.
    cbn [app read_max_pad].
    destruct (pre ++ tail) as [|v rest] eqn:Hr; [done|].
    rewrite bool_decide_eq_false_2 by congruence.
    by rewrite (IH Hpre).
Qed.

Lemma sort_arguments_snoc args arg :
  sort_arguments (args ++ [arg])
  = let '(ls_args, format_args) := sort_arguments args in
    if is_short_format arg then (ls_args, format_args ++ [arg])
    else if is_long_format arg then (ls_args, format_args ++ [arg])
    else if negb (str_in arg [lit "-Q"; lit "--header"])
    then (ls_args ++ [arg], format_args)
    else (ls_args, format_args).
Proof. unfold sort_arguments. by rewrite fold_left_app. Qed.

Lemma str_in_app x a b : str_in x (a ++ b) = str_in x a || str_in x b.
Proof. apply existsb_app. Qed.

(** X21: a [--max-pad] that ends the arguments has no value to read: the
    threshold stays 5 and the argument goes to [ls] with the others. *)
Theorem parse_args_trailing_max_pad py_int pre :
  str_in (lit "--max-pad") pre = false ->
  str_in (lit "--version") pre = false ->
  str_in (lit "--help") pre = false ->
  exists cfg ls_args,
    parse_args py_int (pre ++ [lit "--max-pad"])
    = Run cfg (ls_args ++ [lit "--max-pad"]) /\
    max_pad cfg = 5.
Proof.
  intros Hpre Hv Hh. unfold parse_args.
  rewrite !str_in_app, Hv, Hh. cbn [orb str_in existsb].
  rewrite !bool_decide_eq_false_2 by discriminate. cbn [orb].
  rewrite read_max_pad_trailing by (done || (cbn; lia)).
  rewrite sort_arguments_snoc.
  destruct (sort_arguments pre) as [ls fs].
  change (is_short_format (lit "--max-pad")) with false.
  change (is_long_format (lit "--max-pad")) with false.
  change (negb (str_in (lit "--max-pad") [lit "-Q"; lit "--header"]))
    with true.
  cbv iota zeta.
  destruct (fold_left read_format fs _) as [cols seps].
  by eexists _, ls.
Qed.

Lemma parse_args_trailing_max_pad_witness :
  exists cfg ls_args,
    parse_args digits_only ([lit "-95"; lit "dir"] ++ [lit "--max-pad"])
    = Run cfg (ls_args ++ [lit "--max-pad"]) /\
    max_pad cfg = 5.
Proof.
  apply (parse_args_trailing_max_pad digits_only [lit "-95"; lit "dir"]
           eq_refl eq_refl eq_refl).
Defined.

(** ** The run, continued *)

(** [main] in terms of the lines it renders. *)
Lemma main_lines_body cfg lines :
  main_lines cfg lines
  = (we <- calculate_column_widths (body_lines lines) true ;;
     out <-
       (if show_header cfg then
          header <- print_header we.1 we.2 (columns_to_show cfg)
                                 (separators cfg) ;;
          ok (take (length lines - length (body_lines lines)) lines
                ++ [header])
        else ok (take (length lines - length (body_lines lines)) lines)) ;;
     st <- for_each (render_line we.1 we.2 cfg) (body_lines lines) (out, O) ;;
     ok (st.1 ++ [str_of_nat st.2 ++ lit " found"])).
Proof.
  unfold main_lines, body_lines.
  assert (Hbody : forall (out : list str) (body : list str),
    (we <- calculate_column_widths body true ;;
     let (widths, ew) := we : list Z * extra_widths in
     out <-
       (if show_header cfg then
          header <- print_header widths ew (columns_to_show cfg)
                                 (separators cfg) ;;
          ok (out ++ [header])
        else ok out) ;;
     st <- for_each (render_line widths ew cfg) body (out, O) ;;
     let (out, file_count) := st : list str * nat in
     ok (out ++ [str_of_nat file_count ++ lit " found"]))
    = (we <- calculate_column_widths body true ;;
       out <-
         (if show_header cfg then
            header <- print_header we.1 we.2 (columns_to_show cfg)
                                   (separators cfg) ;;
            ok (out ++ [header])
          else ok out) ;;
       st <- for_each (render_line we.1 we.2 cfg) body (out, O) ;;
       ok (st.1 ++ [str_of_nat st.2 ++ lit " found"]))).
  { intros out body.
    destruct (calculate_column_widths body true) as [e|[w ew]]; [done|].
    cbn [bind ok fst snd].
    destruct (if show_header cfg then _ else _) as [e|out']; [done|].
    cbn [bind ok].
    by destruct (for_each _ _ _) as [e|[o n]]. }
  destruct lines as [|first rest]; [apply (Hbody [] [])|].
  destruct (starts_with (lit "total") first).
  - replace (length (first :: rest) - length rest)%nat with 1%nat
      by (cbn [length]; lia).
    apply (Hbody [first] rest).
  - rewrite Nat.sub_diag. apply (Hbody [] (first :: rest)).
Qed.

(** X22: when [main] returns, it has printed one line for each line of the
    listing, the header if asked, and the count; and the count is the number
    of lines behind a leading [total] line, whatever these lines are. *)
Theorem main_lines_count cfg lines out :
  main_lines cfg lines = ok out ->
  length out
  = (length lines + (if show_header cfg then 1 else 0) + 1)%nat /\
  last out
  = Some (str_of_nat (length (body_lines lines)) ++ lit " found").
Proof.
  rewrite main_lines_body.
  assert (Hlen : (length (body_lines lines) <= length lines)%nat).
  { unfold body_lines. destruct lines as [|first rest]; [done|].
    destruct (starts_with _ first); cbn [length]; lia. }
  destruct (calculate_column_widths _ _) as [e|we]; [done|]. cbn [bind ok].
  set (pre := take (length lines - length (body_lines lines)) lines).
  assert (Hpre : length pre = (length lines - length (body_lines lines))%nat)
    by (subst pre; rewrite length_take; lia).
  destruct (show_header cfg).
  - destruct (print_header _ _ _ _) as [e|header]; [done|]. cbn [bind ok].
    destruct (for_each _ _ _) as [e|[o n]] eqn:Hrun; [done|].
    cbn [bind ok fst snd]. intros [= <-].
    apply render_lines_count in Hrun as [-> Ho].
    rewrite last_snoc, length_app, Ho, length_app. cbn [length].
    split; [lia | done].
  - cbn [bind ok].
    destruct (for_each _ _ _) as [e|[o n]] eqn:Hrun; [done|].
    cbn [bind ok fst snd]. intros [= <-].
    apply render_lines_count in Hrun as [-> Ho].
    rewrite last_snoc, length_app, Ho. cbn [length].
    split; [lia | done].
Qed.

Lemma main_lines_count_witness :
  exists out,
    main_lines default_config [lit "total 8"; dir_line; file_line] = ok out /\
    length out = 4%nat /\ last out = Some (lit "2 found").
Proof.
  eexists. split; [reflexivity|].
  apply (main_lines_count default_config
           [lit "total 8"; dir_line; file_line] _ eq_refl).
Defined.




Lemma tokenizes_ok line :
  tokenizes line = true <->
  exists columns, split_line_into_columns line = ok columns.
Proof.
  unfold tokenizes. destruct (split_line_into_columns line) as [e|columns].
  - split; [done | by intros [? ?]].
  - split; [by eexists | done].
Qed.

(** The width table is computed exactly when every line tokenizes. *)
Lemma measure_lines_returns sq lines : forall st,
  length st.1 = 11%nat ->
  (exists st', for_each (measure_line sq) lines st = ok st')
  <-> forallb tokenizes lines = true.
Proof.
  induction lines as [|line lines IH]; intros [w e] Hw.
  - split; [done | by eexists].
  - cbn [for_each forallb]. unfold tokenizes at 1.
    destruct (split_line_into_columns line) as [ex|columns] eqn:Hs.
    + rewrite (measure_line_raises _ _ _ _ Hs). cbn [bind].
      split; [by intros [? ?] | done].
    + rewrite (measure_line_ok _ _ _ _ _ Hs Hw). cbn [bind ok andb].
      apply IH, grow_length; [done | by eapply measured_length].
Qed.

(** The header is the identifiers, each in a cell of the width of its
    column, joined like a row. *)
Lemma print_header_cells widths ew sel seps :
  valid_selection sel = true ->
  length widths = 11%nat ->
  print_header widths ew sel seps
  = join_parts seps (map (fun c => ljust [c] (column_width widths ew c)) sel).
Proof.
  intros Hv Hw. unfold print_header.
  set (step := fun (header_parts : list str) (i : ascii) =>
         if char_in i digits19 then
           w <- index widths (int_of_digit i - 1) ;;
           ok (header_parts ++ [ljust [i] w])
         else if Ascii.eqb i "0" then
           ok (header_parts ++ [ljust (lit "0") (ew_arrow ew)])
         else if Ascii.eqb i "*" then
           ok (header_parts ++ [ljust (lit "*") (ew_target ew)])
         else ok header_parts).
  assert (Hgen : forall acc,
    for_each step sel acc
    = ok (acc ++ map (fun c => ljust [c] (column_width widths ew c)) sel)).
  { revert Hv. induction sel as [|c sel IH]; intros Hv acc.
    - cbn [for_each map]. by rewrite app_nil_r.
    - cbn [valid_selection forallb] in Hv. apply andb_prop in Hv as [Hc Hv].
      cbn [for_each map].
      assert (Hstep : step acc c
                      = ok (acc ++ [ljust [c] (column_width widths ew c)])).
      { unfold step, column_width.
        destruct (identifiers_cases c Hc) as [(Hd & H0 & Hs & Hlt)|[->| ->]];
          [|reflexivity..].
        rewrite Hd. by rewrite (index_nth widths _ 0) by lia. }
      rewrite Hstep. cbn [bind ok]. rewrite (IH Hv).
      by rewrite <- app_assoc. }
  rewrite Hgen. reflexivity.
Qed.

Lemma render_lines_return widths ew cfg lines :
  valid_selection (columns_to_show cfg) = true ->
  columns_to_show cfg <> [] ->
  length widths = 11%nat ->
  forallb tokenizes lines = true ->
  forall st, exists st',
    for_each (render_line widths ew cfg) lines st = ok st'.
Proof.
  intros Hv Hne Hw. induction lines as [|line lines IH]; intros Hall [out n].
  - by eexists.
  - cbn [forallb] in Hall. apply andb_prop in Hall as [Hline Hall].
    apply tokenizes_ok in Hline as [columns Hs].
    cbn [for_each]. unfold render_line at 1. rewrite Hs. cbn [bind ok].
    pose proof (split_line_into_columns_length _ _ Hs) as Hlen.
    rewrite Hlen. change (11 =? 11)%nat with true. cbv iota.
    destruct (render_columns_total widths ew cfg columns Hv Hne Hw Hlen)
      as [output ->].
    cbn [bind ok]. by apply IH.
Qed.

(** X24: for a selection of one identifier or more, [main] returns exactly
    when the tokenizer returns on every line behind a leading [total] line:
    no other step of the run can raise. *)
Theorem main_lines_returns cfg lines :
  valid_selection (columns_to_show cfg) = true ->
  columns_to_show cfg <> [] ->
  (exists out, main_lines cfg lines = ok out)
  <-> forallb tokenizes (body_lines lines) = true.
Proof.
  intros Hv Hne. rewrite main_lines_body.
  pose proof (measure_lines_returns true (body_lines lines)
                (replicate 11 0, ExtraWidths 4 0) eq_refl) as Hcalc.
  fold (calculate_column_widths (body_lines lines) true) in Hcalc.
  split.
  - intros [out Hout]. apply Hcalc.
    destruct (calculate_column_widths _ _) as [e|we]; [done|]. by eexists.
  - intros Hall. destruct (proj2 Hcalc Hall) as [[w ew] Hwe].
    rewrite Hwe. cbn [bind ok fst snd].
    pose proof (calculate_column_widths_length _ _ _ _ Hwe) as Hw.
    assert (Hhead : exists out0,
      (if show_header cfg then
         header <- print_header w ew (columns_to_show cfg) (separators cfg) ;;
         ok (take (length lines - length (body_lines lines)) lines
               ++ [header])
       else ok (take (length lines - length (body_lines lines)) lines))
      = ok out0).
    { destruct (show_header cfg); [|by eexists].
      rewrite print_header_cells by done.
      destruct (columns_to_show cfg) as [|c sel]; [done|]. cbn [map].
      destruct (join_parts_ok (separators cfg)
                  (ljust [c] (column_width w ew c))
                  (map (fun c => ljust [c] (column_width w ew c)) sel))
        as [h ->].
      by eexists. }
    destruct Hhead as [out0 ->]. cbn [bind ok].
    destruct (render_lines_return w ew cfg (body_lines lines) Hv Hne Hw Hall
                (out0, O)) as [st ->].
    cbn [bind ok]. by eexists.
Qed.

Lemma main_lines_returns_witness :
  (exists out,
     main_lines default_config [lit "total 8"; dir_line; file_line] = ok out)
  <-> forallb tokenizes
        (body_lines [lit "total 8"; dir_line; file_line]) = true.
Proof.
  apply (main_lines_returns default_config
           [lit "total 8"; dir_line; file_line] eq_refl).
  discriminate.
Defined.

(** X25: with an empty selection, which the argument [-] gives, [main]
    raises [IndexError] as soon as it has a header or a row to print. *)
Theorem main_lines_empty_selection cfg lines :
  columns_to_show cfg = [] ->
  forallb tokenizes (body_lines lines) = true ->
  show_header cfg = true \/ body_lines lines <> [] ->
  main_lines cfg lines = raise IndexError.
Proof.
  intros Hsel Hall Hsome. rewrite main_lines_body.
  destruct (proj2 (measure_lines_returns true (body_lines lines)
                     (replicate 11 0, ExtraWidths 4 0) eq_refl) Hall)
    as [[w ew] Hwe].
  fold (calculate_column_widths (body_lines lines) true) in Hwe.
  rewrite Hwe. cbn [bind ok fst snd]. rewrite Hsel.
  destruct (show_header cfg); [reflexivity|].
  destruct Hsome as [?|Hbody]; [done|]. cbn [bind ok].
  destruct (body_lines lines) as [|line rest]; [done|].
  cbn [forallb] in Hall. apply andb_prop in Hall as [Hline _].
  apply tokenizes_ok in Hline as [columns Hs].
  cbn [for_each]. unfold render_line at 1. rewrite Hs. cbn [bind ok].
  pose proof (split_line_into_columns_length _ _ Hs) as Hlen.
  rewrite Hlen. change (11 =? 11)%nat with true. cbv iota.
  unfold render_columns.
  destruct (display_columns_ok cfg columns Hlen) as (d & -> & _).
  cbn [bind ok]. unfold pad_columns. rewrite !Hsel. reflexivity.
Qed.

Lemma main_lines_empty_selection_witness :
  (exists cfg,
     parse_args digits_only [lit "-"] = Run cfg [] /\
     columns_to_show cfg = [] /\
     main_lines cfg [lit "total 8"; dir_line] = raise IndexError).
Proof.
  eexists. split; [reflexivity|]. split; [reflexivity|].
  apply main_lines_empty_selection; [reflexivity | reflexivity |].
  right. discriminate.
Defined.

(** X26: the header is printed for every valid selection of one identifier
    or more: it is the identifiers, each followed by spaces up to the width
    of its column, joined by the separators like a row; a cell is as long as
    its column is wide, and one character long for a column of width 0. *)
Theorem print_header_aligned widths ew sel seps :
  valid_selection sel = true ->
  length widths = 11%nat ->
  print_header widths ew sel seps
  = join_parts seps (map (fun c => ljust [c] (column_width widths ew c)) sel)
  /\ forall c, len (ljust [c] (column_width widths ew c))
               = Z.max 1 (column_width widths ew c).
Proof.
  intros Hv Hw. split; [by apply print_header_cells|].
  intros c. unfold ljust, len. rewrite length_app.
  change (length [c]) with 1%nat.
  pose proof (len_spaces (column_width widths ew c - Z.of_nat 1)) as Hs.
  unfold len in Hs. lia.
Qed.

Lemma print_header_aligned_witness :
  print_header [10; 1; 5; 5; 4; 3; 1; 5; 15; 1; 1] (ExtraWidths 4 1)
               (lit "95") [lit " "]
  = ok (lit "9               5   ").
Proof.
  destruct (print_header_aligned [10; 1; 5; 5; 4; 3; 1; 5; 15; 1; 1]
              (ExtraWidths 4 1) (lit "95") [lit " "] eq_refl eq_refl)
    as [-> _].
  reflexivity.
Defined.




(** ** The rows of the table *)

(** Every line of a batch whose widths could be taken tokenizes. *)
Lemma batch_line_tokenizes lines sq widths ew line :
  calculate_column_widths lines sq = ok (widths, ew) ->
  line ∈ lines ->
  exists columns, split_line_into_columns line = ok columns.
Proof.
  intros Hcalc Hin.
  pose proof (measure_lines_returns sq lines
                (replicate 11 0, ExtraWidths 4 0) eq_refl) as [Hall _].
  fold (calculate_column_widths lines sq) in Hall.
  specialize (Hall (ex_intro _ _ Hcalc)).
  rewrite forallb_forall in Hall. apply tokenizes_ok, Hall.
  by apply list_elem_of_In.
Qed.

(** The loop of [main] prints, for each line, the row rendered from it. *)
Lemma render_lines_rows widths ew cfg lines : forall out n st,
  for_each (render_line widths ew cfg) lines (out, n) = ok st ->
  exists rows,
    st.1 = out ++ rows /\
    Forall2 (fun line row =>
               exists columns,
                 split_line_into_columns line = ok columns /\
                 render_columns widths ew cfg columns = ok row)
            lines rows.
Proof.
  induction lines as [|line lines IH]; intros out n st.
  - intros [= <-]. exists []. split; [by rewrite app_nil_r | constructor].
  - cbn [for_each].
    destruct (render_line widths ew cfg (out, n) line) as [e|[o m]] eqn:Hr;
      [done|].
    cbn [bind ok]. intros Hrun.
    apply render_line_counts in Hr as (-> & columns & output & Hs & Hrc & ->).
    destruct (IH _ _ _ Hrun) as (rows & Hst & Hall).
    exists (output :: rows). split; [by rewrite Hst, <- app_assoc|].
    constructor; [by exists columns | done].
Qed.

(** What [main] prints: the lines before the rows, then for each line behind
    a leading [total] line its row, then the count of the rows. *)
Lemma main_lines_rows cfg lines out :
  main_lines cfg lines = ok out ->
  exists pre rows,
    out = pre ++ rows ++ [str_of_nat (length rows) ++ lit " found"] /\
    Forall2 (fun line row =>
               rendered_line_of cfg (body_lines lines) line = ok row)
            (body_lines lines) rows.
Proof.
  rewrite main_lines_body.
  destruct (calculate_column_widths (body_lines lines) true)
    as [e|[widths ew]] eqn:Hcalc; [done|].
  cbn [bind ok fst snd].
  destruct (if show_header cfg then _ else _) as [e|out0]; [done|].
  cbn [bind ok].
  destruct (for_each _ _ _) as [e|[o n]] eqn:Hrun; [done|].
  cbn [bind ok fst snd]. intros [= <-].
  pose proof (render_lines_count _ _ _ _ _ _ _ _ Hrun) as [Hn _].
  destruct (render_lines_rows _ _ _ _ _ _ _ Hrun) as (rows & Ho & Hall).
  cbn [fst] in Ho. exists out0, rows. split.
  - apply Forall2_length in Hall.
    replace n with (length rows) by lia. by rewrite Ho, <- app_assoc.
  - eapply Forall2_impl; [exact Hall|].
    intros line row (columns & Hs & Hrc). unfold rendered_line_of.
    rewrite Hcalc. cbn [bind ok]. rewrite Hs. by cbn [bind ok].
Qed.

(** The row of every line behind a leading [total] line is among the lines
    [main] prints. *)
Lemma main_lines_prints cfg listing out line :
  main_lines cfg listing = ok out ->
  line ∈ body_lines listing ->
  exists output,
    rendered_line_of cfg (body_lines listing) line = ok output /\
    output ∈ out.
Proof.
  intros Hmain Hin.
  destruct (main_lines_rows _ _ _ Hmain) as (pre & rows & -> & Hall).
  apply list_elem_of_lookup_1 in Hin as [k Hk].
  destruct (Forall2_lookup_l _ _ _ _ _ Hall Hk) as (row & Hrow & Hrender).
  exists row. split; [done|].
  apply elem_of_app. right. apply elem_of_app. left.
  by eapply list_elem_of_lookup_2.
Qed.

(** The joined line holds every part, whole. *)
Lemma join_parts_holds seps parts output :
  join_parts seps parts = ok output ->
  forall i part,
    parts !! i = Some part ->
    exists before after, output = before ++ part ++ after.
Proof.
  unfold join_parts. destruct parts as [|first rest]; [done|].
  unfold index. cbn [lookup list_lookup bind ok drop].
  assert (Hloop : forall (rest : list str) k (acc out : str),
    for_enumerate
      (fun output i part => ok (output ++ separator_at seps i ++ part))
      k rest acc = ok out ->
    (exists after, out = acc ++ after) /\
    forall i part,
      rest !! i = Some part ->
      exists before after, out = before ++ part ++ after).
  { clear. induction rest as [|p rest IH]; intros k acc out Hrun.
    - cbn [for_enumerate] in Hrun. inversion Hrun; subst.
      split; [exists []; by rewrite app_nil_r | done].
    - cbn [for_enumerate bind ok] in Hrun.
      destruct (IH _ _ _ Hrun) as [[after ->] Hrest]. split.
      + exists (separator_at seps k ++ p ++ after).
        by rewrite <- !app_assoc.
      + intros [|i] part Hpart.
        * inversion Hpart; subst.
          exists (acc ++ separator_at seps k), after.
          by rewrite <- !app_assoc.
        * exact (Hrest i part Hpart). }
  rewrite drop_0. intros Hrun.
  destruct (Hloop _ _ _ _ Hrun) as [[after ->] Hrest].
  intros [|i] part Hpart.
  - inversion Hpart; subst. by exists [], after.
  - exact (Hrest i part Hpart).
Qed.

(** The two inner loops of [main] on a line of the batch: the first returns
    the display value of each selected column, the second its padded
    text. *)
Lemma row_columns cfg lines line widths ew :
  valid_selection (columns_to_show cfg) = true ->
  calculate_column_widths lines true = ok (widths, ew) ->
  line ∈ lines ->
  exists columns display_cols selected_padded,
    split_line_into_columns line = ok columns /\
    display_columns cfg columns = ok display_cols /\
    output_cols_of cfg lines line
    = ok (map (column_value ew display_cols) (columns_to_show cfg)) /\
    selected_padded_of cfg lines line = ok selected_padded /\
    rendered_line_of cfg lines line
    = join_parts (separators cfg) selected_padded /\
    length selected_padded = length (columns_to_show cfg) /\
    forall i c,
      columns_to_show cfg !! i = Some c ->
      char_in c identifiers = true /\
      selected_padded !! i
      = Some (padded_column widths ew (max_pad cfg)
                (map (column_value ew display_cols) (columns_to_show cfg))
                i c (column_value ew display_cols c)).
Proof.
  intros Hv Hcalc Hin.
  destruct (batch_line_tokenizes _ _ _ _ _ Hcalc Hin) as [columns Hs].
  pose proof (split_line_into_columns_length _ _ Hs) as Hlen.
  destruct (display_columns_ok cfg columns Hlen) as (d & Hd & Hdl).
  pose proof (calculate_column_widths_length _ _ _ _ Hcalc) as Hw.
  pose proof (select_columns_values ew d _ Hdl Hv) as Hsel.
  set (output_cols := map (column_value ew d) (columns_to_show cfg)) in *.
  assert (Hol : length output_cols = length (columns_to_show cfg))
    by apply length_map.
  destruct (pad_columns_ok widths ew cfg output_cols Hv Hw Hol)
    as (sp & Hsp & Hspl).
  exists columns, d, sp.
  unfold output_cols_of, selected_padded_of, rendered_line_of, render_columns.
  rewrite Hcalc. cbn [bind ok]. rewrite Hs. cbn [bind ok].
  rewrite Hd. cbn [bind ok]. rewrite Hsel. cbn [bind ok]. rewrite Hsp.
  cbn [bind ok]. do 6 (split; [done|]).
  intros i c Hc. split.
  - unfold valid_selection in Hv. rewrite forallb_forall in Hv. apply Hv.
    apply list_elem_of_In. by eapply list_elem_of_lookup_2.
  - apply (pad_columns_entries widths ew cfg output_cols sp Hv Hw Hol Hsp).
    + done.
    + subst output_cols.
      change (map (column_value ew d) (columns_to_show cfg))
        with (column_value ew d <$> columns_to_show cfg).
      by rewrite list_lookup_fmap, Hc.
Qed.

(** The padded text of a selected column is its display value and a
    padding: the reverse-video run when the highlight fires, spaces up to
    the width of the column when it does not. *)
Lemma padded_column_shape widths ew max_pad output_cols i c display_cols :
  char_in c identifiers = true ->
  exists padding,
    padded_column widths ew max_pad output_cols i c
                  (column_value ew display_cols c)
    = column_value ew display_cols c ++ padding /\
    padding
    = if fires widths ew max_pad output_cols i c
               (column_value ew display_cols c)
      then reverse_padding
             (get_color_code (column_value ew display_cols c))
             (column_width widths ew c
              - visible_len (column_value ew display_cols c))
      else spaces (column_width widths ew c
                   - visible_len (column_value ew display_cols c)).
Proof.
  intros Hid. unfold padded_column.
  destruct (Ascii.eqb c "0") eqn:H0.
  - apply Ascii.eqb_eq in H0. subst c. unfold fires, ljust.
    change (Ascii.eqb "0" "9" || Ascii.eqb "0" "*") with false.
    cbn [andb]. eexists. split; [reflexivity|].
    change (column_width widths ew "0") with (ew_arrow ew).
    f_equal. f_equal. unfold column_value.
    change (char_in "0" digits19) with false. cbv iota zeta.
    change (Ascii.eqb "0" "0") with true. cbv iota.
    by destruct (truthy _).
  - destruct (fires _ _ _ _ _ _ _); by eexists.
Qed.

(** C4: in every line of the table, each selected column is printed as its
    display value and a padding, and the padding is the reverse-video run
    exactly when the column is the filename or the target, [max_pad] is
    positive, the padding needed is at least [max_pad] and the column
    selected next has visible content; otherwise it is the plain spaces up to
    the width of the column, so it is with [max_pad = 0] and for the column
    selected last. *)
Theorem reverse_highlight_iff cfg lines line widths ew :
  valid_selection (columns_to_show cfg) = true ->
  calculate_column_widths lines true = ok (widths, ew) ->
  line ∈ lines ->
  exists output_cols selected_padded,
    output_cols_of cfg lines line = ok output_cols /\
    selected_padded_of cfg lines line = ok selected_padded /\
    rendered_line_of cfg lines line
    = join_parts (separators cfg) selected_padded /\
    length selected_padded = length (columns_to_show cfg) /\
    (forall listing out,
       body_lines listing = lines -> main_lines cfg listing = ok out ->
       exists output,
         join_parts (separators cfg) selected_padded = ok output /\
         output ∈ out) /\
    forall i c,
      columns_to_show cfg !! i = Some c ->
      exists col padding,
        output_cols !! i = Some col /\
        selected_padded !! i = Some (col ++ padding) /\
        (char_in ESC padding = true
         <-> highlight_rule widths ew (max_pad cfg) output_cols i c col) /\
        (highlight_rule widths ew (max_pad cfg) output_cols i c col ->
         padding = reverse_padding (get_color_code col)
                     (column_width widths ew c - visible_len col)) /\
        (~ highlight_rule widths ew (max_pad cfg) output_cols i c col ->
         padding = spaces (column_width widths ew c - visible_len col)) /\
        (max_pad cfg = 0 ->
         padding = spaces (column_width widths ew c - visible_len col)) /\
        (S i = length (columns_to_show cfg) ->
         padding = spaces (column_width widths ew c - visible_len col)).
Proof.
  intros Hv Hcalc Hin.
  destruct (row_columns cfg lines line widths ew Hv Hcalc Hin)
    as (columns & d & sp & _ & _ & Ho & Hsp & Hr & Hl & Hall).
  set (output_cols := map (column_value ew d) (columns_to_show cfg)) in *.
  exists output_cols, sp. do 4 (split; [done|]). split.
  { intros listing out Hbody Hmain. subst lines.
    destruct (main_lines_prints _ _ _ _ Hmain Hin) as (output & Hrow & Hout).
    exists output. split; [by rewrite <- Hr | done]. }
  intros i c Hc. destruct (Hall i c Hc) as [Hid Hentry].
  destruct (padded_column_shape widths ew (max_pad cfg) output_cols i c d Hid)
    as (padding & Hshape & Hpad).
  set (col := column_value ew d c) in *.
  exists col, padding. split.
  { subst output_cols col.
    change (map (column_value ew d) (columns_to_show cfg))
      with (column_value ew d <$> columns_to_show cfg).
    by rewrite list_lookup_fmap, Hc. }
  split; [rewrite <- Hshape; exact Hentry|].
  destruct (fires widths ew (max_pad cfg) output_cols i c col) eqn:Hf.
  - pose proof (proj1 (fires_rule _ _ _ _ _ _ _) Hf) as Hrule.
    subst padding. rewrite char_in_reverse_padding.
    split; [done|]. split; [done|]. split; [done|].
    destruct Hrule as (_ & Hpos & _ & Hnext). split.
    + intros H0. lia.
    + intros Hlast. unfold next_shows_content in Hnext.
      rewrite lookup_ge_None_2 in Hnext; [done|].
      subst output_cols. rewrite length_map. lia.
  - assert (Hno : ~ highlight_rule widths ew (max_pad cfg) output_cols i c col).
    { intros Hrule. apply fires_rule in Hrule. congruence. }
    subst padding. rewrite char_in_spaces by done.
    split; [done|]. split; [done|]. done.
Qed.

(** The row of [dir_line] in the columns [195]: the filename, thirteen
    characters short of its column and followed by the size, gets the
    reverse-video run. *)
Lemma reverse_highlight_iff_witness :
  calculate_column_widths [dir_line; file_line] true
  = ok ([10; 1; 5; 5; 4; 3; 1; 5; 15; 1; 1], ExtraWidths 4 1) /\
  exists output_cols selected_padded col padding,
    output_cols_of (short_selection "195" false 5) [dir_line; file_line]
                   dir_line = ok output_cols /\
    selected_padded_of (short_selection "195" false 5) [dir_line; file_line]
                       dir_line = ok selected_padded /\
    output_cols !! 1%nat = Some col /\
    selected_padded !! 1%nat = Some (col ++ padding) /\
    (char_in ESC padding = true
     <-> highlight_rule [10; 1; 5; 5; 4; 3; 1; 5; 15; 1; 1] (ExtraWidths 4 1)
           5 output_cols 1 "9" col).
Proof.
  split; [reflexivity|].
  destruct (reverse_highlight_iff (short_selection "195" false 5)
              [dir_line; file_line] dir_line
              [10; 1; 5; 5; 4; 3; 1; 5; 15; 1; 1] (ExtraWidths 4 1)
              eq_refl eq_refl (list_elem_of_here _ _))
    as (output_cols & selected_padded & Ho & Hsp & _ & _ & _ & Hall).
  destruct (Hall 1%nat "9"%char eq_refl)
    as (col & padding & Hcol & Hentry & Hiff & _).
  by exists output_cols, selected_padded, col, padding.
Defined.

(** C9: in every line of the table, each selected column is printed as its
    display value and a padding that shows as [max(0, width - visible)]
    spaces, and the line is printed, whole, whatever the lengths: a column
    wider than its width is there as it is, with no padding and nothing cut.
    Without [-Q] no column of a row of the batch is wider than its width;
    with [-Q] the quotes are shown and were not measured. *)
Theorem overflowing_column_unpadded cfg lines line widths ew :
  valid_selection (columns_to_show cfg) = true ->
  columns_to_show cfg <> [] ->
  calculate_column_widths lines true = ok (widths, ew) ->
  line ∈ lines ->
  exists output_cols selected_padded output,
    output_cols_of cfg lines line = ok output_cols /\
    selected_padded_of cfg lines line = ok selected_padded /\
    join_parts (separators cfg) selected_padded = ok output /\
    rendered_line_of cfg lines line = ok output /\
    (forall listing out,
       body_lines listing = lines -> main_lines cfg listing = ok out ->
       output ∈ out) /\
    forall i c,
      columns_to_show cfg !! i = Some c ->
      exists col padding before after,
        output_cols !! i = Some col /\
        selected_padded !! i = Some (col ++ padding) /\
        output = before ++ (col ++ padding) ++ after /\
        visible_len (col ++ padding)
        = visible_len col
          + Z.max 0 (column_width widths ew c - visible_len col) /\
        (column_width widths ew c < visible_len col -> padding = []) /\
        (use_quotes cfg = false ->
         visible_len col <= column_width widths ew c).
Proof.
  intros Hv Hne Hcalc Hin.
  destruct (row_columns cfg lines line widths ew Hv Hcalc Hin)
    as (columns & d & sp & Hs & Hd & Ho & Hsp & Hr & Hl & Hall).
  set (output_cols := map (column_value ew d) (columns_to_show cfg)) in *.
  assert (Hjoin : exists output, join_parts (separators cfg) sp = ok output).
  { destruct sp as [|first rest]; [|apply join_parts_ok].
    destruct (columns_to_show cfg); [done | cbn [length] in Hl; lia]. }
  destruct Hjoin as [output Hjoin].
  exists output_cols, sp, output. do 3 (split; [done|]).
  split; [by rewrite Hr|]. split.
  { intros listing out Hbody Hmain. subst lines.
    destruct (main_lines_prints _ _ _ _ Hmain Hin) as (row & Hrow & Hout).
    rewrite Hr, Hjoin in Hrow. by inversion Hrow; subst. }
  intros i c Hc. destruct (Hall i c Hc) as [Hid Hentry].
  destruct (padded_column_shape widths ew (max_pad cfg) output_cols i c d Hid)
    as (padding & Hshape & Hpad).
  set (col := column_value ew d c) in *.
  rewrite Hshape in Hentry.
  destruct (join_parts_holds _ _ _ Hjoin i _ Hentry) as (before & after & Hout).
  exists col, padding, before, after. split.
  { subst output_cols col.
    change (map (column_value ew d) (columns_to_show cfg))
      with (column_value ew d <$> columns_to_show cfg).
    by rewrite list_lookup_fmap, Hc. }
  do 2 (split; [done|]).
  split; [|split].
  - subst padding.
    destruct (fires widths ew (max_pad cfg) output_cols i c col).
    + apply visible_len_reverse_padding_after.
    + apply visible_len_spaces_after.
  - intros Hover. subst padding.
    destruct (fires widths ew (max_pad cfg) output_cols i c col) eqn:Hf.
    + apply fires_rule in Hf. destruct Hf as (_ & ? & ? & _). lia.
    + apply spaces_negative. lia.
  - intros Hq.
    by apply (column_value_fits cfg lines widths ew line columns d c).
Qed.

(** With [-Q] the quotes are shown and were not measured: the widths of
    [dir_line] and [file_line] give the filename column 15 characters, and
    the quoted name of [file_line] has 17; it is printed as it is. *)
Lemma overflowing_column_unpadded_witness :
  calculate_column_widths [dir_line; file_line] true
  = ok ([10; 1; 5; 5; 4; 3; 1; 5; 15; 1; 1], ExtraWidths 4 1) /\
  use_quotes (short_selection "95" true 5) = true /\
  column_width [10; 1; 5; 5; 4; 3; 1; 5; 15; 1; 1] (ExtraWidths 4 1) "9"
  < visible_len (quoted (lit "longer_name.txt")) /\
  exists selected_padded output,
    output_cols_of (short_selection "95" true 5) [dir_line; file_line]
                   file_line
    = ok [quoted (lit "longer_name.txt"); lit "12"] /\
    selected_padded_of (short_selection "95" true 5) [dir_line; file_line]
                       file_line = ok selected_padded /\
    selected_padded !! 0%nat = Some (quoted (lit "longer_name.txt") ++ []) /\
    rendered_line_of (short_selection "95" true 5) [dir_line; file_line]
                     file_line = ok output.
Proof.
  split; [reflexivity|]. split; [reflexivity|]. split; [reflexivity|].
  destruct (overflowing_column_unpadded (short_selection "95" true 5)
              [dir_line; file_line] file_line
              [10; 1; 5; 5; 4; 3; 1; 5; 15; 1; 1] (ExtraWidths 4 1)
              eq_refl ltac:(discriminate) eq_refl
              (list_elem_of_further _ _ _ (list_elem_of_here _ _)))
    as (output_cols & selected_padded & output & Ho & Hsp & _ & Hr & _
        & Hall).
  destruct (Hall 0%nat "9"%char eq_refl)
    as (col & padding & _ & _ & Hcol & Hentry & _ & _ & Hover & _).
  assert (Hcols : output_cols = [quoted (lit "longer_name.txt"); lit "12"]).
  { assert (Hc : output_cols_of (short_selection "95" true 5)
                   [dir_line; file_line] file_line
                 = ok [quoted (lit "longer_name.txt"); lit "12"])
      by reflexivity.
    rewrite Hc in Ho. by inversion Ho. }
  subst output_cols. inversion Hcol; subst col.
  rewrite (Hover eq_refl) in Hentry.
  exists selected_padded, output. by repeat split.
Defined.
